(** * aviation-text-normalizer: tokenizer, matchers and scanning driver

    A shallow embedding of the Python package [aviation_text_normalizer]
    and the properties of its matching engine.

    Conventions of the embedding:
    - a Python [str] is a [string]; a character is the code point
      U+0000..U+00FF it denotes (Latin-1), and the Unicode-aware classes of
      [re] and [str] ([\s], [\d], [\w], [isdigit], [lower], [upper]) are
      taken at their values on that range;
    - a Python [int] is a [Z] (steps) or a [nat] (indices, which the code
      only ever uses in the range [0 .. len(tokens)]);
    - a [float] confidence is a rational [Q]: the code only builds the
      literals 1, 0.95, 0.90, 0.85, 0.75 and only compares them;
    - a call that may raise returns an [outcome]; [None] is [option]. *)

From Stdlib Require Import String Ascii List ZArith NArith QArith Bool Lia.
From Stdlib Require Import DecimalString.
Import ListNotations.

Close Scope Q_scope.
Open Scope list_scope.
Open Scope string_scope.

(* ------------------------------------------------------------------ *)
(** ** Characters *)

Module Chars.

Definition code (c : ascii) : N := N_of_ascii c.

Definition between (lo hi : N) (c : ascii) : bool :=
  (lo <=? code c)%N && (code c <=? hi)%N.

(** [[A-Z]], [[a-z]] and [[A-Za-z]]. *)
Definition is_AZ (c : ascii) : bool := between 65 90 c.
Definition is_az (c : ascii) : bool := between 97 122 c.
Definition is_letter (c : ascii) : bool := is_AZ c || is_az c.

(** [[0-9]]; on this range [\d] is the same class. *)
Definition is_09 (c : ascii) : bool := between 48 57 c.
Definition re_d (c : ascii) : bool := is_09 c.

(** [\s] and [str.isspace]: TAB..CR, FS..US, SPACE, NEL, NBSP. *)
Definition re_s (c : ascii) : bool :=
  between 9 13 c || between 28 32 c || (code c =? 133)%N || (code c =? 160)%N.

(** [str.isdigit] on one character: the decimal digits and the
    superscripts two, three, one. *)
Definition isdigit_char (c : ascii) : bool :=
  is_09 c || (code c =? 178)%N || (code c =? 179)%N || (code c =? 185)%N.

(** [\w]: alphanumeric per [str.isalnum], or underscore. *)
Definition re_w (c : ascii) : bool :=
  is_09 c || is_letter c || (code c =? 95)%N
  || (code c =? 170)%N || (code c =? 178)%N || (code c =? 179)%N
  || (code c =? 181)%N || (code c =? 185)%N || (code c =? 186)%N
  || between 188 190 c || between 192 214 c || between 216 246 c
  || between 248 255 c.

(** [str.lower] on one character. *)
Definition lower_char (c : ascii) : ascii :=
  if is_AZ c || between 192 214 c || between 216 222 c
  then ascii_of_N (code c + 32) else c.

(** [str.upper] on one character.  Sharp s becomes two letters.  The
    upper-case forms of U+00B5 and U+00FF lie outside the range; they are
    kept as they are, which no pattern of the package tells apart from
    their real images (neither is an ASCII letter, a digit or a space). *)
Definition upper_char (c : ascii) : string :=
  if is_az c || between 224 246 c || between 248 254 c
  then String (ascii_of_N (code c - 32)) ""
  else if (code c =? 223)%N then "SS"
  else String c "".

Definition newline : ascii := ascii_of_N 10.

End Chars.

(* ------------------------------------------------------------------ *)
(** ** Strings *)

Module Str.
Import Chars.

Fixpoint all (p : ascii -> bool) (s : string) : bool :=
  match s with
  | EmptyString => true
  | String c r => p c && all p r
  end.

Fixpoint any (p : ascii -> bool) (s : string) : bool :=
  match s with
  | EmptyString => false
  | String c r => p c || any p r
  end.

Definition nonempty (s : string) : bool :=
  match s with EmptyString => false | _ => true end.

(** [re.fullmatch("[class]+", s)]. *)
Definition all1 (p : ascii -> bool) (s : string) : bool :=
  nonempty s && all p s.

Fixpoint take_while (p : ascii -> bool) (s : string) : string :=
  match s with
  | EmptyString => EmptyString
  | String c r => if p c then String c (take_while p r) else EmptyString
  end.

Fixpoint drop_while (p : ascii -> bool) (s : string) : string :=
  match s with
  | EmptyString => EmptyString
  | String c r => if p c then drop_while p r else s
  end.

Fixpoint map (f : ascii -> ascii) (s : string) : string :=
  match s with
  | EmptyString => EmptyString
  | String c r => String (f c) (map f r)
  end.

Fixpoint filter (p : ascii -> bool) (s : string) : string :=
  match s with
  | EmptyString => EmptyString
  | String c r => if p c then String c (filter p r) else filter p r
  end.

(** [s[n:]]. *)
Fixpoint drop (n : nat) (s : string) : string :=
  match n, s with
  | S n', String _ r => drop n' r
  | _, _ => s
  end.

(** [s[:n]]. *)
Fixpoint take (n : nat) (s : string) : string :=
  match n, s with
  | S n', String c r => String c (take n' r)
  | _, _ => EmptyString
  end.

(** The characters of [s] as one-character strings. *)
Fixpoint chars (s : string) : list string :=
  match s with
  | EmptyString => []
  | String c r => String c "" :: chars r
  end.

Definition lower (s : string) : string := map lower_char s.

Fixpoint upper (s : string) : string :=
  match s with
  | EmptyString => EmptyString
  | String c r => upper_char c ++ upper r
  end.

(** [str.isdigit]. *)
Definition isdigit (s : string) : bool := all1 isdigit_char s.

Definition lstrip (s : string) : string := drop_while re_s s.

Fixpoint rstrip (s : string) : string :=
  match s with
  | EmptyString => EmptyString
  | String c r =>
      match rstrip r with
      | EmptyString => if re_s c then EmptyString else String c EmptyString
      | r' => String c r'
      end
  end.

(** [str.strip()]. *)
Definition strip (s : string) : string := rstrip (lstrip s).

(** [sep.join(parts)]. *)
Definition join (sep : string) (parts : list string) : string :=
  String.concat sep parts.

(** [needle in hay]. *)
Fixpoint contains (needle hay : string) : bool :=
  String.prefix needle hay
  || match hay with
     | EmptyString => false
     | String _ r => contains needle r
     end.

(** [s.split()]: the maximal runs without white space; [cur] is the run
    being read. *)
Fixpoint split_from (cur : string) (s : string) : list string :=
  match s with
  | EmptyString => if nonempty cur then [cur] else []
  | String c r =>
      if re_s c
      then if nonempty cur then cur :: split_from "" r else split_from "" r
      else split_from (cur ++ String c "") r
  end.

Definition split (s : string) : list string := split_from "" s.

(** [s.replace(" ", "")]. *)
Definition remove_spaces (s : string) : string :=
  filter (fun c => negb (code c =? 32)%N) s.

(** [s.zfill(width)]: zeros on the left, after a leading sign. *)
Definition zfill (width : nat) (s : string) : string :=
  let pad := String.concat "" (repeat "0" (width - String.length s)) in
  match s with
  | String c r =>
      if (code c =? 43)%N || (code c =? 45)%N
      then String c (pad ++ r) else pad ++ s
  | EmptyString => pad
  end.

Definition list_eqb (a b : list string) : bool :=
  if list_eq_dec string_dec a b then true else false.

(** [x in keys]. *)
Definition mem (x : string) (keys : list string) : bool :=
  existsb (String.eqb x) keys.

(** [d.get(k)] on a dictionary kept as an association list. *)
Fixpoint lookup {V : Type} (k : string) (d : list (string * V)) : option V :=
  match d with
  | [] => None
  | (k', v) :: d' => if String.eqb k k' then Some v else lookup k d'
  end.

End Str.

(* ------------------------------------------------------------------ *)
(** ** core/tokenizer.py *)

Module Tokenizer.
Import Chars.

(** The character class of [re.sub(r"[,\;:\(\)\[\]\{\}]", " ", s)]. *)
Definition is_separator (c : ascii) : bool :=
  Str.mem (String c "") [","; ";"; ":"; "("; ")"; "["; "]"; "{"; "}"].

(** [s.replace(en dash, "-").replace(em dash, "-")]: both dashes lie above
    U+00FF, so no string of the model contains one. *)
Definition unify_dashes (s : string) : string := s.

(** [re.sub(r"\s+", " ", s)]; [in_run] says the previous character was
    white space, already replaced. *)
Fixpoint collapse_ws (in_run : bool) (s : string) : string :=
  match s with
  | EmptyString => EmptyString
  | String c r =>
      if re_s c
      then if in_run then collapse_ws true r
           else String " " (collapse_ws true r)
      else String c (collapse_ws false r)
  end.

Definition normalize (text : string) : string :=
  let s := Str.strip text in
  let s := Str.map (fun c => if is_separator c then " "%char else c) s in
  let s := unify_dashes s in
  Str.strip (collapse_ws false s).

(** The third alternative of [_TOKEN_RE]: [[^\sA-Za-z\d]]. *)
Definition is_symbol (c : ascii) : bool :=
  negb (re_s c || is_letter c || re_d c).

(** [_TOKEN_RE.findall]: [[A-Za-z]+|\d+(?:\.\d+)?|[^\sA-Za-z\d]+], scanned
    from the left; a character no alternative starts with (white space) is
    skipped.  Each round consumes at least one character, so [fuel] rounds
    scan a text of [fuel] characters. *)
Fixpoint findall_fuel (fuel : nat) (s : string) : list string :=
  match fuel with
  | O => []
  | S fuel' =>
      match s with
      | EmptyString => []
      | String c r =>
          if is_letter c then
            Str.take_while is_letter s
              :: findall_fuel fuel' (Str.drop_while is_letter s)
          else if re_d c then
            let int := Str.take_while re_d s in
            let rest := Str.drop_while re_d s in
            match rest with
            | String dot after =>
                if (code dot =? 46)%N && Str.nonempty (Str.take_while re_d after)
                then (int ++ String dot (Str.take_while re_d after))%string
                       :: findall_fuel fuel' (Str.drop_while re_d after)
                else int :: findall_fuel fuel' rest
            | EmptyString => [int]
            end
          else if re_s c then findall_fuel fuel' r
          else
            Str.take_while is_symbol s
              :: findall_fuel fuel' (Str.drop_while is_symbol s)
      end
  end.

Definition findall (s : string) : list string :=
  findall_fuel (String.length s) s.

(** [re.fullmatch(r"[^\w\.]+", t)]. *)
Definition is_punct (t : string) : bool :=
  Str.all1 (fun c => negb (re_w c || (code c =? 46)%N)) t.

Definition tokenize (text : string) : list string :=
  let raw_tokens := findall text in
  let tokens :=
    List.map (fun tok => if Str.all1 is_letter tok then Str.lower tok else tok)
             raw_tokens in
  List.filter (fun t => negb (is_punct t)) tokens.

End Tokenizer.

(* ------------------------------------------------------------------ *)
(** ** Raising computations *)

Inductive exn : Type := ValueError | KeyError | IndexError.

(** The result of a call: it raised (an instance of [Exception]) or it
    returned a value. *)
Inductive outcome (A : Type) : Type :=
| Raise (e : exn)
| Ret (a : A).
Arguments Raise {A} e.
Arguments Ret {A} a.

Definition bind {A B : Type} (m : outcome A) (k : A -> outcome B) : outcome B :=
  match m with
  | Raise e => Raise e
  | Ret a => k a
  end.

Notation "x <- m ;; k" := (bind m (fun x => k))
  (at level 61, m at next level, right associativity).

(** [d[k]]: a missing key raises [KeyError]. *)
Definition subscript {V : Type} (k : string) (d : list (string * V)) : outcome V :=
  match Str.lookup k d with
  | Some v => Ret v
  | None => Raise KeyError
  end.

(** [tokens[i]] for [i >= 0]: out of range raises [IndexError]. *)
Definition item (tokens : list string) (i : nat) : outcome string :=
  match nth_error tokens i with
  | Some t => Ret t
  | None => Raise IndexError
  end.

(** [tokens[a:b]] for [0 <= a]. *)
Definition slice (tokens : list string) (a b : nat) : list string :=
  firstn (b - a) (skipn a tokens).

(** [str(n)] for [n >= 0]. *)
Definition str_of_nat (n : nat) : string :=
  NilEmpty.string_of_uint (Nat.to_uint n).

(** [[f(x) for x in xs]] where [f] may raise. *)
Fixpoint mapM {A B : Type} (f : A -> outcome B) (xs : list A) : outcome (list B) :=
  match xs with
  | [] => Ret []
  | x :: r => y <- f x ;; ys <- mapM f r ;; Ret (y :: ys)
  end.

(** [k < len(tokens) and p(tokens[k])]. *)
Definition at_index (tokens : list string) (k : nat) (p : string -> bool) : bool :=
  match nth_error tokens k with
  | Some t => p t
  | None => false
  end.

(** The collecting loop of the matchers,
    [while j < len(tokens) and len(acc) < cap:
       d = conv(tokens[j]); break if d is None; acc.append(d); j += 1],
    run on [toks = tokens[j:]]; it returns what was appended, and [j] has
    grown by that many. *)
Fixpoint collect (conv : string -> option string) (cap : nat)
    (toks : list string) : list string :=
  match cap, toks with
  | S cap', t :: rest =>
      match conv t with
      | Some d => d :: collect conv cap' rest
      | None => []
      end
  | _, _ => []
  end.

(** The same loop without the bound on [len(acc)]. *)
Fixpoint collect_all (conv : string -> option string)
    (toks : list string) : list string :=
  match toks with
  | t :: rest =>
      match conv t with
      | Some d => d :: collect_all conv rest
      | None => []
      end
  | [] => []
  end.

(** [$]: the end of the string, or just before a final newline. *)
Definition at_end (tail : string) : bool :=
  (tail =? "") || (tail =? String Chars.newline "").

(* ------------------------------------------------------------------ *)
(** ** data/dictionary.py *)

Module Dictionary.

Definition ICAO_ALPHABET : list (string * string) :=
  [ ("alpha", "A"); ("bravo", "B"); ("charlie", "C"); ("delta", "D");
    ("echo", "E"); ("foxtrot", "F"); ("golf", "G"); ("hotel", "H");
    ("india", "I"); ("juliett", "J"); ("kilo", "K"); ("lima", "L");
    ("mike", "M"); ("november", "N"); ("oscar", "O"); ("papa", "P");
    ("quebec", "Q"); ("romeo", "R"); ("sierra", "S"); ("tango", "T");
    ("uniform", "U"); ("victor", "V"); ("whiskey", "W"); ("xray", "X");
    ("x-ray", "X"); ("yankee", "Y"); ("zulu", "Z") ].

(** [{v: k for k, v in ICAO_ALPHABET.items()}]: a later pair overwrites an
    earlier one with the same letter, so a look-up finds the last. *)
Definition ICAO_REVERSE : list (string * string) :=
  rev (List.map (fun kv => (snd kv, fst kv)) ICAO_ALPHABET).

Definition NUMBER_WORDS : list (string * nat) :=
  [ ("zero", 0); ("oh", 0); ("one", 1); ("two", 2); ("three", 3);
    ("tree", 3); ("four", 4); ("five", 5); ("fife", 5); ("six", 6);
    ("seven", 7); ("eight", 8); ("ait", 8); ("nine", 9); ("niner", 9) ].

(** Keyed by the integers 0..9. *)
Definition NUMBER_REVERSE : list (nat * string) :=
  [ (0, "zero"); (1, "one"); (2, "two"); (3, "three"); (4, "four");
    (5, "five"); (6, "six"); (7, "seven"); (8, "eight"); (9, "nine") ].

Definition DECIMAL_WORDS : list string := ["decimal"; "point"; "dot"].

Definition AIRLINE_ICAO : list (string * string) :=
  [ ("CSN", "china southern"); ("CCA", "air china"); ("CES", "china eastern") ].

End Dictionary.

(* ------------------------------------------------------------------ *)
(** ** utils/number_utils.py *)

Module NumberUtils.
Import Chars Dictionary.

Definition token_to_digit (token : string) : option string :=
  let t := Str.lower token in
  if Str.isdigit t && (String.length t =? 1)%nat then Some t
  else match Str.lookup t NUMBER_WORDS with
       | Some n => Some (str_of_nat n)
       | None => None
       end.

(** [int(ch)] for one character: only a decimal digit converts. *)
Definition int_of_char (c : ascii) : outcome nat :=
  if is_09 c then Ret (N.to_nat (code c - 48)) else Raise ValueError.

(** [NUMBER_REVERSE[n]]. *)
Definition number_reverse (n : nat) : outcome string :=
  match find (fun kv => (fst kv =? n)%nat) NUMBER_REVERSE with
  | Some kv => Ret (snd kv)
  | None => Raise KeyError
  end.

(** [[NUMBER_REVERSE[int(ch)] for ch in only]]. *)
Fixpoint spoken_words (only : string) : outcome (list string) :=
  match only with
  | EmptyString => Ret []
  | String c r =>
      n <- int_of_char c ;;
      w <- number_reverse n ;;
      ws <- spoken_words r ;;
      Ret (w :: ws)
  end.

Definition digits_to_spoken (digits : string) : outcome string :=
  let only := Str.filter isdigit_char digits in
  if negb (Str.nonempty only) then Ret ""
  else ws <- spoken_words only ;; Ret (Str.join " " ws).

(** [num.split(".", 1)] when ["." in num]. *)
Definition split_dot (num : string) : option (string * string) :=
  let is_dot c := (code c =? 46)%N in
  if Str.any is_dot num
  then Some (Str.take_while (fun c => negb (is_dot c)) num,
             Str.drop 1 (Str.drop_while (fun c => negb (is_dot c)) num))
  else None.

Definition num_str_to_spoken (num : string) : outcome string :=
  match split_dot num with
  | Some (a, b) =>
      sa <- digits_to_spoken a ;;
      sb <- digits_to_spoken b ;;
      Ret (sa ++ " decimal " ++ sb)
  | None => digits_to_spoken num
  end.

(** [NUMBER_REVERSE.get(ch, default)] for a string [ch]: the keys of
    [NUMBER_REVERSE] are integers and no string equals an integer, so the
    look-up misses and yields the default. *)
Definition number_reverse_get_str (ch default : string) : string := default.

End NumberUtils.

(* ------------------------------------------------------------------ *)
(** ** core/entity.py *)

Module Entity.

Inductive EntityType : Type :=
| CALLSIGN | RUNWAY | TAXIWAY | HEADING | FLIGHT_LEVEL | FREQUENCY | QNH | VALUE.

Inductive RenderMode : Type := CODE | SPOKEN.

Record AviationEntity : Type := mkEntity {
  type : EntityType;
  raw : string;
  code : string;
  spoken : string;
  confidence : Q;
  note : option string
}.

Definition render (e : AviationEntity) (mode : RenderMode) : string :=
  match mode with
  | SPOKEN => spoken e
  | CODE => code e
  end.

End Entity.

(* ------------------------------------------------------------------ *)
(** ** core/match.py *)

Module Match.

Record MatchResult : Type := mkMatch {
  entity : Entity.AviationEntity;
  step : Z;
  confidence : Q
}.

End Match.

(** ** fsms/base.py: a matcher is called on the token list and an index;
    it raises, returns [None], or returns a [MatchResult]. *)
Definition FSM : Type :=
  list string -> nat -> outcome (option Match.MatchResult).

(** [MatchResult(entity=AviationEntity(type, raw, code, spoken, confidence),
    step, confidence)] as every matcher builds it. *)
Definition matched (ty : Entity.EntityType) (raw code spoken : string)
    (step : Z) (conf : Q) : outcome (option Match.MatchResult) :=
  Ret (Some (Match.mkMatch (Entity.mkEntity ty raw code spoken conf None)
                           step conf)).

(* ------------------------------------------------------------------ *)
(** ** fsms/callsign.py *)

Module CallsignFSM.
Import Chars Dictionary NumberUtils Entity.

(** [_ICAO_CODE_RE.fullmatch]: [^[A-Z]{3}$]. *)
Definition _ICAO_CODE_RE (s : string) : bool :=
  (String.length s =? 3)%nat && Str.all is_AZ s.

(** [_ICAO_MIX_RE.match]: [^([A-Z]{3})\s*([0-9]{1,5})$], with its two
    groups. *)
Definition _ICAO_MIX_RE (s : string) : option (string * string) :=
  let icao := Str.take 3 s in
  let after := Str.drop_while re_s (Str.drop 3 s) in
  let digits := Str.take_while is_09 after in
  let tail := Str.drop_while is_09 after in
  if _ICAO_CODE_RE icao
     && (1 <=? String.length digits)%nat && (String.length digits <=? 5)%nat
     && at_end tail
  then Some (icao, digits) else None.

(** [AIRLINE_ICAO.get(icao, icao)]. *)
Definition airline_name (icao : string) : string :=
  match Str.lookup icao AIRLINE_ICAO with
  | Some name => name
  | None => icao
  end.

(** [" ".join(NUMBER_REVERSE.get(ch, ch) for ch in digits)]. *)
Definition spoken_digits (digits : string) : string :=
  Str.join " " (List.map (fun ch => number_reverse_get_str ch ch)
                         (Str.chars digits)).

(** One round of the separated form's loop: a digit-string token is kept
    whole, any other token must convert to one digit. *)
Definition separated_digit (tok : string) : option string :=
  if Str.isdigit tok then Some tok else token_to_digit tok.

(** Case 3: [for icao, name in AIRLINE_ICAO.items()]. *)
Fixpoint by_name (airlines : list (string * string))
    (tokens : list string) (index : nat) : outcome (option Match.MatchResult) :=
  match airlines with
  | [] => Ret None
  | (icao, name) :: more =>
      let nt := Str.split name in
      if negb (Str.list_eqb (slice tokens index (index + length nt)) nt)
      then by_name more tokens index
      else
        let j0 := (index + length nt)%nat in
        let digits := collect_all token_to_digit (skipn j0 tokens) in
        let j := (j0 + length digits)%nat in
        match digits with
        | _ :: _ =>
            let dstr := Str.join "" digits in
            matched CALLSIGN (Str.join " " (slice tokens index j))
                    (icao ++ dstr) (name ++ " " ++ spoken_digits dstr)
                    (Z.of_nat j - Z.of_nat index) (85 # 100)
        | [] => by_name more tokens index
        end
  end.

Definition match_ : FSM := fun tokens index =>
  if (length tokens <=? index)%nat then Ret None else
  t0 <- item tokens index ;;
  let t0u := Str.upper t0 in
  match _ICAO_MIX_RE t0u with
  | Some (icao, digits) =>
      matched CALLSIGN t0 (icao ++ digits)
              (airline_name icao ++ " " ++ spoken_digits digits) 1 1
  | None =>
      let digits :=
        if _ICAO_CODE_RE t0u
        then collect_all separated_digit (skipn (index + 1) tokens)
        else [] in
      match digits with
      | _ :: _ =>
          let j := (index + 1 + length digits)%nat in
          let dstr := Str.join "" digits in
          matched CALLSIGN (Str.join " " (slice tokens index j))
                  (t0u ++ dstr) (airline_name t0u ++ " " ++ spoken_digits dstr)
                  (Z.of_nat j - Z.of_nat index) (90 # 100)
      | [] => by_name AIRLINE_ICAO tokens index
      end
  end.

End CallsignFSM.

(* ------------------------------------------------------------------ *)
(** ** fsms/flight_level.py *)

Module FlightLevelFSM.
Import Chars Dictionary NumberUtils Entity.

(** [_FL_RE.match]: [^FL\s*([0-9]{2,3})$] with [re.IGNORECASE]; its group. *)
Definition _FL_RE (s : string) : option string :=
  match s with
  | String f (String l rest) =>
      let after := Str.drop_while re_s rest in
      let digits := Str.take_while is_09 after in
      let tail := Str.drop_while is_09 after in
      if (Str.lower (String f (String l "")) =? "fl")
         && (2 <=? String.length digits)%nat && (String.length digits <=? 3)%nat
         && at_end tail
      then Some digits else None
  | _ => None
  end.

Definition _norm_word (x : string) : outcome string :=
  if Str.isdigit x then digits_to_spoken x
  else match Str.lookup x [ ("tree", "three"); ("fife", "five");
                            ("niner", "nine"); ("ait", "eight");
                            ("oh", "zero") ] with
       | Some y => Ret y
       | None => Ret x
       end.

(** One round of the spoken form's loop: the lower-cased token is kept
    when it is a number word or a single digit. *)
Definition level_word (tok : string) : option string :=
  let w := Str.lower tok in
  if Str.mem w (List.map fst NUMBER_WORDS)
     || (Str.isdigit w && (String.length w =? 1)%nat)
  then Some w else None.

Definition match_ : FSM := fun tokens index =>
  if (length tokens <=? index)%nat then Ret None else
  tok <- item tokens index ;;
  match _FL_RE (Str.remove_spaces tok) with
  | Some fl =>
      sp <- digits_to_spoken fl ;;
      matched FLIGHT_LEVEL tok ("FL" ++ fl) ("flight level " ++ sp) 1 1
  | None =>
      if (Str.lower tok =? "fl") && at_index tokens (index + 1) Str.isdigit
      then
        fl <- item tokens (index + 1) ;;
        sp <- digits_to_spoken fl ;;
        matched FLIGHT_LEVEL (Str.join " " (slice tokens index (index + 2)))
                ("FL" ++ fl) ("flight level " ++ sp) 2 (9 # 10)
      else if Str.list_eqb (slice tokens index (index + 2)) ["flight"; "level"]
      then
        let nums := collect_all level_word (skipn (index + 2) tokens) in
        let j := (index + 2 + length nums)%nat in
        if (2 <=? length nums)%nat then
          digits <- mapM (fun w => if Str.isdigit w then Ret w
                                   else n <- subscript w NUMBER_WORDS ;;
                                        Ret (str_of_nat n)) nums ;;
          words <- mapM _norm_word nums ;;
          matched FLIGHT_LEVEL (Str.join " " (slice tokens index j))
                  ("FL" ++ Str.join "" digits)
                  ("flight level " ++ Str.join " " words)
                  (Z.of_nat j - Z.of_nat index) (90 # 100)
        else Ret None
      else Ret None
  end.

End FlightLevelFSM.

(* ------------------------------------------------------------------ *)
(** ** fsms/runway.py *)

Module RunwayFSM.
Import Chars Dictionary NumberUtils Entity.

Definition _RW_PREFIX : list string := ["runway"; "rwy"].

Definition is_side (c : ascii) : bool :=
  Str.mem (String c "") ["L"; "R"; "C"].

(** [_RW_CODE_RE.fullmatch]: [^\d{2}([LRC])?$]. *)
Definition _RW_CODE_RE (s : string) : bool :=
  match s with
  | String a (String b EmptyString) => re_d a && re_d b
  | String a (String b (String c EmptyString)) => re_d a && re_d b && is_side c
  | _ => false
  end.

(** [_RW_TIGHT_RE.fullmatch]: [^\d{2}[LRC]$]. *)
Definition _RW_TIGHT_RE (s : string) : bool :=
  match s with
  | String a (String b (String c EmptyString)) => re_d a && re_d b && is_side c
  | _ => false
  end.

Definition _DIR_WORD_TO_CODE : list (string * string) :=
  [ ("left", "L"); ("right", "R"); ("center", "C") ].

Definition _DIR_CODE_TO_WORD : list (string * string) :=
  [ ("L", "left"); ("R", "right"); ("C", "center") ].

(** [spoken = f"runway {digits_to_spoken(num)}"], then
    [if side: spoken += f" {_DIR_CODE_TO_WORD[side]}"]. *)
Definition spoken_with_side (num side : string) : outcome string :=
  sp <- digits_to_spoken num ;;
  if Str.nonempty side
  then w <- subscript side _DIR_CODE_TO_WORD ;; Ret ("runway " ++ sp ++ " " ++ w)
  else Ret ("runway " ++ sp).

Definition _match_after_prefix : FSM := fun tokens index =>
  if (length tokens <=? index + 1)%nat then Ret None else
  t1raw <- item tokens (index + 1) ;;
  let t1 := Str.upper t1raw in
  if _RW_CODE_RE t1 then
    let num := Str.take 2 t1 in
    let side := if (String.length t1 =? 3)%nat then Str.take 1 (Str.drop 2 t1)
                else "" in
    spoken <- spoken_with_side num side ;;
    matched RUNWAY (Str.join " " (slice tokens index (index + 2)))
            ("RWY " ++ num ++ side) spoken 2 (95 # 100)
  else
    let d1 := token_to_digit t1raw in
    d2 <- (if (index + 2 <? length tokens)%nat
           then t2 <- item tokens (index + 2) ;; Ret (token_to_digit t2)
           else Ret None) ;;
    match d1, d2 with
    | Some d1, Some d2 =>
        let num := d1 ++ d2 in
        let j := (index + 3)%nat in
        let has_side :=
          at_index tokens j
                   (fun t => Str.mem (Str.lower t) (List.map fst _DIR_WORD_TO_CODE)) in
        side <- (if has_side
                 then t <- item tokens j ;; subscript (Str.lower t) _DIR_WORD_TO_CODE
                 else Ret "") ;;
        let j := if has_side then (j + 1)%nat else j in
        spoken <- spoken_with_side num side ;;
        matched RUNWAY (Str.join " " (slice tokens index j))
                ("RWY " ++ num ++ side) spoken
                (Z.of_nat j - Z.of_nat index) (90 # 100)
    | _, _ => Ret None
    end.

Definition match_ : FSM := fun tokens index =>
  if (length tokens <=? index)%nat then Ret None else
  t0 <- item tokens index ;;
  if Str.mem (Str.lower t0) _RW_PREFIX then _match_after_prefix tokens index
  else
    let t := Str.upper t0 in
    if _RW_TIGHT_RE t then
      let num := Str.take 2 t in
      let side := Str.take 1 (Str.drop 2 t) in
      sp <- digits_to_spoken num ;;
      w <- subscript side _DIR_CODE_TO_WORD ;;
      matched RUNWAY t0 ("RWY " ++ num ++ side)
              ("runway " ++ sp ++ " " ++ w) 1 (75 # 100)
    else Ret None.

End RunwayFSM.

(* ------------------------------------------------------------------ *)
(** ** fsms/taxiway.py *)

Module TaxiwayFSM.
Import Chars Dictionary NumberUtils Entity.

Definition _TW_PREFIX : list string := ["taxiway"; "twy"; "tw"].

(** [_TW_CODE_RE.fullmatch]: [^[A-Z](\d{1,2})?$]. *)
Definition _TW_CODE_RE (s : string) : bool :=
  match s with
  | String a r =>
      is_AZ a && (String.length r <=? 2)%nat && Str.all re_d r
  | EmptyString => false
  end.

(** [ICAO_REVERSE.get(letter, letter)]. *)
Definition letter_word (letter : string) : string :=
  match Str.lookup letter ICAO_REVERSE with
  | Some w => w
  | None => letter
  end.

(** [spoken = f"taxiway {word}"], then, if [present] (the digit string, or
    the list of digits, is not empty),
    [spoken += f" {digits_to_spoken(digits)}"]. *)
Definition spoken_with_digits (word : string) (present : bool)
    (digits : string) : outcome string :=
  if present
  then sp <- digits_to_spoken digits ;; Ret ("taxiway " ++ word ++ " " ++ sp)
  else Ret ("taxiway " ++ word).

Definition match_ : FSM := fun tokens index =>
  if (length tokens <=? index)%nat then Ret None else
  t0 <- item tokens index ;;
  let has_prefix :=
    Str.mem (Str.lower t0) _TW_PREFIX && (index + 1 <? length tokens)%nat in
  let start := if has_prefix then (index + 1)%nat else index in
  if negb has_prefix then Ret None else
  ts <- item tokens start ;;
  let t := Str.upper ts in
  if _TW_CODE_RE t then
    let letter := Str.take 1 t in
    let digits := if (1 <? String.length t)%nat then Str.drop 1 t else "" in
    spoken <- spoken_with_digits (letter_word letter) (Str.nonempty digits)
                                 digits ;;
    matched TAXIWAY (Str.join " " (slice tokens index (start + 1)))
            ("TWY " ++ letter ++ digits) spoken
            (Z.of_nat start - Z.of_nat index + 1) (90 # 100)
  else
    let w0 := Str.lower ts in
    match Str.lookup w0 ICAO_ALPHABET with
    | Some letter =>
        let digs := collect token_to_digit 2 (skipn (start + 1) tokens) in
        let j := (start + 1 + length digs)%nat in
        spoken <- spoken_with_digits w0 (negb (length digs =? 0)%nat)
                                     (Str.join "" digs) ;;
        matched TAXIWAY (Str.join " " (slice tokens index j))
                ("TWY " ++ letter ++ Str.join "" digs) spoken
                (Z.of_nat j - Z.of_nat index) (90 # 100)
    | None => Ret None
    end.

End TaxiwayFSM.

(* ------------------------------------------------------------------ *)
(** ** fsms/qnh.py *)

Module QNHFSM.
Import Chars Dictionary NumberUtils Entity.

(** [_QNH_RE.fullmatch]: [^\d{4}$]. *)
Definition _QNH_RE (s : string) : bool :=
  (String.length s =? 4)%nat && Str.all re_d s.

Definition match_ : FSM := fun tokens index =>
  if (length tokens <=? index)%nat
     || negb (at_index tokens index (fun t => Str.lower t =? "qnh"))
  then Ret None else
  if at_index tokens (index + 1) _QNH_RE then
    v <- item tokens (index + 1) ;;
    sp <- digits_to_spoken v ;;
    matched QNH (Str.join " " (slice tokens index (index + 2)))
            ("QNH " ++ v) ("qnh " ++ sp) 2 (95 # 100)
  else
    let digs := collect token_to_digit 4 (skipn (index + 1) tokens) in
    let j := (index + 1 + length digs)%nat in
    if (length digs =? 4)%nat then
      let v := Str.join "" digs in
      sp <- digits_to_spoken v ;;
      matched QNH (Str.join " " (slice tokens index j))
              ("QNH " ++ v) ("qnh " ++ sp)
              (Z.of_nat j - Z.of_nat index) (90 # 100)
    else Ret None.

End QNHFSM.

(* ------------------------------------------------------------------ *)
(** ** fsms/heading.py *)

Module HeadingFSM.
Import Chars Dictionary NumberUtils Entity.

Definition _HDR_PREFIX : list string := ["heading"; "hdg"].

(** [_HDG_RE.fullmatch]: [^\d{1,3}$]. *)
Definition _HDG_RE (s : string) : bool :=
  (1 <=? String.length s)%nat && (String.length s <=? 3)%nat && Str.all re_d s.

Definition match_ : FSM := fun tokens index =>
  if (length tokens <=? index)%nat then Ret None else
  t0 <- item tokens index ;;
  if negb (Str.mem (Str.lower t0) _HDR_PREFIX) then Ret None else
  if at_index tokens (index + 1) _HDG_RE then
    t1 <- item tokens (index + 1) ;;
    let deg := Str.zfill 3 t1 in
    sp <- digits_to_spoken deg ;;
    matched HEADING (Str.join " " (slice tokens index (index + 2)))
            ("HDG " ++ deg) ("heading " ++ sp) 2 (95 # 100)
  else
    let digits := collect token_to_digit 3 (skipn (index + 1) tokens) in
    let j := (index + 1 + length digits)%nat in
    if (2 <=? length digits)%nat then
      let deg := Str.zfill 3 (Str.join "" digits) in
      sp <- digits_to_spoken deg ;;
      matched HEADING (Str.join " " (slice tokens index j))
              ("HDG " ++ deg) ("heading " ++ sp)
              (Z.of_nat j - Z.of_nat index) (90 # 100)
    else Ret None.

End HeadingFSM.

(* ------------------------------------------------------------------ *)
(** ** fsms/frequency.py *)

Module FrequencyFSM.
Import Chars Dictionary NumberUtils Entity.

Definition _PREFIX : list string := ["freq"; "frequency"; "contact"; "on"].

(** [_FREQ_RE.fullmatch]: [^\d{3}\.\d{1,3}$]. *)
Definition _FREQ_RE (s : string) : bool :=
  let major := Str.take 3 s in
  let minor := Str.drop 4 s in
  (String.length major =? 3)%nat && Str.all re_d major
  && (Str.take 1 (Str.drop 3 s) =? ".")
  && (1 <=? String.length minor)%nat && (String.length minor <=? 3)%nat
  && Str.all re_d minor.

Definition is_decimal_word (t : string) : bool :=
  Str.mem (Str.lower t) DECIMAL_WORDS.

Definition match_ : FSM := fun tokens index =>
  if (length tokens <=? index)%nat then Ret None else
  t0 <- item tokens index ;;
  let start :=
    if Str.mem (Str.lower t0) _PREFIX && (index + 1 <? length tokens)%nat
    then (index + 1)%nat else index in
  tok <- item tokens start ;;
  if _FREQ_RE tok then
    sp <- num_str_to_spoken tok ;;
    matched FREQUENCY (Str.join " " (slice tokens index (start + 1)))
            tok sp (Z.of_nat start - Z.of_nat index + 1) (95 # 100)
  else
    let major := collect token_to_digit 4 (skipn start tokens) in
    let j := (start + length major)%nat in
    if (2 <=? length major)%nat && at_index tokens j is_decimal_word then
      let j := (j + 1)%nat in
      let minor := collect token_to_digit 3 (skipn j tokens) in
      let j := (j + length minor)%nat in
      match minor with
      | _ :: _ =>
          let code := Str.join "" major ++ "." ++ Str.join "" minor in
          sp <- num_str_to_spoken code ;;
          matched FREQUENCY (Str.join " " (slice tokens index j))
                  code sp (Z.of_nat j - Z.of_nat index) (90 # 100)
      | [] => Ret None
      end
    else Ret None.

End FrequencyFSM.

(* ------------------------------------------------------------------ *)
(** ** fsms/value.py *)

Module ValueFSM.
Import Chars Dictionary NumberUtils Entity.

(** [_NUM_RE.fullmatch]: [^\d+(\.\d+)?$]. *)
Definition _NUM_RE (s : string) : bool :=
  let int := Str.take_while re_d s in
  let rest := Str.drop_while re_d s in
  Str.nonempty int
  && match rest with
     | EmptyString => true
     | String dot frac => (Chars.code dot =? 46)%N && Str.all1 re_d frac
     end.

Definition _UNIT : list (string * (string * string)) :=
  [ ("ft", ("ft", "feet")); ("feet", ("ft", "feet")); ("foot", ("ft", "feet"));
    ("kt", ("kt", "knots")); ("kts", ("kt", "knots"));
    ("knot", ("kt", "knots")); ("knots", ("kt", "knots"));
    ("deg", ("deg", "degrees")); ("degree", ("deg", "degrees"));
    ("degrees", ("deg", "degrees")) ].

Definition is_unit (t : string) : bool :=
  Str.mem (Str.lower t) (List.map fst _UNIT).

Definition match_ : FSM := fun tokens index =>
  if (length tokens <=? index)%nat then Ret None else
  if (index + 1 <? length tokens)%nat
     && at_index tokens index _NUM_RE
     && at_index tokens (index + 1) is_unit
  then
    num <- item tokens index ;;
    t1 <- item tokens (index + 1) ;;
    u <- subscript (Str.lower t1) _UNIT ;;
    sp <- num_str_to_spoken num ;;
    matched VALUE (Str.join " " (slice tokens index (index + 2)))
            (num ++ " " ++ fst u) (sp ++ " " ++ snd u) 2 (90 # 100)
  else
    let major := collect token_to_digit 6 (skipn index tokens) in
    let j := (index + length major)%nat in
    match major with
    | [] => Ret None
    | _ :: _ =>
        let has_dot := at_index tokens j FrequencyFSM.is_decimal_word in
        let frac := if has_dot
                    then collect token_to_digit 6 (skipn (j + 1) tokens)
                    else [] in
        let j := if has_dot then (j + 1 + length frac)%nat else j in
        if at_index tokens j is_unit then
          tj <- item tokens j ;;
          u <- subscript (Str.lower tj) _UNIT ;;
          let j := (j + 1)%nat in
          let num := Str.join "" major
                     ++ match frac with
                        | _ :: _ => "." ++ Str.join "" frac
                        | [] => ""
                        end in
          sp <- num_str_to_spoken num ;;
          matched VALUE (Str.join " " (slice tokens index j))
                  (num ++ " " ++ fst u) (sp ++ " " ++ snd u)
                  (Z.of_nat j - Z.of_nat index) (85 # 100)
        else Ret None
    end.

End ValueFSM.

(** ** fsms/__init__.py *)
Definition DEFAULT_FSMS : list FSM :=
  [ CallsignFSM.match_; FlightLevelFSM.match_; RunwayFSM.match_;
    TaxiwayFSM.match_; HeadingFSM.match_; FrequencyFSM.match_;
    QNHFSM.match_; ValueFSM.match_ ].

(* ------------------------------------------------------------------ *)
(** ** core/parser.py *)

Module Parser.
Import Entity.

(** One record of [logger.exception]: the index and [tokens[index:index+8]]. *)
Definition log_entry : Type := (nat * list string)%type.

(** [(res.step, res.confidence) > (best.step, best.confidence)]: tuples
    compare by their first unequal components. *)
Definition pair_gt (res best : Match.MatchResult) : bool :=
  if (Match.step res =? Match.step best)%Z
  then match (Match.confidence res ?= Match.confidence best)%Q with
       | Gt => true
       | _ => false
       end
  else (Match.step best <? Match.step res)%Z.

(** The body of [for fsm in self.fsms], from the state [(best, log)]. *)
Definition try_fsm (tokens : list string) (index : nat)
    (acc : option Match.MatchResult * list log_entry) (fsm : FSM)
    : option Match.MatchResult * list log_entry :=
  let (best, log) := acc in
  let (res, log) :=
    match fsm tokens index with
    | Raise _ => (None, log ++ [(index, slice tokens index (index + 8))])%list
    | Ret res => (res, log)
    end in
  match res with
  | None => (best, log)
  | Some r =>
      match best with
      | None => (Some r, log)
      | Some b => if pair_gt r b then (Some r, log) else (best, log)
      end
  end.

(** [_best_match] and the diagnostics it logged. *)
Definition _best_match_log (fsms : list FSM) (tokens : list string)
    (index : nat) : option Match.MatchResult * list log_entry :=
  fold_left (try_fsm tokens index) fsms (None, []).

Definition _best_match (fsms : list FSM) (tokens : list string)
    (index : nat) : option Match.MatchResult :=
  fst (_best_match_log fsms tokens index).

(** The state of the scan: the cursor [i], the pieces [out], and the log. *)
Record state : Type := mkState {
  cursor : nat;
  out : list string;
  log : list log_entry
}.

(** [max(1, best.step)] added to the cursor; it is at least 1. *)
Definition advance (i : nat) (step : Z) : nat :=
  (i + Z.to_nat (Z.max 1 step))%nat.

(** One round of [while i < len(tokens)], entered with the guard true. *)
Definition round (fsms : list FSM) (tokens : list string) (mode : RenderMode)
    (st : state) : outcome state :=
  let (best, lg) := _best_match_log fsms tokens (cursor st) in
  match best with
  | None =>
      tok <- item tokens (cursor st) ;;
      Ret (mkState (cursor st + 1) (out st ++ [tok]) (log st ++ lg))%list
  | Some b =>
      Ret (mkState (advance (cursor st) (Match.step b))
                   (out st ++ [render (Match.entity b) mode])
                   (log st ++ lg))%list
  end.

(** The loop; [None] when [fuel] rounds did not reach the end. *)
Fixpoint scan (fuel : nat) (fsms : list FSM) (tokens : list string)
    (mode : RenderMode) (st : state) : option (outcome state) :=
  if (length tokens <=? cursor st)%nat then Some (Ret st)
  else match fuel with
       | O => None
       | S fuel' =>
           match round fsms tokens mode st with
           | Raise e => Some (Raise e)
           | Ret st' => scan fuel' fsms tokens mode st'
           end
       end.

(** [Parser(fsms).parse(text, mode)] with the final state of the scan. *)
Definition parse_state (fsms : list FSM) (text : string) (mode : RenderMode)
    : option (outcome state) :=
  let normalized := Tokenizer.normalize text in
  let tokens := Tokenizer.tokenize normalized in
  scan (length tokens) fsms tokens mode (mkState 0 [] []).

(** [Parser(fsms).parse(text, mode)]: [None] if the loop ran out of rounds,
    [Some (Raise e)] if the call raised, [Some (Ret s)] if it returned [s]. *)
Definition parse (fsms : list FSM) (text : string) (mode : RenderMode)
    : option (outcome string) :=
  match parse_state fsms text mode with
  | None => None
  | Some (Raise e) => Some (Raise e)
  | Some (Ret st) => Some (Ret (Str.join " " (out st)))
  end.

End Parser.

(* ------------------------------------------------------------------ *)
(** ** Vocabulary of the properties *)

Module Shape.
Import Chars.

(** A letter run, lower-cased. *)
Definition word (t : string) : bool := Str.all1 is_az t.

(** A digit run, optionally followed by a decimal point and more digits. *)
Definition number (t : string) : bool := ValueFSM._NUM_RE t.

Definition has_letter (t : string) : bool := Str.any is_letter t.
Definition has_digit (t : string) : bool := Str.any re_d t.

(** A run with no letter and no digit. *)
Definition symbols (t : string) : bool :=
  Str.nonempty t && negb (has_letter t) && negb (has_digit t).

End Shape.

Module Order.

(** The lexicographic order on [(step, confidence)]. *)
Definition lex_lt (a b : Match.MatchResult) : Prop :=
  (Match.step a < Match.step b)%Z
  \/ (Match.step a = Match.step b
      /\ (Match.confidence a < Match.confidence b)%Q).

Definition lex_eq (a b : Match.MatchResult) : Prop :=
  Match.step a = Match.step b
  /\ (Match.confidence a == Match.confidence b)%Q.

Definition lex_le (a b : Match.MatchResult) : Prop := lex_lt a b \/ lex_eq a b.

End Order.

(** What one matcher contributes to the comparison at a position. *)
Definition returned_by (tokens : list string) (index : nat) (fsm : FSM)
    : list Match.MatchResult :=
  match fsm tokens index with
  | Ret (Some r) => [r]
  | _ => []
  end.

(** The matches returned at a position, in the order of the matcher list. *)
Definition returned (fsms : list FSM) (tokens : list string) (index : nat)
    : list Match.MatchResult :=
  flat_map (returned_by tokens index) fsms.

(** The matcher that returns no match wherever [fsm] raises, and is [fsm]
    elsewhere. *)
Definition silenced (fsm : FSM) : FSM := fun tokens index =>
  match fsm tokens index with
  | Raise _ => Ret None
  | Ret res => Ret res
  end.

(** What [_TOKEN_RE.findall] can emit: one of its three alternatives. *)
Definition raw_shape (t : string) : Prop :=
  Str.all1 Chars.is_letter t = true
  \/ Shape.number t = true
  \/ Str.all1 Tokenizer.is_symbol t = true.

(** [b] is the first greatest element of [seen]. *)
Definition first_max (best : option Match.MatchResult)
    (seen : list Match.MatchResult) : Prop :=
  match best with
  | None => seen = []
  | Some b =>
      exists pre post,
        seen = (pre ++ b :: post)%list
        /\ Forall (fun r => Order.lex_lt r b) pre
        /\ Forall (fun r => Order.lex_le r b) post
  end.

(** The comparison of [try_fsm] without the log. *)
Definition choose (tokens : list string) (index : nat)
    (best : option Match.MatchResult) (fsm : FSM) : option Match.MatchResult :=
  match fsm tokens index with
  | Ret (Some r) =>
      match best with
      | None => Some r
      | Some b => if Parser.pair_gt r b then Some r else best
      end
  | _ => best
  end.

(** Two states that agree but for the log. *)
Definition same_output (a b : Parser.state) : Prop :=
  Parser.cursor a = Parser.cursor b /\ Parser.out a = Parser.out b.

(** The bounds of a step at [index]. *)
Definition in_bounds (tokens : list string) (index : nat)
    (r : Match.MatchResult) : Prop :=
  (1 <= Match.step r <= Z.of_nat (length tokens) - Z.of_nat index)%Z.

(** Two matches the examples below refer to. *)
Definition frequency_spoken_match : Match.MatchResult :=
  Match.mkMatch
    (Entity.mkEntity Entity.FREQUENCY "contact one one eight point seven five"
                     "118.75" "one one eight decimal seven five"
                     (90 # 100) None)
    7 (90 # 100).

Definition runway_34L_tight : Match.MatchResult :=
  Match.mkMatch
    (Entity.mkEntity Entity.RUNWAY "34L" "RWY 34L" "runway three four left"
                     (75 # 100) None)
    1 (75 # 100).

Definition flight_level_5 : Match.MatchResult :=
  Match.mkMatch
    (Entity.mkEntity Entity.FLIGHT_LEVEL "fl 5" "FL5" "flight level five"
                     (9 # 10) None)
    2 (9 # 10).

(** ** Vocabulary of the further properties *)

Module Tidy.
Import Chars.

(** The first character is white space. *)
Definition head_ws (s : string) : bool :=
  match s with
  | String c _ => re_s c
  | EmptyString => false
  end.

(** Two white-space characters stand next to each other. *)
Fixpoint adjacent_ws (s : string) : bool :=
  match s with
  | String a r => (re_s a && head_ws r) || adjacent_ws r
  | EmptyString => false
  end.

(** A white-space character other than the plain space. *)
Definition odd_space (c : ascii) : bool :=
  re_s c && negb (code c =? 32)%N.

(** A character that [str.isdigit] accepts and [int] refuses. *)
Definition superscript (c : ascii) : bool :=
  isdigit_char c && negb (is_09 c).

(** A character a kept token must hold: a word character or the dot. *)
Definition word_or_dot (c : ascii) : bool :=
  re_w c || (code c =? 46)%N.

End Tidy.

(** A character that is not white space. *)
Definition not_ws (c : ascii) : bool := negb (Chars.re_s c).

(** The entity type each default matcher produces, in the order of
    [DEFAULT_FSMS]. *)
Definition DEFAULT_TYPES : list Entity.EntityType :=
  [ Entity.CALLSIGN; Entity.FLIGHT_LEVEL; Entity.RUNWAY; Entity.TAXIWAY;
    Entity.HEADING; Entity.FREQUENCY; Entity.QNH; Entity.VALUE ].

(** What every match of a default matcher satisfies, besides the bounds of
    its step. *)
Record sound_match (ty : Entity.EntityType) (tokens : list string)
    (index : nat) (r : Match.MatchResult) : Prop := {
  sound_type : Entity.type (Match.entity r) = ty;
  sound_conf :
    (Entity.confidence (Match.entity r) == Match.confidence r)%Q;
  sound_range : (75 # 100 <= Match.confidence r <= 1)%Q;
  sound_raw :
    Entity.raw (Match.entity r)
    = Str.join " " (slice tokens index (index + Z.to_nat (Match.step r)));
  sound_code : Str.nonempty (Entity.code (Match.entity r)) = true;
  sound_spoken : Str.nonempty (Entity.spoken (Match.entity r)) = true
}.

(** The matcher raises at this position. *)
Definition raises (tokens : list string) (index : nat) (fsm : FSM) : bool :=
  match fsm tokens index with
  | Raise _ => true
  | Ret _ => false
  end.

(* ------------------------------------------------------------------ *)
(** ** The model on the inputs of the test suite *)

Example tokenize_mixed :
  Tokenizer.tokenize (Tokenizer.normalize "  CSN6889,   contact: 118.75!  ")
  = ["csn"; "6889"; "contact"; "118.75"].
Proof. vm_compute. reflexivity. Qed.

Example tokenize_noise :
  Tokenizer.tokenize (Tokenizer.normalize "### @@ climb---to 12. 3.x ..")
  = ["climb"; "to"; "12"; "."; "3"; "."; "x"; ".."].
Proof. vm_compute. reflexivity. Qed.

Example token_to_digit_niner : NumberUtils.token_to_digit "Niner" = Some "9".
Proof. reflexivity. Qed.

Example digits_to_spoken_330 :
  NumberUtils.digits_to_spoken "330" = Ret "three three zero".
Proof. reflexivity. Qed.

Example num_str_to_spoken_11875 :
  NumberUtils.num_str_to_spoken "118.75"
  = Ret "one one eight decimal seven five".
Proof. reflexivity. Qed.

(** A superscript digit passes [isdigit] and fails [int]. *)
Example digits_to_spoken_raises :
  NumberUtils.digits_to_spoken (String (ascii_of_N 178) "")
  = Raise ValueError.
Proof. reflexivity. Qed.

(** The cases of tests/test_fsm_*.py that the code passes. *)
Example callsign_separated :
  CallsignFSM.match_ ["csn"; "six"; "eight"; "eight"; "nine"] 0
  = matched Entity.CALLSIGN "csn six eight eight nine" "CSN6889"
            "china southern 6 8 8 9" 5 (90 # 100).
Proof. reflexivity. Qed.

Example callsign_by_airline_name :
  CallsignFSM.match_ ["china"; "southern"; "six"; "eight"; "eight"; "nine"] 0
  = matched Entity.CALLSIGN "china southern six eight eight nine" "CSN6889"
            "china southern 6 8 8 9" 6 (85 # 100).
Proof. reflexivity. Qed.

Example callsign_no_match :
  CallsignFSM.match_ ["hello"; "world"] 0 = Ret None.
Proof. reflexivity. Qed.

Example flight_level_spoken :
  FlightLevelFSM.match_ ["flight"; "level"; "tree"; "3"; "oh"] 0
  = matched Entity.FLIGHT_LEVEL "flight level tree 3 oh" "FL330"
            "flight level three three zero" 5 (90 # 100).
Proof. reflexivity. Qed.

Example runway_spoken :
  RunwayFSM.match_ ["runway"; "three"; "four"; "left"] 0
  = matched Entity.RUNWAY "runway three four left" "RWY 34L"
            "runway three four left" 4 (90 # 100).
Proof. reflexivity. Qed.

Example runway_prefixed_code :
  RunwayFSM.match_ ["rwy"; "22R"] 0
  = matched Entity.RUNWAY "rwy 22R" "RWY 22R" "runway two two right"
            2 (95 # 100).
Proof. reflexivity. Qed.

Example taxiway_spoken :
  TaxiwayFSM.match_ ["taxiway"; "alpha"; "one"; "two"] 0
  = matched Entity.TAXIWAY "taxiway alpha one two" "TWY A12"
            "taxiway alpha one two" 4 (90 # 100).
Proof. reflexivity. Qed.

Example taxiway_requires_prefix :
  TaxiwayFSM.match_ ["mike"; "six"] 0 = Ret None.
Proof. reflexivity. Qed.

Example heading_padded :
  HeadingFSM.match_ ["hdg"; "90"] 0
  = matched Entity.HEADING "hdg 90" "HDG 090" "heading zero nine zero"
            2 (95 # 100).
Proof. reflexivity. Qed.

Example frequency_prefixed :
  FrequencyFSM.match_ ["contact"; "118.75"] 0
  = matched Entity.FREQUENCY "contact 118.75" "118.75"
            "one one eight decimal seven five" 2 (95 # 100).
Proof. reflexivity. Qed.

Example qnh_spoken :
  QNHFSM.match_ ["qnh"; "one"; "zero"; "one"; "three"] 0
  = matched Entity.QNH "qnh one zero one three" "QNH 1013"
            "qnh one zero one three" 5 (90 # 100).
Proof. reflexivity. Qed.

Example value_spoken :
  ValueFSM.match_ ["five"; "decimal"; "five"; "feet"] 0
  = matched Entity.VALUE "five decimal five feet" "5.5 ft"
            "five decimal five feet" 4 (85 # 100).
Proof. reflexivity. Qed.

Example value_missing_unit : ValueFSM.match_ ["5000"] 0 = Ret None.
Proof. reflexivity. Qed.

Example parse_first_scenario :
  Parser.parse DEFAULT_FSMS
    "CSN6889 climb to FL330 turn right heading 270 contact 118.75 QNH 1013"
    Entity.CODE
  = Some (Ret "CSN6889 climb to FL330 turn right HDG 270 118.75 QNH 1013").
Proof. vm_compute. reflexivity. Qed.

(** A matcher raising inside the model: a superscript digit passes
    [token_to_digit] and fails [int]. *)
Example heading_raises :
  HeadingFSM.match_ ["heading"; String (ascii_of_N 178) "";
                     String (ascii_of_N 178) ""] 0 = Raise ValueError.
Proof. reflexivity. Qed.

(* ------------------------------------------------------------------ *)
(** ** Characters and strings: basic facts *)

Ltac each_char c :=
  destruct c as [[] [] [] [] [] [] [] []]; vm_compute; try reflexivity;
  try discriminate; auto.

Lemma az_lower_of_letter c :
  Chars.is_letter c = true -> Chars.is_az (Chars.lower_char c) = true.
Proof. each_char c. Qed.

Lemma az_is_letter c : Chars.is_az c = true -> Chars.is_letter c = true.
Proof. each_char c. Qed.

Lemma letter_not_digit c : Chars.is_letter c = true -> Chars.re_d c = false.
Proof. each_char c. Qed.

Lemma symbol_not_letter c : Tokenizer.is_symbol c = true -> Chars.is_letter c = false.
Proof. each_char c. Qed.

Lemma symbol_not_digit c : Tokenizer.is_symbol c = true -> Chars.re_d c = false.
Proof. each_char c. Qed.

Lemma dot_not_digit c : (Chars.code c =? 46)%N = true -> Chars.re_d c = false.
Proof. each_char c. Qed.

Lemma digit_upper c : Chars.re_d c = true -> Chars.upper_char c = String c "".
Proof. each_char c. Qed.

Lemma digit_lower c : Chars.re_d c = true -> Chars.lower_char c = c.
Proof. each_char c. Qed.

Lemma take_while_all p s : Str.all p (Str.take_while p s) = true.
Proof.
  induction s as [|c r IH]; simpl; [reflexivity|].
  destruct (p c) eqn:E; simpl; [now rewrite E|reflexivity].
Qed.

Lemma take_drop_while p s : (Str.take_while p s ++ Str.drop_while p s)%string = s.
Proof.
  induction s as [|c r IH]; simpl; [reflexivity|].
  destruct (p c); simpl; [now rewrite IH|reflexivity].
Qed.

Lemma take_while_app_stop p a c r :
  Str.all p a = true -> p c = false ->
  Str.take_while p (a ++ String c r) = a
  /\ Str.drop_while p (a ++ String c r) = String c r.
Proof.
  intros Ha Hc. induction a as [|x a IH]; simpl in *.
  - now rewrite Hc.
  - apply andb_true_iff in Ha as [Hx Ha]. rewrite Hx.
    destruct (IH Ha) as [-> ->]. auto.
Qed.

Lemma take_while_self p a :
  Str.all p a = true ->
  Str.take_while p a = a /\ Str.drop_while p a = "".
Proof.
  intros Ha. induction a as [|x a IH]; simpl in *; [auto|].
  apply andb_true_iff in Ha as [Hx Ha]. rewrite Hx.
  destruct (IH Ha) as [-> ->]. auto.
Qed.

Lemma all_app p a b :
  Str.all p (a ++ b) = Str.all p a && Str.all p b.
Proof.
  induction a as [|x a IH]; simpl; [reflexivity|].
  now rewrite IH, andb_assoc.
Qed.

Lemma all_impl (p q : ascii -> bool) s :
  (forall c, p c = true -> q c = true) ->
  Str.all p s = true -> Str.all q s = true.
Proof.
  intros Hpq. induction s as [|c r IH]; simpl; [auto|].
  intros H. apply andb_true_iff in H as [Hc Hr].
  now rewrite (Hpq _ Hc), IH.
Qed.

Lemma any_false_of_all (p q : ascii -> bool) s :
  (forall c, p c = true -> q c = false) ->
  Str.all p s = true -> Str.any q s = false.
Proof.
  intros Hpq. induction s as [|c r IH]; simpl; [auto|].
  intros H. apply andb_true_iff in H as [Hc Hr].
  now rewrite (Hpq _ Hc), IH.
Qed.

Lemma all_map_lower s :
  Str.all Chars.is_letter s = true -> Str.all Chars.is_az (Str.lower s) = true.
Proof.
  unfold Str.lower. induction s as [|c r IH]; simpl; [auto|].
  intros H. apply andb_true_iff in H as [Hc Hr].
  now rewrite (az_lower_of_letter _ Hc), IH.
Qed.

Lemma nonempty_lower s : Str.nonempty (Str.lower s) = Str.nonempty s.
Proof. now destruct s. Qed.

(* ------------------------------------------------------------------ *)
(** ** The tokenizer *)

Lemma number_int_only s c r :
  s = String c r -> Chars.re_d c = true ->
  Shape.number (Str.take_while Chars.re_d s) = true.
Proof.
  intros -> Hc. unfold Shape.number, ValueFSM._NUM_RE.
  destruct (take_while_self Chars.re_d (Str.take_while Chars.re_d (String c r))
              (take_while_all _ _)) as [-> ->].
  simpl. now rewrite Hc.
Qed.

Lemma number_int_frac s c r dot after :
  s = String c r -> Chars.re_d c = true ->
  (Chars.code dot =? 46)%N = true ->
  Str.nonempty (Str.take_while Chars.re_d after) = true ->
  Shape.number (Str.take_while Chars.re_d s
                ++ String dot (Str.take_while Chars.re_d after)) = true.
Proof.
  intros -> Hc Hdot Hfrac. unfold Shape.number, ValueFSM._NUM_RE.
  destruct (take_while_app_stop Chars.re_d
              (Str.take_while Chars.re_d (String c r)) dot
              (Str.take_while Chars.re_d after)
              (take_while_all _ _) (dot_not_digit _ Hdot)) as [-> ->].
  rewrite Hdot. unfold Str.all1. rewrite Hfrac, take_while_all.
  simpl. now rewrite Hc.
Qed.

Lemma findall_fuel_shape fuel : forall s t,
  In t (Tokenizer.findall_fuel fuel s) -> raw_shape t.
Proof.
  induction fuel as [|fuel IH]; intros s t; simpl; [tauto|].
  destruct s as [|c r]; [simpl; tauto|].
  destruct (Chars.is_letter c) eqn:Hl.
  { intros [<-|H]; [|eauto]. left. unfold Str.all1.
    rewrite take_while_all. simpl. now rewrite Hl. }
  destruct (Chars.re_d c) eqn:Hd.
  { destruct (Str.drop_while Chars.re_d (String c r)) as [|dot after] eqn:Hrest.
    - intros [<-|[]]. right; left. now apply (number_int_only _ c r).
    - destruct ((Chars.code dot =? 46)%N
                && Str.nonempty (Str.take_while Chars.re_d after)) eqn:Hfrac.
      + apply andb_true_iff in Hfrac as [Hdot Hfrac].
        intros [<-|H]; [|eauto]. right; left.
        now apply (number_int_frac _ c r).
      + intros [<-|H]; [|eauto]. right; left.
        now apply (number_int_only _ c r). }
  destruct (Chars.re_s c) eqn:Hs; [eauto|].
  intros [<-|H]; [|eauto]. right; right. unfold Str.all1.
  rewrite take_while_all. simpl. unfold Tokenizer.is_symbol at 1.
  now rewrite Hs, Hl, Hd.
Qed.

(** Every character of a number is a digit or the decimal point. *)
Lemma number_chars t :
  Shape.number t = true ->
  Str.all (fun c => Chars.re_d c || (Chars.code c =? 46)%N) t = true.
Proof.
  unfold Shape.number, ValueFSM._NUM_RE. intros H.
  apply andb_true_iff in H as [_ H].
  rewrite <- (take_drop_while Chars.re_d t), all_app.
  apply andb_true_iff; split.
  - apply (all_impl Chars.re_d); [|apply take_while_all].
    intros c ->. reflexivity.
  - destruct (Str.drop_while Chars.re_d t) as [|dot frac]; [reflexivity|].
    apply andb_true_iff in H as [Hdot Hfrac]. simpl. rewrite Hdot, orb_true_r.
    apply andb_true_iff in Hfrac as [_ Hfrac].
    apply (all_impl Chars.re_d); [|exact Hfrac]. intros c ->. reflexivity.
Qed.

Lemma tokenize_from_findall text t :
  In t (Tokenizer.tokenize text) ->
  exists raw, raw_shape raw
    /\ t = if Str.all1 Chars.is_letter raw then Str.lower raw else raw.
Proof.
  unfold Tokenizer.tokenize. intros H.
  apply filter_In in H as [H _]. apply in_map_iff in H as [raw [<- H]].
  exists raw. split; [|reflexivity].
  exact (findall_fuel_shape _ _ _ H).
Qed.

Lemma number_char_not_letter c :
  Chars.re_d c || (Chars.code c =? 46)%N = true -> Chars.is_letter c = false.
Proof. each_char c. Qed.

Lemma tokenize_shape text t :
  In t (Tokenizer.tokenize text) ->
  Shape.word t = true
  \/ (Shape.number t = true /\ Shape.has_letter t = false)
  \/ Shape.symbols t = true.
Proof.
  intros H. destruct (tokenize_from_findall _ _ H) as [raw [Hraw ->]].
  destruct (Str.all1 Chars.is_letter raw) eqn:Hl.
  - left. unfold Shape.word, Str.all1 in *.
    apply andb_true_iff in Hl as [Hne Hall].
    now rewrite nonempty_lower, Hne, all_map_lower.
  - destruct Hraw as [Hw|[Hn|Hs]]; [congruence| |].
    + right; left. split; [exact Hn|].
      exact (any_false_of_all _ _ _ number_char_not_letter (number_chars _ Hn)).
    + right; right. unfold Shape.symbols, Shape.has_letter, Shape.has_digit.
      apply andb_true_iff in Hs as [Hne Hs]. rewrite Hne.
      rewrite (any_false_of_all _ _ _ symbol_not_letter Hs).
      now rewrite (any_false_of_all _ _ _ symbol_not_digit Hs).
Qed.

Lemma tokenize_unmixed text t :
  In t (Tokenizer.tokenize text) ->
  Shape.has_letter t && Shape.has_digit t = false.
Proof.
  intros H. destruct (tokenize_shape _ _ H) as [Hw|[[_ Hn]|Hs]].
  - apply andb_false_iff. right. apply andb_true_iff in Hw as [_ Hw].
    apply (any_false_of_all _ _ _ (fun c Hc => letter_not_digit c (az_is_letter c Hc)) Hw).
  - now rewrite Hn.
  - unfold Shape.symbols in Hs. apply andb_true_iff in Hs as [Hs _].
    apply andb_true_iff in Hs as [_ Hs]. apply negb_true_iff in Hs.
    now rewrite Hs.
Qed.

(** C10.  Every token the tokenizer produces is a lower-cased letter run,
    a digit run with an optional decimal point and more digits, or a run
    with no letter and no digit; so no token holds both a letter and a
    digit, and the one-token forms "CSN6889", "FL330" and "34L" (in either
    case) are never among the tokens that parse hands to the matchers. *)
Theorem tokens_never_mix_letters_and_digits :
  forall text t,
    In t (Tokenizer.tokenize text) ->
    (Shape.word t = true \/ Shape.number t = true \/ Shape.symbols t = true)
    /\ Shape.has_letter t && Shape.has_digit t = false
    /\ ~ In t ["CSN6889"; "csn6889"; "FL330"; "fl330"; "34L"; "34l"].
Proof.
  intros text t H. split; [|split].
  - destruct (tokenize_shape _ _ H) as [Hw|[[Hn _]|Hs]]; auto.
  - exact (tokenize_unmixed _ _ H).
  - intros Hin. pose proof (tokenize_unmixed _ _ H) as Hmix.
    simpl in Hin.
    repeat (destruct Hin as [<-|Hin]; [vm_compute in Hmix; discriminate|]).
    exact Hin.
Qed.

Lemma tokens_never_mix_letters_and_digits_witness :
  In "fl" (Tokenizer.tokenize (Tokenizer.normalize "climb FL330"))
  /\ (Shape.word "fl" = true \/ Shape.number "fl" = true
      \/ Shape.symbols "fl" = true)
  /\ Shape.has_letter "fl" && Shape.has_digit "fl" = false
  /\ ~ In "fl" ["CSN6889"; "csn6889"; "FL330"; "fl330"; "34L"; "34l"].
Proof.
  split.
  - vm_compute. right; left; reflexivity.
  - apply (tokens_never_mix_letters_and_digits
             (Tokenizer.normalize "climb FL330") "fl").
    vm_compute. right; left; reflexivity.
Defined.

(** The rounds given to [findall] suffice: more fuel changes nothing. *)
Lemma drop_while_length p s : String.length (Str.drop_while p s) <= String.length s.
Proof.
  induction s as [|c r IH]; simpl; [lia|].
  destruct (p c); simpl; lia.
Qed.

Lemma findall_fuel_enough fuel : forall s fuel',
  String.length s <= fuel -> String.length s <= fuel' ->
  Tokenizer.findall_fuel fuel s = Tokenizer.findall_fuel fuel' s.
Proof.
  induction fuel as [|fuel IH]; intros s fuel' H H'.
  - destruct s; [|simpl in H; lia]. now destruct fuel'.
  - destruct s as [|c r]; [now destruct fuel'|].
    destruct fuel' as [|fuel']; [simpl in H'; lia|].
    simpl in H, H'. cbn [Tokenizer.findall_fuel].
    pose proof (drop_while_length Chars.is_letter r) as L1.
    pose proof (drop_while_length Chars.re_d r) as L2.
    pose proof (drop_while_length Tokenizer.is_symbol r) as L3.
    destruct (Chars.is_letter c) eqn:Hl.
    { f_equal. simpl. rewrite Hl. apply IH; lia. }
    destruct (Chars.re_d c) eqn:Hd.
    { simpl Str.drop_while. rewrite Hd.
      destruct (Str.drop_while Chars.re_d r) as [|dot after] eqn:Hrest;
        [reflexivity|].
      pose proof (drop_while_length Chars.re_d after) as L4. simpl in L2.
      destruct ((Chars.code dot =? 46)%N
                && Str.nonempty (Str.take_while Chars.re_d after));
        f_equal; apply IH; simpl; lia. }
    destruct (Chars.re_s c) eqn:Hs; [apply IH; lia|].
    assert (Hsym : Tokenizer.is_symbol c = true)
      by (unfold Tokenizer.is_symbol; now rewrite Hs, Hl, Hd).
    f_equal. simpl. rewrite Hsym. apply IH; lia.
Qed.

(* ------------------------------------------------------------------ *)
(** ** The driver: choice of the best match *)

Import Order.

Lemma pair_gt_true r b : Parser.pair_gt r b = true -> lex_lt b r.
Proof.
  unfold Parser.pair_gt, lex_lt.
  destruct (Z.eqb_spec (Match.step r) (Match.step b)) as [E|E].
  - destruct (Match.confidence r ?= Match.confidence b)%Q eqn:C;
      try discriminate.
    intros _. right. split; [congruence|]. now apply Qgt_alt.
  - intros H. apply Z.ltb_lt in H. now left.
Qed.

Lemma pair_gt_false r b : Parser.pair_gt r b = false -> lex_le r b.
Proof.
  unfold Parser.pair_gt, lex_le, lex_lt, lex_eq.
  destruct (Z.eqb_spec (Match.step r) (Match.step b)) as [E|E].
  - destruct (Match.confidence r ?= Match.confidence b)%Q eqn:C;
      try discriminate; intros _.
    + right. split; [exact E|]. now apply Qeq_alt.
    + left. right. split; [exact E|]. now apply Qlt_alt.
  - intros H. apply Z.ltb_ge in H. left. left. lia.
Qed.

Lemma lex_lt_trans a b c : lex_lt a b -> lex_lt b c -> lex_lt a c.
Proof.
  unfold lex_lt. intros [H1|[E1 H1]] [H2|[E2 H2]].
  - left. lia.
  - left. lia.
  - left. lia.
  - right. split; [congruence|]. eapply Qlt_trans; eassumption.
Qed.

Lemma lex_le_lt_trans a b c : lex_le a b -> lex_lt b c -> lex_lt a c.
Proof.
  intros [H|[E1 H1]] H2; [eapply lex_lt_trans; eassumption|].
  destruct H2 as [H2|[E2 H2]].
  - left. lia.
  - right. split; [congruence|]. now rewrite H1.
Qed.

Lemma lex_le_step a b : lex_le a b -> (Match.step a <= Match.step b)%Z.
Proof. intros [[H|[E _]]|[E _]]; lia. Qed.

Lemma lex_le_conf a b :
  lex_le a b -> Match.step a = Match.step b ->
  (Match.confidence a <= Match.confidence b)%Q.
Proof.
  intros [[H|[_ H]]|[_ H]] E.
  - lia.
  - now apply Qlt_le_weak.
  - rewrite H. apply Qle_refl.
Qed.

Lemma try_fsm_choose tokens index best log fsm :
  fst (Parser.try_fsm tokens index (best, log) fsm)
  = choose tokens index best fsm.
Proof.
  unfold Parser.try_fsm, choose.
  destruct (fsm tokens index) as [e|[r|]]; simpl; try reflexivity.
  destruct best as [b|]; [|reflexivity]. now destruct (Parser.pair_gt r b).
Qed.

Lemma best_match_fold fsms tokens index : forall best log,
  fst (fold_left (Parser.try_fsm tokens index) fsms (best, log))
  = fold_left (choose tokens index) fsms best.
Proof.
  induction fsms as [|f fsms IH]; intros best log; cbn [fold_left];
    [reflexivity|].
  rewrite <- (try_fsm_choose tokens index best log f).
  destruct (Parser.try_fsm tokens index (best, log) f) as [b' l'].
  apply IH.
Qed.

Lemma choose_first_max tokens index best seen fsm :
  first_max best seen ->
  first_max (choose tokens index best fsm)
            (seen ++ returned_by tokens index fsm).
Proof.
  unfold choose, returned_by. intros H.
  destruct (fsm tokens index) as [e|[r|]];
    try (rewrite app_nil_r; exact H).
  destruct best as [b|]; simpl in *.
  - destruct H as (pre & post & -> & Hpre & Hpost).
    destruct (Parser.pair_gt r b) eqn:G.
    + apply pair_gt_true in G.
      exists (pre ++ b :: post)%list, []. split; [reflexivity|].
      split; [|constructor].
      apply Forall_app; split.
      * eapply Forall_impl; [|exact Hpre].
        intros a Ha. exact (lex_lt_trans _ _ _ Ha G).
      * constructor; [exact G|].
        eapply Forall_impl; [|exact Hpost].
        intros a Ha. exact (lex_le_lt_trans _ _ _ Ha G).
    + apply pair_gt_false in G.
      exists pre, (post ++ [r])%list. split; [now rewrite <- app_assoc|].
      split; [exact Hpre|]. apply Forall_app; split; [exact Hpost|].
      now constructor.
  - subst seen. exists [], []. repeat split; constructor.
Qed.

Lemma fold_first_max tokens index fsms : forall best seen,
  first_max best seen ->
  first_max (fold_left (choose tokens index) fsms best)
            (seen ++ returned fsms tokens index).
Proof.
  induction fsms as [|f fsms IH]; intros best seen H; simpl.
  - now rewrite app_nil_r.
  - unfold returned. simpl. rewrite app_assoc. apply IH.
    now apply choose_first_max.
Qed.

Lemma best_match_first_max fsms tokens index :
  first_max (Parser._best_match fsms tokens index)
            (returned fsms tokens index).
Proof.
  unfold Parser._best_match, Parser._best_match_log.
  rewrite best_match_fold.
  exact (fold_first_max tokens index fsms None [] eq_refl).
Qed.

(** C2.  At a token index the driver keeps, of the matches the matchers
    return, one that is greatest for the lexicographic order on
    (step, confidence): no returned match has a larger step, none of equal
    step has a larger confidence, and every match returned by an earlier
    matcher is strictly smaller, so of several greatest matches the first
    in matcher order is kept.  It keeps nothing only if nothing matched. *)
Theorem best_match_is_first_lex_max :
  forall fsms tokens index,
    match Parser._best_match fsms tokens index with
    | None => returned fsms tokens index = []
    | Some b =>
        (exists pre post,
            returned fsms tokens index = (pre ++ b :: post)%list
            /\ Forall (fun r => lex_lt r b) pre
            /\ Forall (fun r => lex_le r b) post)
        /\ (forall r, In r (returned fsms tokens index) ->
              (Match.step r <= Match.step b)%Z)
        /\ (forall r, In r (returned fsms tokens index) ->
              Match.step r = Match.step b ->
              (Match.confidence r <= Match.confidence b)%Q)
    end.
Proof.
  intros fsms tokens index.
  pose proof (best_match_first_max fsms tokens index) as H.
  destruct (Parser._best_match fsms tokens index) as [b|]; [|exact H].
  simpl in H. split; [exact H|].
  destruct H as (pre & post & -> & Hpre & Hpost).
  assert (Hall : forall r, In r (pre ++ b :: post)%list -> lex_le r b).
  { intros r Hr. apply in_app_or in Hr as [Hr|[<-|Hr]].
    - left. exact (proj1 (Forall_forall _ _) Hpre _ Hr).
    - right. split; [reflexivity|apply Qeq_refl].
    - exact (proj1 (Forall_forall _ _) Hpost _ Hr). }
  split; intros r Hr.
  - apply lex_le_step. auto.
  - intros E. apply lex_le_conf; auto.
Qed.

(* ------------------------------------------------------------------ *)
(** ** The driver: the scan loop *)

Lemma best_match_log_fst fsms tokens index :
  fst (Parser._best_match_log fsms tokens index)
  = Parser._best_match fsms tokens index.
Proof. reflexivity. Qed.

Lemma advance_exact i step :
  Z.of_nat (Parser.advance i step) = (Z.of_nat i + Z.max 1 step)%Z.
Proof. unfold Parser.advance. lia. Qed.

(** One round from a cursor inside the token list. *)
Lemma round_spec fsms tokens mode st tok :
  nth_error tokens (Parser.cursor st) = Some tok ->
  exists lg,
    Parser.round fsms tokens mode st
    = Ret match Parser._best_match fsms tokens (Parser.cursor st) with
          | None =>
              Parser.mkState (Parser.cursor st + 1)
                             (Parser.out st ++ [tok])
                             (Parser.log st ++ lg)
          | Some b =>
              Parser.mkState (Parser.advance (Parser.cursor st) (Match.step b))
                             (Parser.out st
                              ++ [Entity.render (Match.entity b) mode])
                             (Parser.log st ++ lg)
          end%list.
Proof.
  intros Htok. unfold Parser.round.
  rewrite <- best_match_log_fst.
  destruct (Parser._best_match_log fsms tokens (Parser.cursor st)) as [best lg].
  exists lg. simpl. destruct best as [b|]; [reflexivity|].
  unfold item. now rewrite Htok.
Qed.

Lemma round_advances fsms tokens mode st :
  Parser.cursor st < length tokens ->
  exists st',
    Parser.round fsms tokens mode st = Ret st'
    /\ Parser.cursor st < Parser.cursor st'.
Proof.
  intros Hlt.
  destruct (nth_error tokens (Parser.cursor st)) as [tok|] eqn:Htok;
    [|apply nth_error_None in Htok; lia].
  destruct (round_spec fsms tokens mode st tok Htok) as [lg ->].
  eexists; split; [reflexivity|].
  destruct (Parser._best_match fsms tokens (Parser.cursor st)); simpl.
  - unfold Parser.advance. lia.
  - lia.
Qed.

Lemma scan_reaches_end fsms tokens mode fuel : forall st,
  length tokens - Parser.cursor st <= fuel ->
  exists st',
    Parser.scan fuel fsms tokens mode st = Some (Ret st')
    /\ length tokens <= Parser.cursor st'.
Proof.
  induction fuel as [|fuel IH]; intros st Hfuel.
  - exists st. simpl.
    destruct (Nat.leb_spec (length tokens) (Parser.cursor st)); [auto|lia].
  - simpl.
    destruct (Nat.leb_spec (length tokens) (Parser.cursor st)) as [Hge|Hlt];
      [exists st; auto|].
    destruct (round_advances fsms tokens mode st Hlt) as (st1 & -> & Hadv).
    apply IH. lia.
Qed.

Lemma parse_returns fsms text mode :
  exists s, Parser.parse fsms text mode = Some (Ret s).
Proof.
  unfold Parser.parse, Parser.parse_state.
  set (tokens := Tokenizer.tokenize (Tokenizer.normalize text)).
  destruct (scan_reaches_end fsms tokens mode (length tokens)
              (Parser.mkState 0 [] [])) as (st & -> & _); [simpl; lia|].
  eexists. reflexivity.
Qed.

(** C6.  The scan loop terminates for every token sequence and matcher
    list.  A round entered with the cursor inside the token list returns a
    state with a strictly larger cursor: with no match the raw token is
    appended and the cursor grows by exactly 1, with a match [b] the
    rendered entity is appended and the cursor grows by [max(1, b.step)].
    Hence [len(tokens) - cursor] rounds reach the end of the tokens. *)
Theorem scan_loop_terminates :
  forall fsms tokens mode st,
    (forall tok,
        nth_error tokens (Parser.cursor st) = Some tok ->
        exists st',
          Parser.round fsms tokens mode st = Ret st'
          /\ Parser.cursor st < Parser.cursor st'
          /\ match Parser._best_match fsms tokens (Parser.cursor st) with
             | None =>
                 Parser.cursor st' = Parser.cursor st + 1
                 /\ Parser.out st' = (Parser.out st ++ [tok])%list
             | Some b =>
                 Z.of_nat (Parser.cursor st')
                 = (Z.of_nat (Parser.cursor st) + Z.max 1 (Match.step b))%Z
                 /\ Parser.out st'
                    = (Parser.out st
                       ++ [Entity.render (Match.entity b) mode])%list
             end)
    /\ (forall fuel,
          length tokens - Parser.cursor st <= fuel ->
          exists st',
            Parser.scan fuel fsms tokens mode st = Some (Ret st')
            /\ length tokens <= Parser.cursor st').
Proof.
  intros fsms tokens mode st. split.
  - intros tok Htok.
    destruct (round_spec fsms tokens mode st tok Htok) as [lg ->].
    eexists; split; [reflexivity|].
    destruct (Parser._best_match fsms tokens (Parser.cursor st)) as [b|];
      simpl.
    + split; [unfold Parser.advance; lia|].
      split; [apply advance_exact|reflexivity].
    + split; [lia|]. split; reflexivity.
  - intros fuel. apply scan_reaches_end.
Qed.

Lemma scan_loop_terminates_witness :
  nth_error ["qnh"; "1013"; "now"] 0 = Some "qnh"
  /\ 3 - 0 <= 3
  /\ (exists st',
        Parser.round DEFAULT_FSMS ["qnh"; "1013"; "now"] Entity.CODE
                     (Parser.mkState 0 [] []) = Ret st'
        /\ 0 < Parser.cursor st')
  /\ (exists st',
        Parser.scan 3 DEFAULT_FSMS ["qnh"; "1013"; "now"] Entity.CODE
                    (Parser.mkState 0 [] []) = Some (Ret st')
        /\ 3 <= Parser.cursor st').
Proof.
  split; [reflexivity|]. split; [simpl; lia|].
  destruct (scan_loop_terminates DEFAULT_FSMS ["qnh"; "1013"; "now"]
              Entity.CODE (Parser.mkState 0 [] [])) as [Hround Hscan].
  split.
  - destruct (Hround "qnh" eq_refl) as (st' & Hst & Hlt & _).
    exists st'. split; assumption.
  - apply (Hscan 3). simpl; lia.
Defined.

(** C1.  [parse] is total: for every matcher list, text and mode it
    returns a string, neither raising nor running on; in particular on the
    empty text, on a text of symbols only, and on a text that is empty
    once normalised, where the default matchers give the empty string. *)
Theorem parse_total :
  (forall fsms text mode, exists s, Parser.parse fsms text mode = Some (Ret s))
  /\ (forall mode, Parser.parse DEFAULT_FSMS "" mode = Some (Ret ""))
  /\ (forall mode, Parser.parse DEFAULT_FSMS "### @@ ???" mode = Some (Ret ""))
  /\ (forall mode, Parser.parse DEFAULT_FSMS "  ,;: ()  " mode = Some (Ret "")).
Proof.
  split; [exact parse_returns|].
  repeat split; intros []; vm_compute; reflexivity.
Qed.

(* ------------------------------------------------------------------ *)
(** ** The driver: a matcher that raises *)

Lemma choose_silenced tokens index best fsm :
  choose tokens index best (silenced fsm) = choose tokens index best fsm.
Proof.
  unfold choose, silenced. now destruct (fsm tokens index) as [e|[r|]].
Qed.

Lemma best_match_silenced pre fsm post tokens index :
  Parser._best_match (pre ++ silenced fsm :: post) tokens index
  = Parser._best_match (pre ++ fsm :: post) tokens index.
Proof.
  unfold Parser._best_match, Parser._best_match_log.
  rewrite !best_match_fold, !fold_left_app. simpl.
  now rewrite choose_silenced.
Qed.

Lemma scan_same_output fsms fsms' tokens mode :
  (forall index, Parser._best_match fsms tokens index
                 = Parser._best_match fsms' tokens index) ->
  forall fuel a b,
    same_output a b ->
    match Parser.scan fuel fsms tokens mode a,
          Parser.scan fuel fsms' tokens mode b with
    | Some (Ret a'), Some (Ret b') => same_output a' b'
    | Some (Raise e), Some (Raise e') => e = e'
    | None, None => True
    | _, _ => False
    end.
Proof.
  intros Hbest. induction fuel as [|fuel IH]; intros a b [Hc Ho]; simpl;
    rewrite <- Hc;
    destruct (Nat.leb_spec (length tokens) (Parser.cursor a)) as [Hge|Hlt].
  - split; assumption.
  - exact I.
  - split; assumption.
  - destruct (nth_error tokens (Parser.cursor a)) as [tok|] eqn:Htok;
      [|apply nth_error_None in Htok; lia].
    destruct (round_spec fsms tokens mode a tok Htok) as [lg ->].
    assert (Htok' : nth_error tokens (Parser.cursor b) = Some tok)
      by now rewrite <- Hc.
    destruct (round_spec fsms' tokens mode b tok Htok') as [lg' ->].
    apply IH. rewrite <- Hc, <- Ho, <- Hbest.
    destruct (Parser._best_match fsms tokens (Parser.cursor a));
      split; reflexivity.
Qed.

(** C7.  A matcher that raises at a position counts as returning no match
    there, and its exception does not reach the caller: [parse] returns a
    string, the same string as with that matcher replaced by the one that
    returns no match wherever it raises. *)
Theorem faulty_matcher_counts_as_no_match :
  forall pre fsm post text mode,
    (exists s, Parser.parse (pre ++ fsm :: post) text mode = Some (Ret s))
    /\ Parser.parse (pre ++ fsm :: post) text mode
       = Parser.parse (pre ++ silenced fsm :: post) text mode
    /\ (forall tokens index e,
          fsm tokens index = Raise e ->
          Parser._best_match (pre ++ fsm :: post) tokens index
          = Parser._best_match (pre ++ post) tokens index).
Proof.
  intros pre fsm post text mode. split; [apply parse_returns|]. split.
  - unfold Parser.parse, Parser.parse_state.
    set (tokens := Tokenizer.tokenize (Tokenizer.normalize text)).
    pose proof (scan_same_output (pre ++ fsm :: post)
                  (pre ++ silenced fsm :: post) tokens mode
                  (fun i => eq_sym (best_match_silenced pre fsm post tokens i))
                  (length tokens) (Parser.mkState 0 [] [])
                  (Parser.mkState 0 [] []) (conj eq_refl eq_refl)) as H.
    destruct (Parser.scan (length tokens) (pre ++ fsm :: post) tokens mode _)
      as [[e|a]|];
      destruct (Parser.scan (length tokens) (pre ++ silenced fsm :: post)
                            tokens mode _) as [[e'|b]|];
      try contradiction; try reflexivity.
    + now subst.
    + destruct H as [_ ->]. reflexivity.
  - intros tokens index e He.
    unfold Parser._best_match, Parser._best_match_log.
    rewrite !best_match_fold, !fold_left_app. simpl.
    unfold choose at 2. now rewrite He.
Qed.

Lemma faulty_matcher_counts_as_no_match_witness :
  HeadingFSM.match_ ["heading"; String (ascii_of_N 178) "";
                     String (ascii_of_N 178) ""] 0 = Raise ValueError
  /\ Parser._best_match ([] ++ HeadingFSM.match_ :: [QNHFSM.match_])
       ["heading"; String (ascii_of_N 178) ""; String (ascii_of_N 178) ""] 0
     = Parser._best_match ([] ++ [QNHFSM.match_])
       ["heading"; String (ascii_of_N 178) ""; String (ascii_of_N 178) ""] 0.
Proof.
  split; [reflexivity|].
  apply (proj2 (proj2 (faulty_matcher_counts_as_no_match
                         [] HeadingFSM.match_ [QNHFSM.match_] "" Entity.CODE))
           _ 0 ValueError).
  reflexivity.
Defined.

(* ------------------------------------------------------------------ *)
(** ** The matchers: how many tokens a match consumes *)

Lemma collect_length conv cap : forall toks,
  length (collect conv cap toks) <= length toks
  /\ length (collect conv cap toks) <= cap.
Proof.
  induction cap as [|cap IH]; intros toks; simpl; [lia|].
  destruct toks as [|t rest]; simpl; [lia|].
  destruct (conv t); simpl; [|lia].
  destruct (IH rest). lia.
Qed.

Lemma collect_all_length conv toks :
  length (collect_all conv toks) <= length toks.
Proof.
  induction toks as [|t rest IH]; simpl; [lia|].
  destruct (conv t); simpl; lia.
Qed.

Lemma at_index_lt tokens k p : at_index tokens k p = true -> k < length tokens.
Proof.
  unfold at_index. destruct (nth_error tokens k) eqn:E; [|discriminate].
  intros _. apply nth_error_Some. congruence.
Qed.

Lemma slice_eqb_length tokens a b l :
  Str.list_eqb (slice tokens a b) l = true -> a + length l <= length tokens \/ l = [].
Proof.
  unfold Str.list_eqb, slice.
  destruct (list_eq_dec string_dec _ l) as [<-|]; [|discriminate].
  intros _. rewrite length_firstn, length_skipn.
  destruct (Nat.le_gt_cases (length tokens) a) as [H|H].
  - right. rewrite skipn_all2 by exact H. now rewrite firstn_nil.
  - left. lia.
Qed.

(** Every test made on the way to a match, turned into arithmetic. *)
Ltac crack H :=
  repeat match type of H with
         | context [match ?x with _ => _ end] =>
             lazymatch x with
             | mapM _ _ => idtac
             | context [match _ with _ => _ end] => fail
             | _ => idtac
             end;
             let E := fresh "E" in
             destruct x eqn:E; try discriminate H
         end.

Ltac facts :=
  repeat match goal with
         | E : collect ?c ?cap ?l = _ |- _ =>
             let L := fresh "L" in
             pose proof (collect_length c cap l) as L; rewrite E in L;
             revert E
         | E : collect_all ?c ?l = _ |- _ =>
             let L := fresh "L" in
             pose proof (collect_all_length c l) as L; rewrite E in L;
             revert E
         | E : at_index ?t ?k ?p = true |- _ =>
             apply at_index_lt in E
         | E : Str.list_eqb (slice _ _ _) _ = true |- _ =>
             apply slice_eqb_length in E; simpl in E;
             destruct E as [E|E]; [|discriminate E]
         | E : (_ <=? _)%nat = false |- _ => apply Nat.leb_gt in E
         | E : (_ <=? _)%nat = true |- _ => apply Nat.leb_le in E
         | E : (_ <? _)%nat = true |- _ => apply Nat.ltb_lt in E
         | E : (_ <? _)%nat = false |- _ => apply Nat.ltb_ge in E
         | E : (_ =? _)%nat = true |- _ => apply Nat.eqb_eq in E
         | E : (_ && _)%bool = true |- _ =>
             let E1 := fresh "E" in
             apply andb_true_iff in E as [E E1]
         end;
  intros;
  repeat match goal with
         | |- context [collect ?c ?cap ?l] =>
             lazymatch goal with
             | _ : length (collect c cap l) <= length l /\ _ |- _ => fail
             | _ => pose proof (collect_length c cap l)
             end
         | |- context [collect_all ?c ?l] =>
             lazymatch goal with
             | _ : length (collect_all c l) <= length l |- _ => fail
             | _ => pose proof (collect_all_length c l)
             end
         end;
  rewrite ?length_skipn in *; cbn [length] in *.

Lemma ret_some_inj (a b : Match.MatchResult) :
  Ret (Some a) = Ret (Some b) -> a = b.
Proof. congruence. Qed.

Ltac bounded H :=
  apply ret_some_inj in H; rewrite <- H; cbn [Match.step]; facts; lia.

Lemma callsign_by_name_step airlines tokens index r :
  index < length tokens ->
  CallsignFSM.by_name airlines tokens index = Ret (Some r) ->
  in_bounds tokens index r.
Proof.
  intros Hlt. unfold in_bounds.
  induction airlines as [|[icao name] more IH]; simpl; [discriminate|].
  intros H. unfold matched in H.
  destruct (Str.list_eqb _ (Str.split name)) eqn:E; simpl in H; [|auto].
  destruct (collect_all _ _) eqn:E1; [auto|].
  apply slice_eqb_length in E.
  pose proof (collect_all_length NumberUtils.token_to_digit
                (skipn (index + length (Str.split name)) tokens)) as L.
  rewrite E1, length_skipn in L. simpl length in L.
  injection H as <-. cbn [Match.step].
  destruct E as [E|E]; [lia|]. rewrite E in *. simpl in *. lia.
Qed.

Lemma callsign_step tokens index r :
  index < length tokens ->
  CallsignFSM.match_ tokens index = Ret (Some r) -> in_bounds tokens index r.
Proof.
  intros Hlt H. unfold CallsignFSM.match_, matched, bind in H.
  cbv zeta in H. unfold in_bounds.
  destruct (length tokens <=? index)%nat; [discriminate|].
  destruct (item tokens index) as [|t0]; [discriminate|].
  destruct (CallsignFSM._ICAO_MIX_RE _) as [[icao digits]|].
  { injection H as <-. cbn [Match.step]. lia. }
  destruct (if CallsignFSM._ICAO_CODE_RE _ then _ else _) eqn:E.
  { exact (callsign_by_name_step _ _ _ _ Hlt H). }
  destruct (CallsignFSM._ICAO_CODE_RE _); [|discriminate].
  bounded H.
Qed.

Ltac step_bound H unfolding :=
  unfolding; unfold matched, bind in H; cbv beta zeta in H;
  unfold in_bounds; crack H; bounded H.

Lemma flight_level_step tokens index r :
  index < length tokens ->
  FlightLevelFSM.match_ tokens index = Ret (Some r) -> in_bounds tokens index r.
Proof.
  intros Hlt H. step_bound H ltac:(unfold FlightLevelFSM.match_ in H).
Qed.

Lemma runway_step tokens index r :
  index < length tokens ->
  RunwayFSM.match_ tokens index = Ret (Some r) -> in_bounds tokens index r.
Proof.
  intros Hlt H.
  step_bound H ltac:(unfold RunwayFSM.match_, RunwayFSM._match_after_prefix,
                       RunwayFSM.spoken_with_side in H).
Qed.

Lemma taxiway_step tokens index r :
  index < length tokens ->
  TaxiwayFSM.match_ tokens index = Ret (Some r) -> in_bounds tokens index r.
Proof.
  intros Hlt H.
  step_bound H ltac:(unfold TaxiwayFSM.match_, TaxiwayFSM.spoken_with_digits in H).
Qed.

Lemma heading_step tokens index r :
  index < length tokens ->
  HeadingFSM.match_ tokens index = Ret (Some r) -> in_bounds tokens index r.
Proof.
  intros Hlt H. step_bound H ltac:(unfold HeadingFSM.match_ in H).
Qed.

Lemma frequency_step tokens index r :
  index < length tokens ->
  FrequencyFSM.match_ tokens index = Ret (Some r) -> in_bounds tokens index r.
Proof.
  intros Hlt H. step_bound H ltac:(unfold FrequencyFSM.match_ in H).
Qed.

Lemma qnh_step tokens index r :
  index < length tokens ->
  QNHFSM.match_ tokens index = Ret (Some r) -> in_bounds tokens index r.
Proof.
  intros Hlt H. step_bound H ltac:(unfold QNHFSM.match_ in H).
Qed.

Lemma value_step tokens index r :
  index < length tokens ->
  ValueFSM.match_ tokens index = Ret (Some r) -> in_bounds tokens index r.
Proof.
  intros Hlt H. step_bound H ltac:(unfold ValueFSM.match_ in H).
Qed.

(** C5.  For every token list and every index inside it, a match returned
    by any of the eight matchers has a step of at least 1 and at most the
    number of tokens from the index to the end. *)
Theorem step_within_remaining_tokens :
  forall fsm tokens index r,
    In fsm DEFAULT_FSMS ->
    index < length tokens ->
    fsm tokens index = Ret (Some r) ->
    (1 <= Match.step r <= Z.of_nat (length tokens) - Z.of_nat index)%Z.
Proof.
  intros fsm tokens index r Hin Hlt H. simpl in Hin.
  destruct Hin as [<-|[<-|[<-|[<-|[<-|[<-|[<-|[<-|[]]]]]]]]].
  - exact (callsign_step _ _ _ Hlt H).
  - exact (flight_level_step _ _ _ Hlt H).
  - exact (runway_step _ _ _ Hlt H).
  - exact (taxiway_step _ _ _ Hlt H).
  - exact (heading_step _ _ _ Hlt H).
  - exact (frequency_step _ _ _ Hlt H).
  - exact (qnh_step _ _ _ Hlt H).
  - exact (value_step _ _ _ Hlt H).
Qed.

Lemma step_within_remaining_tokens_witness :
  In FrequencyFSM.match_ DEFAULT_FSMS
  /\ 1 < length ["to"; "contact"; "one"; "one"; "eight"; "point"; "seven";
                 "five"; "now"]
  /\ FrequencyFSM.match_
       ["to"; "contact"; "one"; "one"; "eight"; "point"; "seven"; "five"; "now"]
       1 = Ret (Some frequency_spoken_match)
  /\ (1 <= Match.step frequency_spoken_match <= 9 - 1)%Z.
Proof.
  assert (Hin : In FrequencyFSM.match_ DEFAULT_FSMS)
    by (simpl; do 5 right; left; reflexivity).
  split; [exact Hin|]. split; [simpl; lia|]. split; [reflexivity|].
  apply (step_within_remaining_tokens FrequencyFSM.match_
           ["to"; "contact"; "one"; "one"; "eight"; "point"; "seven"; "five";
            "now"] 1 frequency_spoken_match Hin).
  - simpl; lia.
  - reflexivity.
Defined.

(* ------------------------------------------------------------------ *)
(** ** The runway matcher without a prefix *)

Lemma upper_two_digits a b :
  Chars.re_d a = true -> Chars.re_d b = true ->
  Str.upper (String a (String b "")) = String a (String b "").
Proof.
  intros Ha Hb. simpl. now rewrite (digit_upper _ Ha), (digit_upper _ Hb).
Qed.

Lemma lower_two_digits a b :
  Chars.re_d a = true -> Chars.re_d b = true ->
  Str.lower (String a (String b "")) = String a (String b "").
Proof.
  intros Ha Hb. unfold Str.lower. simpl.
  now rewrite (digit_lower _ Ha), (digit_lower _ Hb).
Qed.

Lemma digit_first_not_prefix a s :
  Chars.re_d a = true ->
  Str.mem (String a s) RunwayFSM._RW_PREFIX = false.
Proof.
  destruct a as [[] [] [] [] [] [] [] []]; vm_compute; congruence.
Qed.

(** C8.  Where the token at the index is not a runway/rwy prefix, the
    runway matcher matches only a token that, upper-cased, is two digits
    followed by L, R or C, and then with step 1 and confidence 0.75; a
    token of two digits alone, such as "34", is never matched. *)
Theorem runway_unprefixed_needs_side :
  forall tokens index t0,
    nth_error tokens index = Some t0 ->
    (Str.mem (Str.lower t0) RunwayFSM._RW_PREFIX = false ->
     forall r,
       RunwayFSM.match_ tokens index = Ret (Some r) ->
       RunwayFSM._RW_TIGHT_RE (Str.upper t0) = true
       /\ Match.step r = 1%Z
       /\ (Match.confidence r == 75 # 100)%Q
       /\ Entity.type (Match.entity r) = Entity.RUNWAY)
    /\ (forall a b,
          t0 = String a (String b "") ->
          Chars.re_d a = true -> Chars.re_d b = true ->
          RunwayFSM.match_ tokens index = Ret None).
Proof.
  intros tokens index t0 Ht0.
  assert (Hlen : (length tokens <=? index)%nat = false).
  { apply Nat.leb_gt, nth_error_Some. congruence. }
  split.
  - intros Hpre r H. unfold RunwayFSM.match_, matched, bind, item in H.
    rewrite Hlen, Ht0, Hpre in H.
    destruct (RunwayFSM._RW_TIGHT_RE (Str.upper t0)); [|discriminate].
    crack H. apply ret_some_inj in H. rewrite <- H. simpl.
    repeat split.
  - intros a b -> Ha Hb. unfold RunwayFSM.match_, bind, item.
    rewrite Hlen, Ht0, (lower_two_digits _ _ Ha Hb),
      (digit_first_not_prefix _ _ Ha), (upper_two_digits _ _ Ha Hb).
    reflexivity.
Qed.

Lemma runway_unprefixed_needs_side_witness :
  (nth_error ["cleared"; "34"; "34L"] 1 = Some "34"
   /\ RunwayFSM.match_ ["cleared"; "34"; "34L"] 1 = Ret None)
  /\ (nth_error ["cleared"; "34"; "34L"] 2 = Some "34L"
      /\ Str.mem (Str.lower "34L") RunwayFSM._RW_PREFIX = false
      /\ RunwayFSM.match_ ["cleared"; "34"; "34L"] 2
         = Ret (Some runway_34L_tight)
      /\ RunwayFSM._RW_TIGHT_RE (Str.upper "34L") = true
      /\ Match.step runway_34L_tight = 1%Z).
Proof.
  split.
  - split; [reflexivity|].
    apply (proj2 (runway_unprefixed_needs_side ["cleared"; "34"; "34L"] 1 "34"
                    eq_refl) "3"%char "4"%char); reflexivity.
  - split; [reflexivity|]. split; [reflexivity|]. split; [reflexivity|].
    destruct (proj1 (runway_unprefixed_needs_side ["cleared"; "34"; "34L"] 2
                       "34L" eq_refl) eq_refl runway_34L_tight eq_refl)
      as (Htight & Hstep & _).
    split; assumption.
Defined.

Example runway_tight_lower_case :
  RunwayFSM.match_ ["cleared"; "34"; "34l"] 2
  = matched Entity.RUNWAY "34l" "RWY 34L" "runway three four left"
            1 (75 # 100).
Proof. reflexivity. Qed.

(* ------------------------------------------------------------------ *)
(** ** The QNH matcher *)

Lemma lower_digits s :
  Str.all Chars.re_d s = true -> Str.lower s = s.
Proof.
  unfold Str.lower. induction s as [|c r IH]; simpl; [reflexivity|].
  intros H. apply andb_true_iff in H as [Hc Hr].
  now rewrite (digit_lower _ Hc), IH.
Qed.

Lemma number_word_starts_with_letter a r :
  Chars.re_d a = true ->
  Str.lookup (String a r) Dictionary.NUMBER_WORDS = None.
Proof.
  destruct a as [[] [] [] [] [] [] [] []]; intros H;
    try (vm_compute in H; discriminate H); reflexivity.
Qed.

(** A digit string of two or more characters is not one digit. *)
Lemma token_to_digit_long t :
  Str.all Chars.re_d t = true -> 2 <= String.length t ->
  NumberUtils.token_to_digit t = None.
Proof.
  intros Hd Hlen. unfold NumberUtils.token_to_digit.
  rewrite (lower_digits _ Hd).
  destruct t as [|a [|b r]]; simpl in Hlen; try lia.
  simpl in Hd. apply andb_true_iff in Hd as [Ha _].
  rewrite (number_word_starts_with_letter _ _ Ha).
  replace (String.length (String a (String b r)) =? 1)%nat with false
    by reflexivity.
  now rewrite andb_false_r.
Qed.

Lemma skipn_nth_error (tokens : list string) k t :
  nth_error tokens k = Some t -> exists rest, skipn k tokens = t :: rest.
Proof.
  revert tokens. induction k as [|k IH]; intros [|x tokens]; simpl;
    try discriminate.
  - intros [= ->]. eauto.
  - apply IH.
Qed.

(** C4 as the specification words it fails: a phrase of five digit tokens
    after "qnh" does match, on its first four digits. *)
Lemma qnh_five_digit_tokens_match :
  ~ (forall digs,
        (length digs = 3 \/ length digs = 5) ->
        Forall (fun t => NumberUtils.token_to_digit t <> None) digs ->
        QNHFSM.match_ ("qnh" :: digs) 0 = Ret None).
Proof.
  intros H.
  specialize (H ["one"; "zero"; "one"; "three"; "five"] (or_intror eq_refl)).
  assert (Hd : Forall (fun t => NumberUtils.token_to_digit t <> None)
                      ["one"; "zero"; "one"; "three"; "five"])
    by (repeat constructor; discriminate).
  specialize (H Hd). vm_compute in H. discriminate H.
Qed.

(** With the default matchers the tokens after a short QNH phrase are not
    passed through raw either: the callsign matcher takes "qnh" for a
    three-letter airline code. *)
Example qnh_three_digits_default_parse :
  Parser.parse DEFAULT_FSMS "qnh one zero one" Entity.CODE
  = Some (Ret "QNH101").
Proof. vm_compute. reflexivity. Qed.

(* ------------------------------------------------------------------ *)
(** ** Two inputs of the specification *)

(** C3.  What [parse] returns on "taxi via mike six to runway 34L": the
    tokenizer splits "34L" into "34" and "l" and no taxiway prefix
    precedes "mike six", so neither output holds the expected pieces. *)
Theorem taxi_via_mike_six_outputs :
  Tokenizer.tokenize (Tokenizer.normalize "taxi via mike six to runway 34L")
  = ["taxi"; "via"; "mike"; "six"; "to"; "runway"; "34"; "l"]
  /\ Parser.parse DEFAULT_FSMS "taxi via mike six to runway 34L" Entity.CODE
     = Some (Ret "taxi via mike six to RWY 34 l")
  /\ Parser.parse DEFAULT_FSMS "taxi via mike six to runway 34L" Entity.SPOKEN
     = Some (Ret "taxi via mike six to runway three four l")
  /\ Str.contains "TWY M6" "taxi via mike six to RWY 34 l" = false
  /\ Str.contains "RWY 34L" "taxi via mike six to RWY 34 l" = false
  /\ Str.contains "taxiway mike six"
                  "taxi via mike six to runway three four l" = false
  /\ Str.contains "runway three four left"
                  "taxi via mike six to runway three four l" = false.
Proof. repeat split; vm_compute; reflexivity. Qed.

(** C9.  The separated form accepts a level of one digit: "fl" followed by
    the token "5" matches as FL5 with step 2 and confidence 0.9, while the
    compact and the spoken form reject the same level. *)
Theorem flight_level_separated_takes_one_digit :
  FlightLevelFSM.match_ ["fl"; "5"] 0 = Ret (Some flight_level_5)
  /\ Parser.parse DEFAULT_FSMS "FL 5" Entity.CODE = Some (Ret "FL5")
  /\ FlightLevelFSM.match_ ["fl5"] 0 = Ret None
  /\ FlightLevelFSM.match_ ["flight"; "level"; "five"] 0 = Ret None.
Proof. repeat split; vm_compute; reflexivity. Qed.

(* ------------------------------------------------------------------ *)
(** ** Further properties: normalisation *)

Lemma separator_not_space c :
  Tokenizer.is_separator c = true -> Chars.re_s c = false.
Proof. each_char c. Qed.

Lemma space_is_ws : Chars.re_s " "%char = true.
Proof. reflexivity. Qed.

Lemma all_drop_while p q s :
  Str.all p s = true -> Str.all p (Str.drop_while q s) = true.
Proof.
  induction s as [|c r IH]; simpl; [auto|].
  intros H. destruct (q c); [|exact H].
  apply andb_true_iff in H as [_ H]. auto.
Qed.

Lemma all_rstrip p s :
  Str.all p s = true -> Str.all p (Str.rstrip s) = true.
Proof.
  induction s as [|c r IH]; simpl; [auto|].
  intros H. apply andb_true_iff in H as [Hc Hr]. specialize (IH Hr).
  destruct (Str.rstrip r) as [|d r'].
  - destruct (Chars.re_s c); simpl; [reflexivity|now rewrite Hc].
  - simpl in *. now rewrite Hc.
Qed.

Lemma all_strip p s : Str.all p s = true -> Str.all p (Str.strip s) = true.
Proof. intros H. now apply all_rstrip, all_drop_while. Qed.

Lemma all_collapse p b s :
  p " "%char = true ->
  Str.all (fun c => Chars.re_s c || p c) s = true ->
  Str.all p (Tokenizer.collapse_ws b s) = true.
Proof.
  intros Hsp. revert b. induction s as [|c r IH]; intros b; simpl; [auto|].
  intros H. apply andb_true_iff in H as [Hc Hr].
  destruct (Chars.re_s c) eqn:Hs.
  - destruct b; [exact (IH true Hr)|].
    cbn [Str.all]. rewrite Hsp. exact (IH true Hr).
  - cbn [Str.all]. simpl in Hc. rewrite Hc. exact (IH false Hr).
Qed.

Lemma all_separators_replaced s :
  Str.all (fun c => negb (Tokenizer.is_separator c))
    (Str.map (fun c => if Tokenizer.is_separator c then " "%char else c) s)
  = true.
Proof.
  induction s as [|c r IH]; simpl; [reflexivity|].
  rewrite IH, andb_true_r.
  destruct (Tokenizer.is_separator c) eqn:E; [reflexivity|now rewrite E].
Qed.

Lemma rstrip_head s :
  Tidy.head_ws s = false -> Tidy.head_ws (Str.rstrip s) = false.
Proof.
  destruct s as [|c r]; simpl; [auto|]. intros Hc.
  destruct (Str.rstrip r); [now rewrite Hc|exact Hc].
Qed.

Lemma rstrip_head_same c r d r' :
  Str.rstrip (String c r) = String d r' -> d = c.
Proof.
  simpl. destruct (Str.rstrip r); [destruct (Chars.re_s c)|]; congruence.
Qed.

Lemma lstrip_head s : Tidy.head_ws (Str.lstrip s) = false.
Proof.
  unfold Str.lstrip. induction s as [|c r IH]; simpl; [reflexivity|].
  destruct (Chars.re_s c) eqn:E; [exact IH|]. simpl. exact E.
Qed.

Lemma lstrip_fixed s : Tidy.head_ws s = false -> Str.lstrip s = s.
Proof.
  destruct s as [|c r]; simpl; [reflexivity|]. unfold Str.lstrip. simpl.
  now intros ->.
Qed.

Lemma rstrip_cons c s :
  Str.rstrip (String c s)
  = match Str.rstrip s with
    | EmptyString => if Chars.re_s c then EmptyString else String c EmptyString
    | r' => String c r'
    end.
Proof. reflexivity. Qed.

Lemma rstrip_idem s : Str.rstrip (Str.rstrip s) = Str.rstrip s.
Proof.
  induction s as [|c r IH]; [reflexivity|].
  rewrite rstrip_cons.
  destruct (Str.rstrip r) as [|d r'] eqn:E.
  - destruct (Chars.re_s c) eqn:Hc; [reflexivity|].
    rewrite rstrip_cons. simpl. now rewrite Hc.
  - rewrite rstrip_cons, IH. reflexivity.
Qed.

Lemma strip_fixed s : Str.strip (Str.strip s) = Str.strip s.
Proof.
  unfold Str.strip.
  rewrite (lstrip_fixed (Str.rstrip (Str.lstrip s))).
  - apply rstrip_idem.
  - apply rstrip_head, lstrip_head.
Qed.

Lemma adjacent_drop_while p s :
  Tidy.adjacent_ws s = false -> Tidy.adjacent_ws (Str.drop_while p s) = false.
Proof.
  induction s as [|c r IH]; simpl; [auto|].
  intros H. destruct (p c); [|exact H].
  apply orb_false_iff in H as [_ H]. auto.
Qed.

Lemma adjacent_cons a r :
  Tidy.adjacent_ws (String a r)
  = (Chars.re_s a && Tidy.head_ws r) || Tidy.adjacent_ws r.
Proof. reflexivity. Qed.

Lemma adjacent_rstrip s :
  Tidy.adjacent_ws s = false -> Tidy.adjacent_ws (Str.rstrip s) = false.
Proof.
  induction s as [|c r IH]; [auto|].
  rewrite adjacent_cons. intros H.
  apply orb_false_iff in H as [Hc Hr]. specialize (IH Hr).
  rewrite rstrip_cons. destruct (Str.rstrip r) as [|d r'] eqn:E.
  - destruct (Chars.re_s c); [reflexivity|].
    rewrite adjacent_cons. now rewrite andb_false_r.
  - rewrite adjacent_cons, IH, orb_false_r.
    destruct r as [|x r0]; [discriminate E|].
    apply rstrip_head_same in E. subst d. exact Hc.
Qed.

Lemma collapse_tidy s : forall b,
  Tidy.adjacent_ws (Tokenizer.collapse_ws b s) = false
  /\ Tidy.head_ws (Tokenizer.collapse_ws true s) = false.
Proof.
  induction s as [|c r IH]; intros b; simpl; [auto|].
  destruct (IH true) as [Ht Hh]. destruct (IH false) as [Hf _].
  destruct (Chars.re_s c) eqn:Hc.
  - split; [|exact Hh]. destruct b; [exact Ht|].
    rewrite adjacent_cons. now rewrite Hh, Ht, andb_false_r.
  - split; [|simpl; exact Hc].
    rewrite adjacent_cons. now rewrite Hc, Hf.
Qed.

Lemma map_fixed (f : ascii -> ascii) p s :
  (forall c, p c = true -> f c = c) ->
  Str.all p s = true -> Str.map f s = s.
Proof.
  intros Hf. induction s as [|c r IH]; simpl; [auto|].
  intros H. apply andb_true_iff in H as [Hc Hr].
  now rewrite (Hf _ Hc), IH.
Qed.

Lemma collapse_fixed s : forall b,
  Str.all (fun c => negb (Tidy.odd_space c)) s = true ->
  Tidy.adjacent_ws s = false ->
  (b = true -> Tidy.head_ws s = false) ->
  Tokenizer.collapse_ws b s = s.
Proof.
  induction s as [|c r IH]; intros b Hodd Hadj Hb; simpl; [reflexivity|].
  simpl in Hodd. apply andb_true_iff in Hodd as [Hc Hodd].
  rewrite adjacent_cons in Hadj. apply orb_false_iff in Hadj as [Hcr Hadj].
  destruct (Chars.re_s c) eqn:Hs.
  - destruct b; [specialize (Hb eq_refl); simpl in Hb; congruence|].
    simpl in Hcr. rewrite (IH true Hodd Hadj (fun _ => Hcr)).
    f_equal. revert Hc Hs. clear. each_char c.
  - now rewrite (IH false Hodd Hadj) by discriminate.
Qed.

Lemma normalize_tidy_facts :
  forall text,
    Str.any Tokenizer.is_separator (Tokenizer.normalize text) = false
    /\ Str.any Tidy.odd_space (Tokenizer.normalize text) = false
    /\ Tidy.adjacent_ws (Tokenizer.normalize text) = false
    /\ Str.strip (Tokenizer.normalize text) = Tokenizer.normalize text.
Proof.
  intros text. unfold Tokenizer.normalize, Tokenizer.unify_dashes.
  set (s := Str.map _ (Str.strip text)).
  split; [|split; [|split]].
  - apply (any_false_of_all (fun c => negb (Tokenizer.is_separator c))).
    + intros c Hc. now apply negb_true_iff.
    + apply all_strip, all_collapse; [reflexivity|].
      apply (all_impl (fun c => negb (Tokenizer.is_separator c)));
        [|apply all_separators_replaced].
      intros c ->. apply orb_true_r.
  - apply (any_false_of_all (fun c => negb (Tidy.odd_space c))).
    + intros c Hc. now apply negb_true_iff.
    + apply all_strip, all_collapse; [reflexivity|].
      apply (all_impl (fun _ => true)).
      * intros c _. unfold Tidy.odd_space.
        destruct (Chars.re_s c); reflexivity.
      * clear. induction s; simpl; auto.
  - unfold Str.strip. apply adjacent_rstrip, adjacent_drop_while.
    apply collapse_tidy.
  - apply strip_fixed.
Qed.

(** X1.  The normalised text holds none of the separators
    [, ; : ( ) [ ] { }], no white space but the plain space, no two spaces
    in a row, and neither begins nor ends with a space. *)
Theorem normalize_is_tidy :
  forall text,
    Str.any Tokenizer.is_separator (Tokenizer.normalize text) = false
    /\ Str.any Tidy.odd_space (Tokenizer.normalize text) = false
    /\ Tidy.adjacent_ws (Tokenizer.normalize text) = false
    /\ Str.strip (Tokenizer.normalize text) = Tokenizer.normalize text.
Proof. exact normalize_tidy_facts. Qed.

Lemma all_of_any_false (p : ascii -> bool) s :
  Str.any p s = false -> Str.all (fun c => negb (p c)) s = true.
Proof.
  induction s as [|c r IH]; simpl; [auto|].
  intros H. apply orb_false_iff in H as [-> H]. simpl. auto.
Qed.

(** X2.  Normalising twice is normalising once. *)
Theorem normalize_idempotent :
  forall text,
    Tokenizer.normalize (Tokenizer.normalize text) = Tokenizer.normalize text.
Proof.
  intros text.
  destruct (normalize_tidy_facts text) as (Hsep & Hodd & Hadj & Hstrip).
  set (n := Tokenizer.normalize text) in *.
  unfold Tokenizer.normalize at 1, Tokenizer.unify_dashes. fold n.
  rewrite Hstrip.
  rewrite (map_fixed _ (fun c => negb (Tokenizer.is_separator c)) n).
  - rewrite (collapse_fixed n false); [exact Hstrip| |exact Hadj|discriminate].
    now apply all_of_any_false.
  - intros c Hc. apply negb_true_iff in Hc. now rewrite Hc.
  - now apply all_of_any_false.
Qed.

(* ------------------------------------------------------------------ *)
(** ** Further properties: tokens *)

Lemma letter_not_ws c : Chars.is_letter c = true -> not_ws c = true.
Proof. each_char c. Qed.

Lemma digit_not_ws c : Chars.re_d c = true -> not_ws c = true.
Proof. each_char c. Qed.

Lemma symbol_not_ws c : Tokenizer.is_symbol c = true -> not_ws c = true.
Proof. each_char c. Qed.

Lemma dot_not_ws c : (Chars.code c =? 46)%N = true -> not_ws c = true.
Proof. each_char c. Qed.

Lemma az_not_ws c : Chars.is_az c = true -> not_ws c = true.
Proof. each_char c. Qed.

Lemma filter_app p a b :
  Str.filter p (a ++ b) = (Str.filter p a ++ Str.filter p b)%string.
Proof.
  induction a as [|c r IH]; simpl; [reflexivity|].
  destruct (p c); simpl; now rewrite IH.
Qed.

Lemma filter_fixed p s : Str.all p s = true -> Str.filter p s = s.
Proof.
  induction s as [|c r IH]; simpl; [auto|].
  intros H. apply andb_true_iff in H as [-> H]. now rewrite IH.
Qed.

Lemma append_nil_r (s : string) : (s ++ "")%string = s.
Proof. induction s; simpl; congruence. Qed.

Lemma append_assoc (a b c : string) :
  ((a ++ b) ++ c)%string = (a ++ (b ++ c))%string.
Proof. induction a; simpl; congruence. Qed.

Lemma concat_cons a l :
  String.concat "" (a :: l) = (a ++ String.concat "" l)%string.
Proof. destruct l; simpl; [now rewrite append_nil_r|reflexivity]. Qed.

(** The run a round of [findall] takes off the front, put back. *)
Lemma filter_run p s :
  (forall c, p c = true -> not_ws c = true) ->
  Str.filter not_ws s
  = (Str.take_while p s ++ Str.filter not_ws (Str.drop_while p s))%string.
Proof.
  intros Hp. rewrite <- (take_drop_while p s) at 1.
  rewrite filter_app. f_equal. apply filter_fixed.
  apply (all_impl p); [exact Hp|apply take_while_all].
Qed.

Lemma findall_fuel_covers fuel : forall s,
  String.length s <= fuel ->
  String.concat "" (Tokenizer.findall_fuel fuel s) = Str.filter not_ws s.
Proof.
  induction fuel as [|fuel IH]; intros s Hlen.
  - destruct s; [reflexivity|simpl in Hlen; lia].
  - destruct s as [|c r]; [reflexivity|]. simpl in Hlen.
    cbn [Tokenizer.findall_fuel].
    pose proof (drop_while_length Chars.is_letter r) as L1.
    pose proof (drop_while_length Chars.re_d r) as L2.
    pose proof (drop_while_length Tokenizer.is_symbol r) as L3.
    destruct (Chars.is_letter c) eqn:Hl.
    { rewrite concat_cons, IH.
      - symmetry. apply filter_run, letter_not_ws.
      - simpl in *. rewrite Hl in *. lia. }
    destruct (Chars.re_d c) eqn:Hd.
    { rewrite (filter_run Chars.re_d _ digit_not_ws).
      simpl Str.drop_while in *. rewrite Hd in *.
      destruct (Str.drop_while Chars.re_d r) as [|dot after] eqn:Hrest;
        [rewrite concat_cons; reflexivity|].
      destruct ((Chars.code dot =? 46)%N
                && Str.nonempty (Str.take_while Chars.re_d after)) eqn:Hfrac.
      - apply andb_true_iff in Hfrac as [Hdot _].
        pose proof (drop_while_length Chars.re_d after) as L4.
        rewrite concat_cons, IH by (simpl in *; lia).
        rewrite append_assoc. f_equal. cbn [Str.filter].
        rewrite (dot_not_ws _ Hdot). simpl. f_equal.
        symmetry. apply filter_run, digit_not_ws.
      - rewrite concat_cons, IH by (simpl in *; lia). reflexivity. }
    destruct (Chars.re_s c) eqn:Hs.
    { rewrite IH by lia. unfold Str.filter at 2, not_ws. now rewrite Hs. }
    assert (Hsym : Tokenizer.is_symbol c = true)
      by (unfold Tokenizer.is_symbol; now rewrite Hs, Hl, Hd).
    rewrite concat_cons, IH.
    + symmetry. apply filter_run, symbol_not_ws.
    + simpl in *. rewrite Hsym in *. lia.
Qed.

(** X3.  The pattern leaves no character out: the raw tokens of [findall],
    put end to end, are the text without its white space. *)
Theorem findall_covers_text :
  forall text,
    String.concat "" (Tokenizer.findall text)
    = Str.filter (fun c => negb (Chars.re_s c)) text.
Proof. intros text. now apply findall_fuel_covers. Qed.

Lemma any_false_not (p : ascii -> bool) s :
  Str.all (fun c => negb (p c)) s = true -> Str.any p s = false.
Proof.
  apply (any_false_of_all (fun c => negb (p c)) p).
  intros c Hc. now apply negb_true_iff.
Qed.

Lemma number_char_not_ws c :
  Chars.re_d c || (Chars.code c =? 46)%N = true -> not_ws c = true.
Proof. each_char c. Qed.

Lemma raw_shape_no_ws raw :
  raw_shape raw -> Str.nonempty raw = true /\ Str.all not_ws raw = true.
Proof.
  intros [H|[H|H]].
  - apply andb_true_iff in H as [Hne H]. split; [exact Hne|].
    exact (all_impl _ _ _ letter_not_ws H).
  - split.
    + unfold Shape.number, ValueFSM._NUM_RE in H.
      apply andb_true_iff in H as [H _]. destruct raw; [discriminate|reflexivity].
    + exact (all_impl _ _ _ number_char_not_ws (number_chars _ H)).
  - apply andb_true_iff in H as [Hne H]. split; [exact Hne|].
    exact (all_impl _ _ _ symbol_not_ws H).
Qed.

(** X4.  A token that [tokenize] keeps is not empty, holds no white space,
    and holds a word character or a dot: pure punctuation is dropped. *)
Theorem tokens_are_solid :
  forall text t,
    In t (Tokenizer.tokenize text) ->
    Str.nonempty t = true
    /\ Str.any Chars.re_s t = false
    /\ Str.any Tidy.word_or_dot t = true.
Proof.
  intros text t H.
  assert (Hkeep : Tokenizer.is_punct t = false).
  { unfold Tokenizer.tokenize in H. apply filter_In in H as [_ H].
    now apply negb_true_iff in H. }
  destruct (tokenize_from_findall _ _ H) as [raw [Hraw Ht]].
  destruct (raw_shape_no_ws _ Hraw) as [Hne Hws].
  assert (Hsolid : Str.nonempty t = true /\ Str.any Chars.re_s t = false).
  { rewrite Ht. destruct (Str.all1 Chars.is_letter raw) eqn:Hl.
    - rewrite nonempty_lower. split; [exact Hne|].
      apply any_false_not. apply andb_true_iff in Hl as [_ Hl].
      exact (all_impl _ _ _ az_not_ws (all_map_lower _ Hl)).
    - split; [exact Hne|]. now apply any_false_not. }
  destruct Hsolid as [Hne' Hws']. split; [exact Hne'|]. split; [exact Hws'|].
  unfold Tokenizer.is_punct, Str.all1 in Hkeep. rewrite Hne' in Hkeep.
  simpl in Hkeep. revert Hkeep. clear.
  induction t as [|c r IH]; simpl; [discriminate|].
  unfold Tidy.word_or_dot at 1.
  destruct (Chars.re_w c || (Chars.code c =? 46)%N); simpl; auto.
Qed.

(* ------------------------------------------------------------------ *)
(** ** Further properties: digits *)

Lemma lower_char_idem c :
  Chars.lower_char (Chars.lower_char c) = Chars.lower_char c.
Proof. each_char c. Qed.

Lemma lower_idem s : Str.lower (Str.lower s) = Str.lower s.
Proof.
  unfold Str.lower. induction s as [|c r IH]; simpl; [reflexivity|].
  now rewrite lower_char_idem, IH.
Qed.

Lemma number_word_value t n :
  Str.lookup t Dictionary.NUMBER_WORDS = Some n -> n < 10.
Proof.
  unfold Dictionary.NUMBER_WORDS. cbn [Str.lookup]. intros H.
  repeat match type of H with
         | (if ?b then _ else _) = _ => destruct b
         end;
    try discriminate H; injection H as <-; lia.
Qed.

Lemma str_of_digit n :
  n < 10 ->
  String.length (str_of_nat n) = 1 /\ Str.all Chars.is_09 (str_of_nat n) = true.
Proof.
  intros H. do 10 (destruct n as [|n]; [split; reflexivity|]). lia.
Qed.

Lemma is_09_isdigit c : Chars.is_09 c = true -> Chars.isdigit_char c = true.
Proof. each_char c. Qed.

(** X5.  What [token_to_digit] yields is one character that [str.isdigit]
    accepts; for a number word it is a decimal digit; and the answer does
    not depend on the case of the token. *)
Theorem token_to_digit_one_digit :
  forall token,
    NumberUtils.token_to_digit (Str.lower token)
    = NumberUtils.token_to_digit token
    /\ (forall d,
          NumberUtils.token_to_digit token = Some d ->
          String.length d = 1
          /\ Str.isdigit d = true
          /\ (Str.mem (Str.lower token)
                      (List.map fst Dictionary.NUMBER_WORDS) = true ->
              Str.all Chars.is_09 d = true)).
Proof.
  intros token. split.
  - unfold NumberUtils.token_to_digit. now rewrite lower_idem.
  - intros d. unfold NumberUtils.token_to_digit.
    destruct (Str.isdigit (Str.lower token)
              && (String.length (Str.lower token) =? 1)%nat) eqn:E.
    + intros [= <-]. apply andb_true_iff in E as [Hd Hl].
      apply Nat.eqb_eq in Hl. split; [exact Hl|]. split; [exact Hd|].
      intros Hmem. exfalso. revert Hl Hmem. clear.
      destruct (Str.lower token) as [|a [|b r]]; simpl; try discriminate.
      intros _. each_char a.
    + destruct (Str.lookup (Str.lower token) Dictionary.NUMBER_WORDS)
        as [n|] eqn:L; [|discriminate].
      intros [= <-]. apply number_word_value in L.
      destruct (str_of_digit n L) as [H1 H2].
      split; [exact H1|]. split; [|intros _; exact H2].
      unfold Str.isdigit, Str.all1. apply andb_true_iff. split.
      * destruct (str_of_nat n); [discriminate H1|reflexivity].
      * exact (all_impl _ _ _ is_09_isdigit H2).
Qed.

Lemma filter_all p s : Str.all p (Str.filter p s) = true.
Proof.
  induction s as [|c r IH]; simpl; [reflexivity|].
  destruct (p c) eqn:E; simpl; [now rewrite E|exact IH].
Qed.

Lemma spoken_digit c :
  Chars.is_09 c = true ->
  exists w,
    (n <- NumberUtils.int_of_char c ;; NumberUtils.number_reverse n) = Ret w
    /\ In w (List.map snd Dictionary.NUMBER_REVERSE).
Proof.
  destruct c as [[] [] [] [] [] [] [] []]; intros H;
    try (vm_compute in H; discriminate H);
    eexists; (split; [reflexivity|simpl; tauto]).
Qed.

Lemma spoken_words_plain only :
  Str.all Chars.is_09 only = true ->
  exists ws,
    NumberUtils.spoken_words only = Ret ws
    /\ length ws = String.length only
    /\ Forall (fun w => In w (List.map snd Dictionary.NUMBER_REVERSE)) ws.
Proof.
  induction only as [|c r IH]; simpl.
  - intros _. exists []. repeat split. constructor.
  - intros H. apply andb_true_iff in H as [Hc Hr].
    destruct (IH Hr) as (ws & -> & Hlen & Hall).
    destruct (spoken_digit c Hc) as (w & Hw & Hin). unfold bind in *.
    destruct (NumberUtils.int_of_char c) as [|n]; [discriminate|].
    rewrite Hw. exists (w :: ws). simpl. repeat split; [lia|].
    now constructor.
Qed.

Lemma spoken_words_superscript only :
  Str.all Chars.isdigit_char only = true ->
  Str.any Tidy.superscript only = true ->
  NumberUtils.spoken_words only = Raise ValueError.
Proof.
  induction only as [|c r IH]; simpl; [discriminate|].
  intros H Hs. apply andb_true_iff in H as [Hc Hr].
  destruct (Chars.is_09 c) eqn:E.
  - assert (Hsc : Tidy.superscript c = false)
      by (unfold Tidy.superscript; now rewrite E, andb_false_r).
    rewrite Hsc in Hs. simpl in Hs. rewrite (IH Hr Hs).
    destruct (spoken_digit c E) as (w & Hw & _). unfold bind in *.
    destruct (NumberUtils.int_of_char c) as [|n]; [discriminate|].
    now rewrite Hw.
  - unfold NumberUtils.int_of_char. now rewrite E.
Qed.

Lemma filter_filter (p q : ascii -> bool) s :
  (forall c, q c = true -> p c = true) ->
  Str.filter q (Str.filter p s) = Str.filter q s.
Proof.
  intros Hqp. induction s as [|c r IH]; simpl; [reflexivity|].
  destruct (p c) eqn:Ep; simpl.
  - now rewrite IH.
  - destruct (q c) eqn:Eq; [|exact IH].
    rewrite (Hqp _ Eq) in Ep. discriminate.
Qed.

Lemma any_filter (p q : ascii -> bool) s :
  (forall c, q c = true -> p c = true) ->
  Str.any q (Str.filter p s) = Str.any q s.
Proof.
  intros Hqp. induction s as [|c r IH]; simpl; [reflexivity|].
  destruct (p c) eqn:Ep; simpl.
  - now rewrite IH.
  - destruct (q c) eqn:Eq; [|exact IH].
    rewrite (Hqp _ Eq) in Ep. discriminate.
Qed.

Lemma superscript_isdigit c :
  Tidy.superscript c = true -> Chars.isdigit_char c = true.
Proof. each_char c. Qed.

Lemma plain_digits s :
  Str.all Chars.isdigit_char s = true ->
  Str.any Tidy.superscript s = false ->
  Str.all Chars.is_09 s = true.
Proof.
  induction s as [|c r IH]; simpl; [auto|].
  intros H Hs. apply andb_true_iff in H as [Hc Hr].
  apply orb_false_iff in Hs as [Hsc Hs]. rewrite (IH Hr Hs), andb_true_r.
  unfold Tidy.superscript in Hsc. rewrite Hc in Hsc. simpl in Hsc.
  now apply negb_false_iff in Hsc.
Qed.

Lemma digits_to_spoken_returns digits sp :
  NumberUtils.digits_to_spoken digits = Ret sp ->
  Str.any Tidy.superscript digits = false
  /\ exists ws,
       sp = Str.join " " ws
       /\ length ws = String.length (Str.filter Chars.is_09 digits).
Proof.
  unfold NumberUtils.digits_to_spoken.
  set (only := Str.filter Chars.isdigit_char digits).
  assert (Hall : Str.all Chars.isdigit_char only = true) by apply filter_all.
  intros H.
  destruct (Str.any Tidy.superscript digits) eqn:Hs.
  - exfalso.
    assert (Hs' : Str.any Tidy.superscript only = true).
    { unfold only. now rewrite (any_filter _ _ _ superscript_isdigit). }
    rewrite (spoken_words_superscript only Hall Hs') in H.
    destruct only; discriminate.
  - split; [reflexivity|].
    assert (Hs' : Str.any Tidy.superscript only = false).
    { unfold only. now rewrite (any_filter _ _ _ superscript_isdigit). }
    pose proof (plain_digits only Hall Hs') as Hplain.
    assert (Honly : Str.filter Chars.is_09 digits = only).
    { rewrite <- (filter_filter Chars.isdigit_char Chars.is_09 digits
                    is_09_isdigit).
      now apply filter_fixed. }
    rewrite Honly.
    destruct (spoken_words_plain only Hplain) as (ws & Hws & Hlen & _).
    rewrite Hws in H. destruct only as [|c r].
    + exists []. simpl in *. destruct ws; [|discriminate Hlen].
      injection H as <-. auto.
    + exists ws. simpl in H. injection H as <-. auto.
Qed.

(** X6.  [digits_to_spoken] looks only at the characters [str.isdigit]
    accepts.  If one of them is not a decimal digit (a superscript), the
    call raises [ValueError]; otherwise it returns one word of zero..nine
    per decimal digit, joined by single spaces, and the empty string when
    there is none. *)
Theorem digits_to_spoken_behaviour :
  forall digits,
    NumberUtils.digits_to_spoken (Str.filter Chars.isdigit_char digits)
    = NumberUtils.digits_to_spoken digits
    /\ (Str.any Tidy.superscript digits = true ->
        NumberUtils.digits_to_spoken digits = Raise ValueError)
    /\ (Str.any Tidy.superscript digits = false ->
        exists ws,
          NumberUtils.digits_to_spoken digits = Ret (Str.join " " ws)
          /\ length ws = String.length (Str.filter Chars.is_09 digits)
          /\ Forall (fun w => In w (List.map snd Dictionary.NUMBER_REVERSE))
                    ws).
Proof.
  intros digits. unfold NumberUtils.digits_to_spoken.
  set (only := Str.filter Chars.isdigit_char digits).
  assert (Hall : Str.all Chars.isdigit_char only = true) by apply filter_all.
  split; [|split].
  - unfold only. now rewrite (filter_filter _ _ digits (fun c H => H)).
  - intros Hs.
    assert (Hs' : Str.any Tidy.superscript only = true).
    { unfold only. now rewrite (any_filter _ _ _ superscript_isdigit). }
    rewrite (spoken_words_superscript only Hall Hs').
    destruct only; [discriminate Hs'|reflexivity].
  - intros Hs.
    assert (Hs' : Str.any Tidy.superscript only = false).
    { unfold only. now rewrite (any_filter _ _ _ superscript_isdigit). }
    pose proof (plain_digits only Hall Hs') as Hplain.
    assert (Honly : Str.filter Chars.is_09 digits = only).
    { rewrite <- (filter_filter Chars.isdigit_char Chars.is_09 digits
                    is_09_isdigit).
      now apply filter_fixed. }
    rewrite Honly.
    destruct (spoken_words_plain only Hplain) as (ws & Hws & Hlen & Hin).
    rewrite Hws. destruct only as [|c r].
    + exists []. simpl in Hlen. destruct ws; [|discriminate Hlen].
      repeat split. constructor.
    + exists ws. repeat split; assumption.
Qed.

Lemma digits_to_spoken_behaviour_witness :
  Str.any Tidy.superscript ("2" ++ String (ascii_of_N 178) "") = true
  /\ NumberUtils.digits_to_spoken ("2" ++ String (ascii_of_N 178) "")
     = Raise ValueError.
Proof.
  split; [reflexivity|].
  apply (proj1 (proj2 (digits_to_spoken_behaviour
                         ("2" ++ String (ascii_of_N 178) "")))).
  reflexivity.
Defined.

(* ------------------------------------------------------------------ *)
(** ** Further properties: what a match looks like *)

Lemma slice_one tokens index t :
  item tokens index = Ret t ->
  Str.join " " (slice tokens index (index + Z.to_nat 1)) = t.
Proof.
  unfold item, slice. destruct (nth_error tokens index) eqn:E; [|discriminate].
  intros [= ->]. destruct (skipn_nth_error _ _ _ E) as [rest ->].
  replace (index + Z.to_nat 1 - index) with 1 by lia. reflexivity.
Qed.

Lemma nonempty_app_l a b :
  Str.nonempty a = true -> Str.nonempty (a ++ b) = true.
Proof. now destruct a. Qed.

Lemma nonempty_app_r a c b : Str.nonempty (a ++ String c b) = true.
Proof. now destruct a. Qed.

Lemma nonempty_length s : 1 <= String.length s -> Str.nonempty s = true.
Proof. destruct s; simpl; [lia|reflexivity]. Qed.

Lemma take_length n s : String.length (Str.take n s) <= String.length s.
Proof.
  revert s. induction n as [|n IH]; intros [|c r]; simpl; try lia.
  specialize (IH r). lia.
Qed.

Ltac sound_start H :=
  unfold matched, bind in H; cbv beta zeta in H; crack H;
  apply ret_some_inj in H; rewrite <- H;
  constructor;
  cbn [Match.step Match.confidence Match.entity Entity.type
       Entity.confidence Entity.raw Entity.code Entity.spoken].

Ltac sound_easy :=
  try reflexivity;
  try (split; unfold Qle; simpl; lia);
  try apply nonempty_app_r;
  try (symmetry; apply slice_one; assumption);
  try (facts; f_equal; f_equal; lia).

Lemma flight_level_sound tokens index r :
  FlightLevelFSM.match_ tokens index = Ret (Some r) ->
  sound_match Entity.FLIGHT_LEVEL tokens index r.
Proof.
  intros H. unfold FlightLevelFSM.match_ in H. sound_start H; sound_easy.
Qed.

Lemma runway_sound tokens index r :
  RunwayFSM.match_ tokens index = Ret (Some r) ->
  sound_match Entity.RUNWAY tokens index r.
Proof.
  intros H. unfold RunwayFSM.match_, RunwayFSM._match_after_prefix,
              RunwayFSM.spoken_with_side in H.
  sound_start H; sound_easy.
Qed.

Lemma taxiway_sound tokens index r :
  TaxiwayFSM.match_ tokens index = Ret (Some r) ->
  sound_match Entity.TAXIWAY tokens index r.
Proof.
  intros H. unfold TaxiwayFSM.match_, TaxiwayFSM.spoken_with_digits in H.
  sound_start H; sound_easy.
Qed.

Lemma heading_sound tokens index r :
  HeadingFSM.match_ tokens index = Ret (Some r) ->
  sound_match Entity.HEADING tokens index r.
Proof.
  intros H. unfold HeadingFSM.match_ in H. sound_start H; sound_easy.
Qed.

Lemma qnh_sound tokens index r :
  QNHFSM.match_ tokens index = Ret (Some r) ->
  sound_match Entity.QNH tokens index r.
Proof.
  intros H. unfold QNHFSM.match_ in H. sound_start H; sound_easy.
Qed.

Lemma value_sound tokens index r :
  ValueFSM.match_ tokens index = Ret (Some r) ->
  sound_match Entity.VALUE tokens index r.
Proof.
  intros H. unfold ValueFSM.match_ in H. sound_start H; sound_easy.
Qed.

Lemma callsign_by_name_sound airlines tokens index r :
  Forall (fun kv => Str.nonempty (fst kv) = true) airlines ->
  CallsignFSM.by_name airlines tokens index = Ret (Some r) ->
  sound_match Entity.CALLSIGN tokens index r.
Proof.
  induction airlines as [|[icao name] more IH]; simpl; [discriminate|].
  intros Hall H. inversion Hall as [|? ? Hicao Hmore]; subst.
  destruct (Str.list_eqb _ (Str.split name)) eqn:E; simpl in H; [|auto].
  destruct (collect_all _ _) eqn:E1; [auto|].
  unfold matched in H. apply ret_some_inj in H. rewrite <- H.
  constructor;
    cbn [Match.step Match.confidence Match.entity Entity.type
         Entity.confidence Entity.raw Entity.code Entity.spoken];
    sound_easy.
  now apply nonempty_app_l.
Qed.

Lemma icao_code_nonempty s :
  CallsignFSM._ICAO_CODE_RE s = true -> Str.nonempty s = true.
Proof.
  unfold CallsignFSM._ICAO_CODE_RE. intros H.
  apply andb_true_iff in H as [H _]. apply Nat.eqb_eq in H.
  apply nonempty_length. lia.
Qed.

Lemma icao_mix_groups s icao digits :
  CallsignFSM._ICAO_MIX_RE s = Some (icao, digits) ->
  Str.nonempty icao = true.
Proof.
  unfold CallsignFSM._ICAO_MIX_RE.
  destruct (CallsignFSM._ICAO_CODE_RE (Str.take 3 s)) eqn:E;
    [|discriminate].
  destruct (_ && _ && _)%bool; [|discriminate].
  intros [= <- _]. now apply icao_code_nonempty.
Qed.

Lemma callsign_sound tokens index r :
  CallsignFSM.match_ tokens index = Ret (Some r) ->
  sound_match Entity.CALLSIGN tokens index r.
Proof.
  intros H. unfold CallsignFSM.match_, bind in H. cbv zeta in H.
  destruct (length tokens <=? index)%nat; [discriminate|].
  destruct (item tokens index) as [|t0] eqn:E0; [discriminate|].
  destruct (CallsignFSM._ICAO_MIX_RE _) as [[icao digits]|] eqn:Emix.
  { unfold matched in H. apply ret_some_inj in H. rewrite <- H.
    constructor;
      cbn [Match.step Match.confidence Match.entity Entity.type
           Entity.confidence Entity.raw Entity.code Entity.spoken];
      sound_easy.
    eapply nonempty_app_l, icao_mix_groups; eassumption. }
  destruct (if CallsignFSM._ICAO_CODE_RE _ then _ else _) eqn:E.
  { apply (callsign_by_name_sound Dictionary.AIRLINE_ICAO); [|exact H].
    repeat constructor. }
  destruct (CallsignFSM._ICAO_CODE_RE _) eqn:Ecode; [|discriminate].
  unfold matched in H. apply ret_some_inj in H. rewrite <- H.
  constructor;
    cbn [Match.step Match.confidence Match.entity Entity.type
         Entity.confidence Entity.raw Entity.code Entity.spoken];
    sound_easy.
  now apply nonempty_app_l, icao_code_nonempty.
Qed.

Lemma any_app_dot a b :
  Str.any (fun c => (Chars.code c =? 46)%N) (a ++ String "." b) = true.
Proof.
  induction a as [|c r IH]; [reflexivity|].
  cbn [String.append Str.any]. rewrite IH. apply orb_true_r.
Qed.

Lemma any_dot_at n : forall s,
  (Str.take 1 (Str.drop n s) =? ".") = true ->
  Str.any (fun c => (Chars.code c =? 46)%N) s = true.
Proof.
  induction n as [|n IH]; intros [|c r]; simpl; try discriminate.
  - destruct (Ascii.eqb_spec c "."%char) as [->|]; [reflexivity|].
    discriminate.
  - intros H. rewrite (IH r H). apply orb_true_r.
Qed.

Lemma num_str_spoken_nonempty num a :
  Str.any (fun c => (Chars.code c =? 46)%N) num = true ->
  NumberUtils.num_str_to_spoken num = Ret a ->
  Str.nonempty a = true.
Proof.
  intros Hdot. unfold NumberUtils.num_str_to_spoken, NumberUtils.split_dot.
  rewrite Hdot. unfold bind.
  destruct (NumberUtils.digits_to_spoken _); [discriminate|].
  destruct (NumberUtils.digits_to_spoken _); [discriminate|].
  intros [= <-]. apply nonempty_app_r.
Qed.

Lemma freq_re_shape tok :
  FrequencyFSM._FREQ_RE tok = true ->
  Str.nonempty tok = true
  /\ Str.any (fun c => (Chars.code c =? 46)%N) tok = true.
Proof.
  unfold FrequencyFSM._FREQ_RE. intros H.
  repeat (apply andb_true_iff in H as [H ?]).
  split; [|eapply any_dot_at; eassumption].
  apply Nat.eqb_eq in H. pose proof (take_length 3 tok).
  apply nonempty_length. lia.
Qed.

Lemma frequency_sound tokens index r :
  FrequencyFSM.match_ tokens index = Ret (Some r) ->
  sound_match Entity.FREQUENCY tokens index r.
Proof.
  intros H. unfold FrequencyFSM.match_ in H. sound_start H; sound_easy.
  all: try (match goal with
            | E : FrequencyFSM._FREQ_RE _ = true |- _ =>
                destruct (freq_re_shape _ E) as [Hne Hdot]
            end;
            first [exact Hne | eapply num_str_spoken_nonempty; eassumption]).
  all: eapply num_str_spoken_nonempty; [|eassumption]; apply any_app_dot.
Qed.

Lemma default_sound fsm ty tokens index r :
  In (fsm, ty) (combine DEFAULT_FSMS DEFAULT_TYPES) ->
  fsm tokens index = Ret (Some r) ->
  sound_match ty tokens index r.
Proof.
  intros Hin H. simpl in Hin.
  destruct Hin as [E|[E|[E|[E|[E|[E|[E|[E|[]]]]]]]]];
    injection E as <- <-.
  - now apply callsign_sound.
  - now apply flight_level_sound.
  - now apply runway_sound.
  - now apply taxiway_sound.
  - now apply heading_sound.
  - now apply frequency_sound.
  - now apply qnh_sound.
  - now apply value_sound.
Qed.

Lemma default_typed fsm :
  In fsm DEFAULT_FSMS ->
  exists ty, In (fsm, ty) (combine DEFAULT_FSMS DEFAULT_TYPES).
Proof.
  intros Hin. simpl in Hin.
  destruct Hin as [<-|[<-|[<-|[<-|[<-|[<-|[<-|[<-|[]]]]]]]]];
    eexists; simpl; eauto 10.
Qed.

(** X7.  A match of a default matcher carries the entity type of that
    matcher; the confidence of the entity is the confidence of the match,
    and it lies between 0.75 and 1. *)
Theorem match_type_and_confidence :
  forall fsm ty tokens index r,
    In (fsm, ty) (combine DEFAULT_FSMS DEFAULT_TYPES) ->
    fsm tokens index = Ret (Some r) ->
    Entity.type (Match.entity r) = ty
    /\ (Entity.confidence (Match.entity r) == Match.confidence r)%Q
    /\ (75 # 100 <= Match.confidence r <= 1)%Q.
Proof.
  intros fsm ty tokens index r Hin H.
  destruct (default_sound _ _ _ _ _ Hin H). auto.
Qed.

Lemma match_type_and_confidence_witness :
  In (RunwayFSM.match_, Entity.RUNWAY) (combine DEFAULT_FSMS DEFAULT_TYPES)
  /\ RunwayFSM.match_ ["cleared"; "34"; "34L"] 2 = Ret (Some runway_34L_tight)
  /\ Entity.type (Match.entity runway_34L_tight) = Entity.RUNWAY
  /\ (75 # 100 <= Match.confidence runway_34L_tight <= 1)%Q.
Proof.
  assert (Hin : In (RunwayFSM.match_, Entity.RUNWAY)
                   (combine DEFAULT_FSMS DEFAULT_TYPES))
    by (simpl; do 2 right; left; reflexivity).
  split; [exact Hin|]. split; [reflexivity|].
  destruct (match_type_and_confidence RunwayFSM.match_ Entity.RUNWAY
              ["cleared"; "34"; "34L"] 2 runway_34L_tight Hin eq_refl)
    as (Hty & _ & Hrange).
  split; assumption.
Defined.

(** X8.  The raw text of a match of a default matcher is exactly the
    tokens it consumed, [tokens[index : index + step]], joined by single
    spaces. *)
Theorem match_raw_is_consumed_span :
  forall fsm tokens index r,
    In fsm DEFAULT_FSMS ->
    fsm tokens index = Ret (Some r) ->
    Entity.raw (Match.entity r)
    = Str.join " " (slice tokens index (index + Z.to_nat (Match.step r))).
Proof.
  intros fsm tokens index r Hin H.
  destruct (default_typed fsm Hin) as [ty Hty].
  destruct (default_sound _ _ _ _ _ Hty H). assumption.
Qed.

Lemma match_raw_is_consumed_span_witness :
  In FrequencyFSM.match_ DEFAULT_FSMS
  /\ FrequencyFSM.match_
       ["to"; "contact"; "one"; "one"; "eight"; "point"; "seven"; "five"; "now"]
       1 = Ret (Some frequency_spoken_match)
  /\ Entity.raw (Match.entity frequency_spoken_match)
     = Str.join " "
         (slice ["to"; "contact"; "one"; "one"; "eight"; "point"; "seven";
                 "five"; "now"] 1 (1 + Z.to_nat 7)).
Proof.
  assert (Hin : In FrequencyFSM.match_ DEFAULT_FSMS)
    by (simpl; do 5 right; left; reflexivity).
  split; [exact Hin|]. split; [reflexivity|].
  apply (match_raw_is_consumed_span FrequencyFSM.match_
           ["to"; "contact"; "one"; "one"; "eight"; "point"; "seven"; "five";
            "now"] 1 frequency_spoken_match Hin).
  reflexivity.
Defined.

(** X9.  The code form and the spoken form of a match of a default matcher
    are never empty. *)
Theorem match_forms_nonempty :
  forall fsm tokens index r,
    In fsm DEFAULT_FSMS ->
    fsm tokens index = Ret (Some r) ->
    Str.nonempty (Entity.code (Match.entity r)) = true
    /\ Str.nonempty (Entity.spoken (Match.entity r)) = true.
Proof.
  intros fsm tokens index r Hin H.
  destruct (default_typed fsm Hin) as [ty Hty].
  destruct (default_sound _ _ _ _ _ Hty H). auto.
Qed.

Lemma match_forms_nonempty_witness :
  In RunwayFSM.match_ DEFAULT_FSMS
  /\ RunwayFSM.match_ ["cleared"; "34"; "34L"] 2 = Ret (Some runway_34L_tight)
  /\ Str.nonempty (Entity.code (Match.entity runway_34L_tight)) = true
  /\ Str.nonempty (Entity.spoken (Match.entity runway_34L_tight)) = true.
Proof.
  assert (Hin : In RunwayFSM.match_ DEFAULT_FSMS)
    by (simpl; do 2 right; left; reflexivity).
  split; [exact Hin|]. split; [reflexivity|].
  apply (match_forms_nonempty RunwayFSM.match_ ["cleared"; "34"; "34L"] 2
           runway_34L_tight Hin).
  reflexivity.
Defined.

(* ------------------------------------------------------------------ *)
(** ** Further properties: bounds and prefixes *)

(** X10.  Called at an index past the end of the token list, each default
    matcher returns no match without raising; so does the choice of the
    best match, and nothing is logged. *)
Theorem matchers_check_bounds :
  forall tokens index,
    length tokens <= index ->
    (forall fsm, In fsm DEFAULT_FSMS -> fsm tokens index = Ret None)
    /\ Parser._best_match_log DEFAULT_FSMS tokens index = (None, []).
Proof.
  intros tokens index Hle.
  assert (Hleb : (length tokens <=? index)%nat = true)
    by now apply Nat.leb_le.
  assert (Hall : forall fsm, In fsm DEFAULT_FSMS -> fsm tokens index = Ret None).
  { intros fsm Hin. simpl in Hin.
    destruct Hin as [<-|[<-|[<-|[<-|[<-|[<-|[<-|[<-|[]]]]]]]]].
    - unfold CallsignFSM.match_. now rewrite Hleb.
    - unfold FlightLevelFSM.match_. now rewrite Hleb.
    - unfold RunwayFSM.match_. now rewrite Hleb.
    - unfold TaxiwayFSM.match_. now rewrite Hleb.
    - unfold HeadingFSM.match_. now rewrite Hleb.
    - unfold FrequencyFSM.match_. now rewrite Hleb.
    - unfold QNHFSM.match_. now rewrite Hleb.
    - unfold ValueFSM.match_. now rewrite Hleb. }
  split; [exact Hall|].
  unfold Parser._best_match_log, DEFAULT_FSMS. cbn [fold_left].
  unfold Parser.try_fsm.
  rewrite !Hall by (simpl; auto 10). reflexivity.
Qed.

Lemma matchers_check_bounds_witness :
  length ["qnh"; "1013"] <= 2
  /\ QNHFSM.match_ ["qnh"; "1013"] 2 = Ret None.
Proof.
  split; [simpl; lia|].
  apply (proj1 (matchers_check_bounds ["qnh"; "1013"] 2 (le_n 2))).
  simpl; do 6 right; left; reflexivity.
Defined.

Ltac step_only H :=
  unfold matched, bind in H; cbv beta zeta in H; crack H;
  apply ret_some_inj in H; rewrite <- H; cbn [Match.step]; facts; lia.

(** X11.  Six matchers look a bounded number of tokens ahead: a match of
    the runway, taxiway or heading matcher consumes at most 4 tokens, one
    of the QNH matcher 2 or 5, one of the frequency matcher at most 9 and
    one of the value matcher at most 14; taxiway, heading, QNH and value
    matches consume at least 2. *)
Theorem lookahead_is_bounded :
  forall tokens index r,
    (RunwayFSM.match_ tokens index = Ret (Some r) -> (Match.step r <= 4)%Z)
    /\ (TaxiwayFSM.match_ tokens index = Ret (Some r) ->
        (2 <= Match.step r <= 4)%Z)
    /\ (HeadingFSM.match_ tokens index = Ret (Some r) ->
        (2 <= Match.step r <= 4)%Z)
    /\ (QNHFSM.match_ tokens index = Ret (Some r) ->
        Match.step r = 2%Z \/ Match.step r = 5%Z)
    /\ (FrequencyFSM.match_ tokens index = Ret (Some r) ->
        (Match.step r <= 9)%Z)
    /\ (ValueFSM.match_ tokens index = Ret (Some r) ->
        (2 <= Match.step r <= 14)%Z).
Proof.
  intros tokens index r.
  split; [|split; [|split; [|split; [|split]]]]; intros H.
  - unfold RunwayFSM.match_, RunwayFSM._match_after_prefix,
      RunwayFSM.spoken_with_side in H. step_only H.
  - unfold TaxiwayFSM.match_, TaxiwayFSM.spoken_with_digits in H. step_only H.
  - unfold HeadingFSM.match_ in H. step_only H.
  - unfold QNHFSM.match_ in H. step_only H.
  - unfold FrequencyFSM.match_ in H. step_only H.
  - unfold ValueFSM.match_ in H. step_only H.
Qed.

Lemma lookahead_is_bounded_witness :
  QNHFSM.match_ ["qnh"; "one"; "zero"; "one"; "three"; "five"] 0
  = matched Entity.QNH "qnh one zero one three" "QNH 1013"
            "qnh one zero one three" 5 (90 # 100)
  /\ (Match.step
        (Match.mkMatch
           (Entity.mkEntity Entity.QNH "qnh one zero one three" "QNH 1013"
                            "qnh one zero one three" (90 # 100) None)
           5 (90 # 100)) = 2%Z
      \/ Match.step
           (Match.mkMatch
              (Entity.mkEntity Entity.QNH "qnh one zero one three" "QNH 1013"
                               "qnh one zero one three" (90 # 100) None)
              5 (90 # 100)) = 5%Z).
Proof.
  split; [reflexivity|].
  apply (proj1 (proj2 (proj2 (proj2
           (lookahead_is_bounded
              ["qnh"; "one"; "zero"; "one"; "three"; "five"] 0 _))))).
  reflexivity.
Defined.

Lemma skipn_past (tokens : list string) k :
  length tokens <= k -> skipn k tokens = [].
Proof. apply skipn_all2. Qed.

Lemma at_index_past tokens k p :
  length tokens <= k -> at_index tokens k p = false.
Proof.
  intros H. unfold at_index.
  now rewrite (proj2 (nth_error_None tokens k) H).
Qed.

(** X12.  The taxiway and the heading matcher return no match where the
    token is not one of their prefix words; and a prefix word that is the
    last token matches nothing: the taxiway, heading and QNH matchers, and
    the runway matcher on its prefix, return no match there. *)
Theorem prefix_rules :
  forall tokens index t0,
    nth_error tokens index = Some t0 ->
    (Str.mem (Str.lower t0) TaxiwayFSM._TW_PREFIX = false ->
     TaxiwayFSM.match_ tokens index = Ret None)
    /\ (Str.mem (Str.lower t0) HeadingFSM._HDR_PREFIX = false ->
        HeadingFSM.match_ tokens index = Ret None)
    /\ (length tokens = index + 1 ->
        TaxiwayFSM.match_ tokens index = Ret None
        /\ HeadingFSM.match_ tokens index = Ret None
        /\ QNHFSM.match_ tokens index = Ret None
        /\ (Str.mem (Str.lower t0) RunwayFSM._RW_PREFIX = true ->
            RunwayFSM.match_ tokens index = Ret None)).
Proof.
  intros tokens index t0 Ht0.
  assert (Hlen : (length tokens <=? index)%nat = false).
  { apply Nat.leb_gt, nth_error_Some. congruence. }
  assert (Hitem : item tokens index = Ret t0)
    by (unfold item; now rewrite Ht0).
  split; [|split].
  - intros Hp. unfold TaxiwayFSM.match_, bind.
    now rewrite Hlen, Hitem, Hp.
  - intros Hp. unfold HeadingFSM.match_, bind.
    now rewrite Hlen, Hitem, Hp.
  - intros Hlast.
    assert (Hpast : length tokens <= index + 1) by lia.
    assert (Hltb : (index + 1 <? length tokens)%nat = false)
      by (apply Nat.ltb_ge; lia).
    split; [|split; [|split]].
    + unfold TaxiwayFSM.match_, bind.
      now rewrite Hlen, Hitem, Hltb, andb_false_r.
    + unfold HeadingFSM.match_, bind.
      rewrite Hlen, Hitem, (at_index_past _ _ _ Hpast),
        (skipn_past _ _ Hpast).
      now destruct (negb _).
    + unfold QNHFSM.match_.
      rewrite Hlen, (at_index_past _ (index + 1) _ Hpast),
        (skipn_past _ _ Hpast).
      now destruct (_ || _)%bool.
    + intros Hp. unfold RunwayFSM.match_, RunwayFSM._match_after_prefix, bind.
      rewrite Hlen, Hitem, Hp.
      now rewrite (proj2 (Nat.leb_le _ _) Hpast).
Qed.

Lemma prefix_rules_witness :
  nth_error ["turn"; "heading"] 1 = Some "heading"
  /\ length ["turn"; "heading"] = 1 + 1
  /\ HeadingFSM.match_ ["turn"; "heading"] 1 = Ret None.
Proof.
  split; [reflexivity|]. split; [reflexivity|].
  destruct (proj2 (proj2 (prefix_rules ["turn"; "heading"] 1 "heading"
                            eq_refl)) eq_refl) as (_ & H & _).
  exact H.
Defined.

(* ------------------------------------------------------------------ *)
(** ** Further properties: the driver *)

Lemma scan_unmatched fsms tokens mode :
  (forall i, i < length tokens -> Parser._best_match fsms tokens i = None) ->
  forall fuel st,
    Parser.cursor st <= length tokens ->
    length tokens - Parser.cursor st <= fuel ->
    exists st',
      Parser.scan fuel fsms tokens mode st = Some (Ret st')
      /\ Parser.cursor st' = length tokens
      /\ Parser.out st'
         = (Parser.out st ++ skipn (Parser.cursor st) tokens)%list.
Proof.
  intros Hnone. induction fuel as [|fuel IH]; intros st Hle Hfuel.
  - exists st. simpl.
    destruct (Nat.leb_spec (length tokens) (Parser.cursor st)); [|lia].
    rewrite skipn_all2 by lia. rewrite app_nil_r. repeat split. lia.
  - simpl.
    destruct (Nat.leb_spec (length tokens) (Parser.cursor st)) as [Hge|Hlt].
    + exists st. rewrite skipn_all2 by lia. rewrite app_nil_r.
      repeat split. lia.
    + destruct (nth_error tokens (Parser.cursor st)) as [tok|] eqn:Htok;
        [|apply nth_error_None in Htok; lia].
      destruct (round_spec fsms tokens mode st tok Htok) as [lg ->].
      rewrite (Hnone _ Hlt).
      destruct (IH (Parser.mkState (Parser.cursor st + 1)
                      (Parser.out st ++ [tok]) (Parser.log st ++ lg)))
        as (st' & -> & Hc & Ho); simpl; try lia.
      exists st'. repeat split; [exact Hc|]. rewrite Ho. simpl.
      destruct (skipn_nth_error _ _ _ Htok) as [rest Hrest].
      rewrite Hrest, <- app_assoc. simpl. do 2 f_equal.
      replace (Parser.cursor st + 1) with (S (Parser.cursor st)) by lia.
      change (S (Parser.cursor st)) with (1 + Parser.cursor st).
      rewrite <- skipn_skipn, Hrest. reflexivity.
Qed.

(** X13.  Where no matcher matches at any position of the tokens, [parse]
    returns the tokens unchanged, joined by single spaces. *)
Theorem unmatched_tokens_pass_through :
  forall fsms text mode,
    (forall i,
        i < length (Tokenizer.tokenize (Tokenizer.normalize text)) ->
        Parser._best_match fsms
          (Tokenizer.tokenize (Tokenizer.normalize text)) i = None) ->
    Parser.parse fsms text mode
    = Some (Ret (Str.join " " (Tokenizer.tokenize (Tokenizer.normalize text)))).
Proof.
  intros fsms text mode Hnone. unfold Parser.parse, Parser.parse_state.
  set (tokens := Tokenizer.tokenize (Tokenizer.normalize text)) in *.
  destruct (scan_unmatched fsms tokens mode Hnone (length tokens)
              (Parser.mkState 0 [] [])) as (st & -> & _ & Ho);
    simpl; try lia.
  now rewrite Ho.
Qed.

Lemma unmatched_tokens_pass_through_witness :
  (forall i,
      i < length (Tokenizer.tokenize (Tokenizer.normalize "Hello,  World!")) ->
      Parser._best_match DEFAULT_FSMS
        (Tokenizer.tokenize (Tokenizer.normalize "Hello,  World!")) i = None)
  /\ Parser.parse DEFAULT_FSMS "Hello,  World!" Entity.SPOKEN
     = Some (Ret (Str.join " "
                    (Tokenizer.tokenize (Tokenizer.normalize "Hello,  World!")))).
Proof.
  assert (H : forall i,
             i < length (Tokenizer.tokenize
                           (Tokenizer.normalize "Hello,  World!")) ->
             Parser._best_match DEFAULT_FSMS
               (Tokenizer.tokenize (Tokenizer.normalize "Hello,  World!")) i
             = None).
  { intros [|[|i]] Hi; [reflexivity|reflexivity|].
    exfalso. change (S (S i) < 2) in Hi. lia. }
  split; [exact H|].
  exact (unmatched_tokens_pass_through DEFAULT_FSMS "Hello,  World!"
           Entity.SPOKEN H).
Defined.

Lemma scan_pieces fsms tokens mode : forall fuel st st',
  length (Parser.out st) <= Parser.cursor st ->
  length (Parser.out st) <= length tokens ->
  Parser.scan fuel fsms tokens mode st = Some (Ret st') ->
  length (Parser.out st') <= Parser.cursor st'
  /\ length (Parser.out st') <= length tokens.
Proof.
  induction fuel as [|fuel IH]; intros st st' Hc Hl; simpl;
    destruct (Nat.leb_spec (length tokens) (Parser.cursor st)) as [Hge|Hlt];
    try discriminate; try (intros [= <-]; auto).
  destruct (nth_error tokens (Parser.cursor st)) as [tok|] eqn:Htok;
    [|apply nth_error_None in Htok; lia].
  destruct (round_spec fsms tokens mode st tok Htok) as [lg ->].
  apply IH;
    destruct (Parser._best_match fsms tokens (Parser.cursor st));
    simpl; rewrite length_app; simpl; unfold Parser.advance; lia.
Qed.

(** X14.  [parse] emits at most one piece per token: when the scan ends,
    the pieces are no more than the tokens, and the cursor has reached the
    end of the tokens. *)
Theorem pieces_at_most_tokens :
  forall fsms text mode,
    exists st,
      Parser.parse_state fsms text mode = Some (Ret st)
      /\ length (Parser.out st)
         <= length (Tokenizer.tokenize (Tokenizer.normalize text))
      /\ length (Tokenizer.tokenize (Tokenizer.normalize text))
         <= Parser.cursor st.
Proof.
  intros fsms text mode. unfold Parser.parse_state.
  set (tokens := Tokenizer.tokenize (Tokenizer.normalize text)).
  destruct (scan_reaches_end fsms tokens mode (length tokens)
              (Parser.mkState 0 [] [])) as (st & Hst & Hend); [simpl; lia|].
  exists st. split; [exact Hst|]. split; [|exact Hend].
  apply (scan_pieces fsms tokens mode (length tokens)
           (Parser.mkState 0 [] []) st); [simpl; lia|simpl; lia|exact Hst].
Qed.

Lemma best_match_log_entries tokens index fsms : forall best log,
  snd (fold_left (Parser.try_fsm tokens index) fsms (best, log))
  = (log ++ repeat (index, slice tokens index (index + 8))
                   (length (filter (raises tokens index) fsms)))%list.
Proof.
  induction fsms as [|f fsms IH]; intros best log; cbn [fold_left filter].
  - simpl. now rewrite app_nil_r.
  - destruct (Parser.try_fsm tokens index (best, log) f) as [b' l'] eqn:Et.
    rewrite IH. unfold Parser.try_fsm in Et.
    assert (Hr : raises tokens index f
                 = match f tokens index with
                   | Raise _ => true
                   | Ret _ => false
                   end) by reflexivity.
    rewrite Hr. clear Hr.
    destruct (f tokens index) as [e|[r|]].
    + injection Et as <- <-. now rewrite <- app_assoc.
    + destruct best as [b|]; [destruct (Parser.pair_gt r b)|];
        injection Et as <- <-; reflexivity.
    + injection Et as <- <-. reflexivity.
Qed.

(** X15.  Choosing the best match logs one entry per matcher that raised
    at the position, and nothing else; an entry holds the index and the
    tokens from the index on, at most 8 of them. *)
Theorem log_records_raising_matchers :
  forall fsms tokens index,
    snd (Parser._best_match_log fsms tokens index)
    = repeat (index, slice tokens index (index + 8))
             (length (filter (raises tokens index) fsms))
    /\ length (slice tokens index (index + 8)) <= 8
    /\ slice tokens index (index + 8) = firstn 8 (skipn index tokens).
Proof.
  intros fsms tokens index. split; [|split].
  - unfold Parser._best_match_log. now rewrite best_match_log_entries.
  - unfold slice. rewrite length_firstn. lia.
  - unfold slice. f_equal. lia.
Qed.

(* ------------------------------------------------------------------ *)
(** ** Further properties: the callsign matcher and its neighbours *)

Lemma take_drop_three s :
  String.length s = 3 -> Str.take 3 s = s /\ Str.drop 3 s = "".
Proof.
  destruct s as [|a [|b [|c [|d r]]]]; simpl; try discriminate.
  intros _. split; reflexivity.
Qed.

Lemma code_re_not_mix s :
  CallsignFSM._ICAO_CODE_RE s = true -> CallsignFSM._ICAO_MIX_RE s = None.
Proof.
  intros H. unfold CallsignFSM._ICAO_MIX_RE.
  assert (Hlen : String.length s = 3).
  { unfold CallsignFSM._ICAO_CODE_RE in H.
    apply andb_true_iff in H as [H _]. now apply Nat.eqb_eq. }
  destruct (take_drop_three s Hlen) as [-> ->]. rewrite H. reflexivity.
Qed.

Lemma separated_of_digit t d :
  NumberUtils.token_to_digit t = Some d ->
  exists d', CallsignFSM.separated_digit t = Some d'.
Proof.
  intros H. unfold CallsignFSM.separated_digit.
  destruct (Str.isdigit t); eauto.
Qed.

Lemma collect_within_separated cap : forall toks,
  length (collect NumberUtils.token_to_digit cap toks)
  <= length (collect_all CallsignFSM.separated_digit toks).
Proof.
  induction cap as [|cap IH]; intros [|t rest]; simpl; try lia.
  destruct (NumberUtils.token_to_digit t) as [d|] eqn:E; simpl; [|lia].
  destruct (separated_of_digit t d E) as [d' ->]. simpl.
  specialize (IH rest). lia.
Qed.

Lemma callsign_separated_form tokens index t0 :
  nth_error tokens index = Some t0 ->
  CallsignFSM._ICAO_CODE_RE (Str.upper t0) = true ->
  1 <= length (collect_all CallsignFSM.separated_digit
                 (skipn (index + 1) tokens)) ->
  exists r,
    CallsignFSM.match_ tokens index = Ret (Some r)
    /\ Match.step r
       = (1 + Z.of_nat (length (collect_all CallsignFSM.separated_digit
                                  (skipn (index + 1) tokens))))%Z
    /\ (Match.confidence r == 90 # 100)%Q
    /\ Entity.type (Match.entity r) = Entity.CALLSIGN
    /\ Entity.code (Match.entity r)
       = Str.upper t0
         ++ Str.join "" (collect_all CallsignFSM.separated_digit
                           (skipn (index + 1) tokens)).
Proof.
  intros Ht0 Hcode Hdigits. unfold CallsignFSM.match_, bind, item.
  rewrite (proj2 (Nat.leb_gt _ _)), Ht0
    by (apply nth_error_Some; congruence).
  cbv zeta. rewrite (code_re_not_mix _ Hcode), Hcode.
  destruct (collect_all CallsignFSM.separated_digit
              (skipn (index + 1) tokens)) as [|d ds] eqn:E;
    [simpl in Hdigits; lia|].
  eexists. split; [reflexivity|]. cbn [Match.step Match.confidence
    Match.entity Entity.type Entity.code].
  repeat split. simpl length. lia.
Qed.

(** X16.  The callsign matcher takes any token of three letters for an
    airline code: followed by a digit-string token or a token that
    converts to a digit, it matches with confidence 0.90, and its step
    counts the code and every digit token that follows, without a bound. *)
Theorem callsign_takes_any_three_letters :
  forall tokens index t0 t1,
    nth_error tokens index = Some t0 ->
    nth_error tokens (index + 1) = Some t1 ->
    CallsignFSM._ICAO_CODE_RE (Str.upper t0) = true ->
    CallsignFSM.separated_digit t1 <> None ->
    exists r,
      CallsignFSM.match_ tokens index = Ret (Some r)
      /\ (2 <= Match.step r)%Z
      /\ Match.step r
         = (1 + Z.of_nat (length (collect_all CallsignFSM.separated_digit
                                    (skipn (index + 1) tokens))))%Z
      /\ (Match.confidence r == 90 # 100)%Q
      /\ Entity.code (Match.entity r)
         = Str.upper t0
           ++ Str.join "" (collect_all CallsignFSM.separated_digit
                             (skipn (index + 1) tokens)).
Proof.
  intros tokens index t0 t1 Ht0 Ht1 Hcode Hd.
  assert (Hone : 1 <= length (collect_all CallsignFSM.separated_digit
                                (skipn (index + 1) tokens))).
  { destruct (skipn_nth_error _ _ _ Ht1) as [rest ->]. simpl.
    destruct (CallsignFSM.separated_digit t1); [simpl; lia|congruence]. }
  destruct (callsign_separated_form tokens index t0 Ht0 Hcode Hone)
    as (r & Hr & Hstep & Hconf & _ & Hc).
  exists r. split; [exact Hr|]. split; [lia|]. auto.
Qed.

Lemma callsign_takes_any_three_letters_witness :
  nth_error ["the"; "one"; "two"; "left"] 0 = Some "the"
  /\ nth_error ["the"; "one"; "two"; "left"] (0 + 1) = Some "one"
  /\ CallsignFSM._ICAO_CODE_RE (Str.upper "the") = true
  /\ CallsignFSM.separated_digit "one" <> None
  /\ exists r,
       CallsignFSM.match_ ["the"; "one"; "two"; "left"] 0 = Ret (Some r)
       /\ (2 <= Match.step r)%Z.
Proof.
  split; [reflexivity|]. split; [reflexivity|]. split; [reflexivity|].
  assert (Hd : CallsignFSM.separated_digit "one" <> None) by discriminate.
  split; [exact Hd|].
  destruct (callsign_takes_any_three_letters
              ["the"; "one"; "two"; "left"] 0 "the" "one"
              eq_refl eq_refl eq_refl Hd) as (r & Hr & Hstep & _).
  exists r. split; assumption.
Defined.

Lemma upper_of_lower_az c :
  Chars.is_az (Chars.lower_char c) = true ->
  Chars.upper_char c
  = String (ascii_of_N (Chars.code (Chars.lower_char c) - 32)) "".
Proof. each_char c. Qed.

Lemma lower_qnh_upper t0 : Str.lower t0 = "qnh" -> Str.upper t0 = "QNH".
Proof.
  destruct t0 as [|a [|b [|c [|d r]]]]; try discriminate.
  unfold Str.lower. simpl. intros [= Ha Hb Hc].
  rewrite (upper_of_lower_az a), (upper_of_lower_az b), (upper_of_lower_az c);
    rewrite ?Ha, ?Hb, ?Hc; reflexivity.
Qed.

Lemma qnh_spoken_facts tokens index r :
  QNHFSM.match_ tokens index = Ret (Some r) ->
  Match.step r = 5%Z ->
  (exists t0, nth_error tokens index = Some t0 /\ Str.lower t0 = "qnh")
  /\ length (collect NumberUtils.token_to_digit 4 (skipn (index + 1) tokens))
     = 4
  /\ (Match.confidence r == 90 # 100)%Q.
Proof.
  intros H Hstep. unfold QNHFSM.match_, matched, bind in H.
  cbv beta zeta in H.
  destruct (_ || _)%bool eqn:Eguard; [discriminate|].
  apply orb_false_iff in Eguard as [_ Eq]. apply negb_false_iff in Eq.
  unfold at_index in Eq.
  destruct (nth_error tokens index) as [t0|] eqn:Ht0; [|discriminate].
  apply String.eqb_eq in Eq.
  crack H; apply ret_some_inj in H; rewrite <- H in *;
    cbn [Match.step Match.confidence] in *; try discriminate Hstep.
  apply Nat.eqb_eq in E0.
  split; [eauto|]. split; [exact E0|reflexivity].
Qed.

Lemma in_returned fsms tokens index b :
  In b (returned fsms tokens index) ->
  exists fsm, In fsm fsms /\ fsm tokens index = Ret (Some b).
Proof.
  unfold returned. intros H. apply in_flat_map in H as (fsm & Hin & Hb).
  exists fsm. split; [exact Hin|]. unfold returned_by in Hb.
  destruct (fsm tokens index) as [e|[r|]]; simpl in Hb; try contradiction.
  destruct Hb as [->|[]]. reflexivity.
Qed.

Lemma qnh_typed_is_qnh_match fsm tokens index b :
  In fsm DEFAULT_FSMS ->
  fsm tokens index = Ret (Some b) ->
  Entity.type (Match.entity b) = Entity.QNH ->
  QNHFSM.match_ tokens index = Ret (Some b).
Proof.
  intros Hin H Hty. simpl in Hin.
  destruct Hin as [<-|[<-|[<-|[<-|[<-|[<-|[<-|[<-|[]]]]]]]]];
    try exact H; exfalso.
  - destruct (callsign_sound _ _ _ H). congruence.
  - destruct (flight_level_sound _ _ _ H). congruence.
  - destruct (runway_sound _ _ _ H). congruence.
  - destruct (taxiway_sound _ _ _ H). congruence.
  - destruct (heading_sound _ _ _ H). congruence.
  - destruct (frequency_sound _ _ _ H). congruence.
  - destruct (value_sound _ _ _ H). congruence.
Qed.

(** X17.  With the default matcher list the spoken form of a QNH is never
    the match chosen.  Where the QNH matcher matches four digit tokens
    after "qnh" (step 5, confidence 0.90), the callsign matcher, which
    comes first, matches the same tokens as the callsign QNH plus digits,
    with at least that step and the same confidence; the best match is
    then not a QNH entity. *)
Theorem qnh_spoken_loses_to_callsign :
  forall tokens index r,
    QNHFSM.match_ tokens index = Ret (Some r) ->
    Match.step r = 5%Z ->
    (exists c,
        CallsignFSM.match_ tokens index = Ret (Some c)
        /\ (5 <= Match.step c)%Z
        /\ (Match.confidence c == 90 # 100)%Q
        /\ Entity.type (Match.entity c) = Entity.CALLSIGN)
    /\ (forall b,
          Parser._best_match DEFAULT_FSMS tokens index = Some b ->
          Entity.type (Match.entity b) <> Entity.QNH).
Proof.
  intros tokens index r Hr Hstep.
  destruct (qnh_spoken_facts _ _ _ Hr Hstep)
    as ((t0 & Ht0 & Hlow) & Hfour & Hconf).
  pose proof (collect_within_separated 4 (skipn (index + 1) tokens)) as Hle.
  rewrite Hfour in Hle.
  assert (Hcode : CallsignFSM._ICAO_CODE_RE (Str.upper t0) = true)
    by now rewrite (lower_qnh_upper _ Hlow).
  destruct (callsign_separated_form tokens index t0 Ht0 Hcode)
    as (c & Hc & Hcstep & Hcconf & Hcty & _); [lia|].
  split.
  - exists c. split; [exact Hc|]. split; [lia|]. split; assumption.
  - intros b Hb Hty.
    pose proof (best_match_first_max DEFAULT_FSMS tokens index) as Hmax.
    rewrite Hb in Hmax. destruct Hmax as (pre & post & Hret & Hpre & _).
    assert (Hin : In b (returned DEFAULT_FSMS tokens index))
      by (rewrite Hret; apply in_elt).
    destruct (in_returned _ _ _ _ Hin) as (fsm & Hfsm & Hfb).
    pose proof (qnh_typed_is_qnh_match _ _ _ _ Hfsm Hfb Hty) as Hq.
    assert (b = r) by congruence. subst b.
    assert (Hhead : exists rest,
               returned DEFAULT_FSMS tokens index = c :: rest).
    { unfold returned, DEFAULT_FSMS. cbn [flat_map].
      unfold returned_by at 1. rewrite Hc. eexists. reflexivity. }
    destruct Hhead as [rest Hrest]. rewrite Hrest in Hret.
    destruct pre as [|p pre].
    + injection Hret as -> _. congruence.
    + injection Hret as <- _. inversion Hpre as [|? ? Hlt _]; subst.
      destruct Hlt as [Hlt|[_ Hlt]]; [lia|].
      rewrite Hcconf, Hconf in Hlt. revert Hlt. apply Qlt_irrefl.
Qed.

Lemma qnh_spoken_loses_to_callsign_witness :
  QNHFSM.match_ ["qnh"; "one"; "zero"; "one"; "three"] 0
  = matched Entity.QNH "qnh one zero one three" "QNH 1013"
            "qnh one zero one three" 5 (90 # 100)
  /\ exists c,
       CallsignFSM.match_ ["qnh"; "one"; "zero"; "one"; "three"] 0
       = Ret (Some c)
       /\ (5 <= Match.step c)%Z.
Proof.
  split; [reflexivity|].
  destruct (proj1 (qnh_spoken_loses_to_callsign
                     ["qnh"; "one"; "zero"; "one"; "three"] 0 _
                     eq_refl eq_refl)) as (c & Hc & Hstep & _).
  exists c. split; assumption.
Defined.

(* ------------------------------------------------------------------ *)
(** ** Further properties: the digits of a code *)

Lemma token_to_digit_some t d :
  NumberUtils.token_to_digit t = Some d ->
  String.length d = 1 /\ Str.all Chars.isdigit_char d = true.
Proof.
  unfold NumberUtils.token_to_digit.
  destruct (Str.isdigit (Str.lower t)
            && (String.length (Str.lower t) =? 1)%nat) eqn:E.
  - intros [= <-]. apply andb_true_iff in E as [Hd Hl].
    apply Nat.eqb_eq in Hl. split; [exact Hl|].
    now apply andb_true_iff in Hd as [_ Hd].
  - destruct (Str.lookup (Str.lower t) Dictionary.NUMBER_WORDS)
      as [n|] eqn:L; [|discriminate].
    intros [= <-]. apply number_word_value in L.
    destruct (str_of_digit n L) as [H1 H2]. split; [exact H1|].
    exact (all_impl _ _ _ is_09_isdigit H2).
Qed.

Lemma collect_digits_forall cap : forall toks,
  Forall (fun d => String.length d = 1
                   /\ Str.all Chars.isdigit_char d = true)
         (collect NumberUtils.token_to_digit cap toks).
Proof.
  induction cap as [|cap IH]; intros [|t rest]; simpl; try constructor.
  destruct (NumberUtils.token_to_digit t) as [d|] eqn:E; constructor.
  - exact (token_to_digit_some _ _ E).
  - apply IH.
Qed.

Lemma append_length (a b : string) :
  String.length (a ++ b) = String.length a + String.length b.
Proof. induction a; simpl; congruence. Qed.

Lemma join_digits ds :
  Forall (fun d => String.length d = 1
                   /\ Str.all Chars.isdigit_char d = true) ds ->
  String.length (Str.join "" ds) = length ds
  /\ Str.all Chars.isdigit_char (Str.join "" ds) = true.
Proof.
  unfold Str.join. induction 1 as [|d ds [Hl Hd] _ [IHl IHd]];
    [split; reflexivity|].
  rewrite concat_cons, append_length, all_app, Hl, Hd, IHl, IHd.
  split; reflexivity.
Qed.

Lemma isdigit_not_sign c :
  Chars.isdigit_char c = true ->
  (Chars.code c =? 43)%N || (Chars.code c =? 45)%N = false.
Proof. each_char c. Qed.

(** The words of a string of decimal digits. *)
Lemma digits_spoken_words s :
  Str.all Chars.is_09 s = true ->
  exists ws,
    NumberUtils.spoken_words s = Ret ws
    /\ NumberUtils.digits_to_spoken s = Ret (Str.join " " ws)
    /\ length ws = String.length s
    /\ Forall (fun w => In w (List.map snd Dictionary.NUMBER_REVERSE)) ws.
Proof.
  intros Hp. unfold NumberUtils.digits_to_spoken.
  rewrite (filter_fixed _ _ (all_impl _ _ _ is_09_isdigit Hp)).
  destruct (spoken_words_plain s Hp) as (ws & Hws & Hlen & Hall).
  exists ws. rewrite Hws. split; [reflexivity|]. split; [|auto].
  destruct s as [|c r]; [|reflexivity].
  simpl in Hlen. destruct ws; [reflexivity|discriminate].
Qed.

(** The digits of a code whose spoken form could be built. *)
Lemma spoken_digits_plain deg sp n :
  Str.all Chars.isdigit_char deg = true ->
  String.length deg = n ->
  NumberUtils.digits_to_spoken deg = Ret sp ->
  Str.all Chars.is_09 deg = true
  /\ exists ws,
       NumberUtils.spoken_words deg = Ret ws
       /\ sp = Str.join " " ws
       /\ length ws = n
       /\ Forall (fun w => In w (List.map snd Dictionary.NUMBER_REVERSE)) ws.
Proof.
  intros Hd Hlen Hsp.
  destruct (digits_to_spoken_returns _ _ Hsp) as (Hs & _).
  pose proof (plain_digits _ Hd Hs) as Hplain. split; [exact Hplain|].
  destruct (digits_spoken_words deg Hplain) as (ws & Hws & Hsp' & Hl & Hall).
  exists ws. rewrite Hsp' in Hsp. injection Hsp as <-.
  split; [exact Hws|]. split; [reflexivity|]. split; [congruence|exact Hall].
Qed.

(** [zfill(3)] on one to three digits: zeros in front, three characters. *)
Lemma zfill_three_pad s :
  Str.all Chars.isdigit_char s = true ->
  1 <= String.length s <= 3 ->
  exists zeros,
    Str.zfill 3 s = zeros ++ s
    /\ Str.all (fun c => (Chars.code c =? 48)%N) zeros = true
    /\ String.length (Str.zfill 3 s) = 3
    /\ Str.all Chars.isdigit_char (Str.zfill 3 s) = true.
Proof.
  intros Hd Hlen. unfold Str.zfill.
  destruct s as [|a [|b [|c [|d r]]]]; simpl in Hlen; try lia;
    simpl in Hd; apply andb_true_iff in Hd as [Ha Hd];
    rewrite (isdigit_not_sign _ Ha); simpl.
  - exists "00". simpl. rewrite Ha. repeat split.
  - exists "0". simpl. rewrite Ha. repeat split. exact Hd.
  - exists "". simpl. rewrite Ha. repeat split. exact Hd.
Qed.

Lemma nth_of_nth_error (tokens : list string) k t :
  nth_error tokens k = Some t -> nth k tokens "" = t.
Proof.
  revert tokens. induction k as [|k IH]; intros [|x tokens]; simpl;
    try discriminate.
  - now intros [= ->].
  - apply IH.
Qed.

(** X18.  A heading match writes the heading with exactly three decimal
    digits: the digits given (the digit token, or the two or three digits
    spoken) with zeros put in front (code "HDG ddd"); and it speaks it as
    "heading" and the three words zero..nine of those three digits. *)
Theorem heading_code_has_three_digits :
  forall tokens index r,
    HeadingFSM.match_ tokens index = Ret (Some r) ->
    exists zeros deg ws,
      Entity.code (Match.entity r) = "HDG " ++ deg
      /\ deg = zeros
               ++ (if at_index tokens (index + 1) HeadingFSM._HDG_RE
                   then nth (index + 1) tokens ""
                   else Str.join ""
                          (collect NumberUtils.token_to_digit 3
                                   (skipn (index + 1) tokens)))
      /\ Str.all (fun c => (Chars.code c =? 48)%N) zeros = true
      /\ String.length deg = 3
      /\ Str.all Chars.is_09 deg = true
      /\ Entity.spoken (Match.entity r) = "heading " ++ Str.join " " ws
      /\ NumberUtils.spoken_words deg = Ret ws
      /\ length ws = 3
      /\ Forall (fun w => In w (List.map snd Dictionary.NUMBER_REVERSE)) ws.
Proof.
  intros tokens index r H. unfold HeadingFSM.match_, matched, bind in H.
  cbv beta zeta in H.
  destruct (length tokens <=? index)%nat; [discriminate|].
  destruct (item tokens index) as [|t0]; [discriminate|].
  destruct (negb _); [discriminate|].
  destruct (at_index tokens (index + 1) HeadingFSM._HDG_RE) eqn:Eat.
  - (* a digit token *)
    unfold at_index in Eat. unfold item in H.
    destruct (nth_error tokens (index + 1)) as [t1|] eqn:Et1; [|discriminate].
    rewrite (nth_of_nth_error _ _ _ Et1).
    unfold HeadingFSM._HDG_RE in Eat.
    apply andb_true_iff in Eat as [Eat Hd].
    apply andb_true_iff in Eat as [L1 L3].
    apply Nat.leb_le in L1, L3.
    assert (Hd' : Str.all Chars.isdigit_char t1 = true)
      by exact (all_impl _ _ _ is_09_isdigit Hd).
    destruct (zfill_three_pad t1 Hd') as (zeros & Hz & Hzeros & Hl & Hzd);
      [lia|].
    destruct (NumberUtils.digits_to_spoken (Str.zfill 3 t1)) as [|sp] eqn:Esp;
      [discriminate|].
    destruct (spoken_digits_plain _ _ 3 Hzd Hl Esp)
      as (Hp & ws & Hws & -> & Hlen & Hall).
    apply ret_some_inj in H. rewrite <- H.
    cbn [Match.entity Entity.code Entity.spoken].
    exists zeros, (Str.zfill 3 t1), ws. repeat split; assumption.
  - (* two or three spoken digits *)
    set (digits := collect NumberUtils.token_to_digit 3
                           (skipn (index + 1) tokens)) in *.
    destruct (2 <=? length digits)%nat eqn:E2; [|discriminate].
    apply Nat.leb_le in E2.
    pose proof (collect_length NumberUtils.token_to_digit 3
                  (skipn (index + 1) tokens)) as [_ Hcap].
    fold digits in Hcap.
    destruct (join_digits _ (collect_digits_forall 3
                               (skipn (index + 1) tokens))) as [Hjl Hjd].
    fold digits in Hjl, Hjd.
    destruct (zfill_three_pad _ Hjd) as (zeros & Hz & Hzeros & Hl & Hzd);
      [lia|].
    destruct (NumberUtils.digits_to_spoken _) as [|sp] eqn:Esp;
      [discriminate|].
    destruct (spoken_digits_plain _ _ 3 Hzd Hl Esp)
      as (Hp & ws & Hws & -> & Hlen & Hall).
    apply ret_some_inj in H. rewrite <- H.
    cbn [Match.entity Entity.code Entity.spoken].
    exists zeros, (Str.zfill 3 (Str.join "" digits)), ws.
    repeat split; assumption.
Qed.

Lemma heading_code_has_three_digits_witness :
  HeadingFSM.match_ ["hdg"; "90"] 0
  = matched Entity.HEADING "hdg 90" "HDG 090" "heading zero nine zero"
            2 (95 # 100)
  /\ exists zeros deg ws,
       "HDG 090" = "HDG " ++ deg
       /\ deg = zeros ++ "90"
       /\ Str.all (fun c => (Chars.code c =? 48)%N) zeros = true
       /\ String.length deg = 3
       /\ Str.all Chars.is_09 deg = true
       /\ "heading zero nine zero" = "heading " ++ Str.join " " ws
       /\ NumberUtils.spoken_words deg = Ret ws
       /\ length ws = 3
       /\ Forall (fun w => In w (List.map snd Dictionary.NUMBER_REVERSE)) ws.
Proof.
  split; [reflexivity|].
  exact (heading_code_has_three_digits ["hdg"; "90"] 0 _ eq_refl).
Defined.

(** X19.  A QNH match writes the pressure with exactly four decimal
    digits, the four-digit token or the four digits spoken (code
    "QNH dddd"), and speaks it as "qnh" and the four words zero..nine of
    those four digits. *)
Theorem qnh_code_has_four_digits :
  forall tokens index r,
    QNHFSM.match_ tokens index = Ret (Some r) ->
    exists v ws,
      Entity.code (Match.entity r) = "QNH " ++ v
      /\ v = (if at_index tokens (index + 1) QNHFSM._QNH_RE
              then nth (index + 1) tokens ""
              else Str.join ""
                     (collect NumberUtils.token_to_digit 4
                              (skipn (index + 1) tokens)))
      /\ String.length v = 4
      /\ Str.all Chars.is_09 v = true
      /\ Entity.spoken (Match.entity r) = "qnh " ++ Str.join " " ws
      /\ NumberUtils.spoken_words v = Ret ws
      /\ length ws = 4
      /\ Forall (fun w => In w (List.map snd Dictionary.NUMBER_REVERSE)) ws.
Proof.
  intros tokens index r H. unfold QNHFSM.match_, matched, bind in H.
  cbv beta zeta in H.
  destruct (_ || _)%bool; [discriminate|].
  destruct (at_index tokens (index + 1) QNHFSM._QNH_RE) eqn:Eat.
  - unfold at_index in Eat. unfold item in H.
    destruct (nth_error tokens (index + 1)) as [t1|] eqn:Et1; [|discriminate].
    rewrite (nth_of_nth_error _ _ _ Et1).
    unfold QNHFSM._QNH_RE in Eat.
    apply andb_true_iff in Eat as [Hl Hd]. apply Nat.eqb_eq in Hl.
    assert (Hd' : Str.all Chars.isdigit_char t1 = true)
      by exact (all_impl _ _ _ is_09_isdigit Hd).
    destruct (NumberUtils.digits_to_spoken t1) as [|sp] eqn:Esp;
      [discriminate|].
    destruct (spoken_digits_plain _ _ 4 Hd' Hl Esp)
      as (Hp & ws & Hws & -> & Hlen & Hall).
    apply ret_some_inj in H. rewrite <- H.
    cbn [Match.entity Entity.code Entity.spoken].
    exists t1, ws. repeat split; assumption.
  - set (digs := collect NumberUtils.token_to_digit 4
                         (skipn (index + 1) tokens)) in *.
    destruct (length digs =? 4)%nat eqn:E4; [|discriminate].
    apply Nat.eqb_eq in E4.
    destruct (join_digits _ (collect_digits_forall 4
                               (skipn (index + 1) tokens))) as [Hjl Hjd].
    fold digs in Hjl, Hjd. rewrite E4 in Hjl.
    destruct (NumberUtils.digits_to_spoken _) as [|sp] eqn:Esp;
      [discriminate|].
    destruct (spoken_digits_plain _ _ 4 Hjd Hjl Esp)
      as (Hp & ws & Hws & -> & Hlen & Hall).
    apply ret_some_inj in H. rewrite <- H.
    cbn [Match.entity Entity.code Entity.spoken].
    exists (Str.join "" digs), ws. repeat split; assumption.
Qed.

Lemma qnh_code_has_four_digits_witness :
  QNHFSM.match_ ["qnh"; "niner"; "niner"; "eight"; "oh"] 0
  = matched Entity.QNH "qnh niner niner eight oh" "QNH 9980"
            "qnh nine nine eight zero" 5 (90 # 100)
  /\ exists v ws,
       "QNH 9980" = "QNH " ++ v
       /\ v = "9980"
       /\ String.length v = 4
       /\ Str.all Chars.is_09 v = true
       /\ "qnh nine nine eight zero" = "qnh " ++ Str.join " " ws
       /\ NumberUtils.spoken_words v = Ret ws
       /\ length ws = 4
       /\ Forall (fun w => In w (List.map snd Dictionary.NUMBER_REVERSE)) ws.
Proof.
  split; [reflexivity|].
  exact (qnh_code_has_four_digits
           ["qnh"; "niner"; "niner"; "eight"; "oh"] 0 _ eq_refl).
Defined.

Lemma tokens_are_solid_witness :
  In "118.75" (Tokenizer.tokenize (Tokenizer.normalize "contact: 118.75!"))
  /\ Str.nonempty "118.75" = true
  /\ Str.any Chars.re_s "118.75" = false
  /\ Str.any Tidy.word_or_dot "118.75" = true.
Proof.
  assert (Hin : In "118.75"
                   (Tokenizer.tokenize (Tokenizer.normalize "contact: 118.75!")))
    by (vm_compute; right; left; reflexivity).
  split; [exact Hin|].
  exact (tokens_are_solid (Tokenizer.normalize "contact: 118.75!") "118.75"
           Hin).
Defined.

Lemma token_to_digit_one_digit_witness :
  NumberUtils.token_to_digit "Niner" = Some "9"
  /\ Str.mem (Str.lower "Niner") (List.map fst Dictionary.NUMBER_WORDS) = true
  /\ String.length "9" = 1
  /\ Str.all Chars.is_09 "9" = true.
Proof.
  split; [reflexivity|]. split; [reflexivity|].
  destruct (proj2 (token_to_digit_one_digit "Niner") "9" eq_refl)
    as (Hlen & _ & Hplain).
  split; [exact Hlen|]. exact (Hplain eq_refl).
Defined.

(* ------------------------------------------------------------------ *)
(** ** Further properties: numbers and units *)

Lemma dot_free_digits s :
  Str.all Chars.is_09 s = true ->
  Str.any (fun c => (Chars.code c =? 46)%N) s = false.
Proof.
  apply any_false_of_all. intros c Hc. revert Hc. each_char c.
Qed.

(** X20.  On a number token, a digit run with an optional decimal point
    and more digits, [num_str_to_spoken] does not raise: it gives the
    words zero..nine of the digits, one per digit and in their order,
    joined by single spaces, with the word "decimal" where the point
    stands. *)
Theorem num_str_to_spoken_on_numbers :
  forall int frac,
    Str.all Chars.is_09 int = true ->
    Str.all Chars.is_09 frac = true ->
    exists wi wf,
      NumberUtils.spoken_words int = Ret wi
      /\ NumberUtils.spoken_words frac = Ret wf
      /\ length wi = String.length int
      /\ length wf = String.length frac
      /\ Forall (fun w => In w (List.map snd Dictionary.NUMBER_REVERSE)) wi
      /\ Forall (fun w => In w (List.map snd Dictionary.NUMBER_REVERSE)) wf
      /\ NumberUtils.num_str_to_spoken int = Ret (Str.join " " wi)
      /\ NumberUtils.num_str_to_spoken (int ++ "." ++ frac)
         = Ret (Str.join " " wi ++ " decimal " ++ Str.join " " wf).
Proof.
  intros int frac Hi Hf.
  destruct (digits_spoken_words int Hi) as (wi & Hsi & Hwi & Hli & Hai).
  destruct (digits_spoken_words frac Hf) as (wf & Hsf & Hwf & Hlf & Haf).
  exists wi, wf. do 6 (split; [assumption|]). split.
  - unfold NumberUtils.num_str_to_spoken, NumberUtils.split_dot. cbv zeta.
    now rewrite (dot_free_digits int Hi).
  - change (int ++ "." ++ frac) with (int ++ String "." frac).
    unfold NumberUtils.num_str_to_spoken, NumberUtils.split_dot. cbv zeta.
    rewrite (any_app_dot int frac).
    assert (Hnd : forall c, Chars.is_09 c = true ->
                            negb (Chars.code c =? 46)%N = true)
      by (intros c; each_char c).
    assert (Hdot : negb (Chars.code "."%char =? 46)%N = false) by reflexivity.
    destruct (take_while_app_stop
                (fun c => negb (Chars.code c =? 46)%N) int "."%char frac
                (all_impl _ _ _ Hnd Hi) Hdot) as [-> ->].
    simpl Str.drop. unfold bind. now rewrite Hwi, Hwf.
Qed.

Lemma num_str_to_spoken_on_numbers_witness :
  Str.all Chars.is_09 "118" = true
  /\ Str.all Chars.is_09 "75" = true
  /\ exists wi wf,
       NumberUtils.spoken_words "118" = Ret wi
       /\ NumberUtils.spoken_words "75" = Ret wf
       /\ length wi = 3 /\ length wf = 2
       /\ Forall (fun w => In w (List.map snd Dictionary.NUMBER_REVERSE)) wi
       /\ Forall (fun w => In w (List.map snd Dictionary.NUMBER_REVERSE)) wf
       /\ NumberUtils.num_str_to_spoken "118" = Ret (Str.join " " wi)
       /\ NumberUtils.num_str_to_spoken "118.75"
          = Ret (Str.join " " wi ++ " decimal " ++ Str.join " " wf).
Proof.
  split; [reflexivity|]. split; [reflexivity|].
  exact (num_str_to_spoken_on_numbers "118" "75" eq_refl eq_refl).
Defined.

Lemma unit_values k u :
  subscript k ValueFSM._UNIT = Ret u ->
  In u [("ft", "feet"); ("kt", "knots"); ("deg", "degrees")].
Proof.
  unfold subscript, ValueFSM._UNIT. cbn [Str.lookup]. intros H.
  repeat match type of H with
         | context [if ?b then _ else _] => destruct b
         end;
    try discriminate H; injection H as <-; simpl; tauto.
Qed.

(** X21.  A value match ends its code with one of the units ft, kt, deg
    and its spoken form with feet, knots, degrees, whichever spelling of
    the unit the token had; the two go together. *)
Theorem value_unit_is_normalised :
  forall tokens index r,
    ValueFSM.match_ tokens index = Ret (Some r) ->
    exists num sp u,
      Entity.code (Match.entity r) = num ++ " " ++ fst u
      /\ Entity.spoken (Match.entity r) = sp ++ " " ++ snd u
      /\ NumberUtils.num_str_to_spoken num = Ret sp
      /\ In u [("ft", "feet"); ("kt", "knots"); ("deg", "degrees")].
Proof.
  intros tokens index r H. unfold ValueFSM.match_, matched, bind in H.
  cbv beta zeta in H. crack H; apply ret_some_inj in H; rewrite <- H;
    cbn [Match.entity Entity.code Entity.spoken];
    match goal with
    | Eu : subscript _ ValueFSM._UNIT = Ret ?u,
      Es : NumberUtils.num_str_to_spoken ?n = Ret ?s |- _ =>
        exists n, s, u; repeat split;
        [exact Es|exact (unit_values _ _ Eu)]
    end.
Qed.

Lemma value_unit_is_normalised_witness :
  ValueFSM.match_ ["two"; "five"; "zero"; "Knots"] 0
  = matched Entity.VALUE "two five zero Knots" "250 kt"
            "two five zero knots" 4 (85 # 100)
  /\ exists num sp u,
       "250 kt" = num ++ " " ++ fst u
       /\ "two five zero knots" = sp ++ " " ++ snd u
       /\ NumberUtils.num_str_to_spoken num = Ret sp
       /\ In u [("ft", "feet"); ("kt", "knots"); ("deg", "degrees")].
Proof.
  split; [reflexivity|].
  exact (value_unit_is_normalised ["two"; "five"; "zero"; "Knots"] 0 _
           eq_refl).
Defined.

(* ------------------------------------------------------------------ *)
(** ** Further properties: the two modes *)

Lemma scan_modes fsms tokens : forall fuel a b,
  Parser.cursor a = Parser.cursor b ->
  length (Parser.out a) = length (Parser.out b) ->
  match Parser.scan fuel fsms tokens Entity.CODE a,
        Parser.scan fuel fsms tokens Entity.SPOKEN b with
  | Some (Ret a'), Some (Ret b') =>
      Parser.cursor a' = Parser.cursor b'
      /\ length (Parser.out a') = length (Parser.out b')
  | None, None => True
  | _, _ => False
  end.
Proof.
  induction fuel as [|fuel IH]; intros a b Hc Ho; simpl; rewrite <- Hc;
    destruct (Nat.leb_spec (length tokens) (Parser.cursor a)) as [Hge|Hlt].
  - split; assumption.
  - exact I.
  - split; assumption.
  - destruct (nth_error tokens (Parser.cursor a)) as [tok|] eqn:Htok;
      [|apply nth_error_None in Htok; lia].
    destruct (round_spec fsms tokens Entity.CODE a tok Htok) as [lg ->].
    assert (Htok' : nth_error tokens (Parser.cursor b) = Some tok)
      by now rewrite <- Hc.
    destruct (round_spec fsms tokens Entity.SPOKEN b tok Htok') as [lg' ->].
    rewrite <- Hc. apply IH;
      destruct (Parser._best_match fsms tokens (Parser.cursor a)); simpl;
      rewrite ?length_app; simpl; lia.
Qed.

(** X22.  The mode changes only what is written for a match: in CODE and
    in SPOKEN mode the scan makes the same rounds, ends at the same cursor
    and emits the same number of pieces. *)
Theorem modes_scan_alike :
  forall fsms text,
    exists sc ss,
      Parser.parse_state fsms text Entity.CODE = Some (Ret sc)
      /\ Parser.parse_state fsms text Entity.SPOKEN = Some (Ret ss)
      /\ Parser.cursor sc = Parser.cursor ss
      /\ length (Parser.out sc) = length (Parser.out ss).
Proof.
  intros fsms text. unfold Parser.parse_state.
  set (tokens := Tokenizer.tokenize (Tokenizer.normalize text)).
  pose proof (scan_modes fsms tokens (length tokens)
                (Parser.mkState 0 [] []) (Parser.mkState 0 [] [])
                eq_refl eq_refl) as H.
  destruct (scan_reaches_end fsms tokens Entity.CODE (length tokens)
              (Parser.mkState 0 [] [])) as (sc & Hsc & _); [simpl; lia|].
  destruct (scan_reaches_end fsms tokens Entity.SPOKEN (length tokens)
              (Parser.mkState 0 [] [])) as (ss & Hss & _); [simpl; lia|].
  rewrite Hsc, Hss in H. exists sc, ss. tauto.
Qed.

(* ------------------------------------------------------------------ *)
(** ** The QNH matcher: what matches and what does not *)

Lemma digits_to_spoken_superscript s :
  Str.any Tidy.superscript s = true ->
  NumberUtils.digits_to_spoken s = Raise ValueError.
Proof.
  intros Hs. unfold NumberUtils.digits_to_spoken.
  set (only := Str.filter Chars.isdigit_char s).
  assert (Hs' : Str.any Tidy.superscript only = true).
  { unfold only. now rewrite (any_filter _ _ _ superscript_isdigit). }
  rewrite (spoken_words_superscript only (filter_all _ _) Hs').
  destruct only; [discriminate Hs'|reflexivity].
Qed.

Lemma nothing_returned_no_best fsms tokens index :
  (forall f, In f fsms -> returned_by tokens index f = []) ->
  Parser._best_match fsms tokens index = None.
Proof.
  intros Hall.
  assert (Hret : returned fsms tokens index = []).
  { unfold returned. induction fsms as [|f fsms IH]; [reflexivity|].
    simpl. rewrite (Hall f) by (left; reflexivity).
    apply IH. intros g Hg. apply Hall. now right. }
  pose proof (best_match_first_max fsms tokens index) as Hmax.
  destruct (Parser._best_match fsms tokens index) as [b|]; [|reflexivity].
  destruct Hmax as (pre & post & Hsplit & _). rewrite Hret in Hsplit.
  destruct pre; discriminate Hsplit.
Qed.

(** C4, as the code has it.  The QNH matcher needs the prefix "qnh".  After
    it, a token of exactly four digits matches (step 2, confidence 0.95);
    otherwise, when the next four tokens convert to one digit each, they
    match (step 5, confidence 0.90) whatever follows them, so that a phrase
    of five digit tokens matches on its first four; the four must be
    decimal digits, for with a superscript digit among them the call raises
    [ValueError].  Every match is of one of these two forms.  The matcher
    returns no match when fewer than four such tokens follow, and when one
    digit-string token of another length (three or five digits, say)
    follows; in a driver where no other matcher matches at that position
    the token "qnh" is then passed through raw and the cursor moves on by
    one. *)
Theorem qnh_takes_four_digits :
  forall tokens index t0,
    nth_error tokens index = Some t0 ->
    let digs := collect NumberUtils.token_to_digit 4 (skipn (index + 1) tokens) in
    ((Str.lower t0 =? "qnh") = false ->
     QNHFSM.match_ tokens index = Ret None)
    /\ ((Str.lower t0 =? "qnh") = true ->
        forall t1,
          nth_error tokens (index + 1) = Some t1 ->
          QNHFSM._QNH_RE t1 = true ->
          exists sp,
            NumberUtils.digits_to_spoken t1 = Ret sp
            /\ QNHFSM.match_ tokens index
               = matched Entity.QNH
                         (Str.join " " (slice tokens index (index + 2)))
                         ("QNH " ++ t1) ("qnh " ++ sp) 2 (95 # 100))
    /\ ((Str.lower t0 =? "qnh") = true ->
        at_index tokens (index + 1) QNHFSM._QNH_RE = false ->
        length digs = 4 ->
        Str.any Tidy.superscript (Str.join "" digs) = false ->
        exists sp,
          NumberUtils.digits_to_spoken (Str.join "" digs) = Ret sp
          /\ QNHFSM.match_ tokens index
             = matched Entity.QNH
                       (Str.join " " (slice tokens index (index + 5)))
                       ("QNH " ++ Str.join "" digs) ("qnh " ++ sp)
                       5 (90 # 100))
    /\ ((Str.lower t0 =? "qnh") = true ->
        at_index tokens (index + 1) QNHFSM._QNH_RE = false ->
        length digs = 4 ->
        Str.any Tidy.superscript (Str.join "" digs) = true ->
        QNHFSM.match_ tokens index = Raise ValueError)
    /\ (forall r,
          QNHFSM.match_ tokens index = Ret (Some r) ->
          (Str.lower t0 =? "qnh") = true
          /\ ((at_index tokens (index + 1) QNHFSM._QNH_RE = true
               /\ Match.step r = 2%Z
               /\ (Match.confidence r == 95 # 100)%Q)
              \/ (at_index tokens (index + 1) QNHFSM._QNH_RE = false
                  /\ length digs = 4
                  /\ Match.step r = 5%Z
                  /\ (Match.confidence r == 90 # 100)%Q
                  /\ Entity.code (Match.entity r)
                     = "QNH " ++ Str.join "" digs)))
    /\ (at_index tokens (index + 1) QNHFSM._QNH_RE = false ->
        length digs < 4 ->
        QNHFSM.match_ tokens index = Ret None)
    /\ (forall t1,
          nth_error tokens (index + 1) = Some t1 ->
          Str.all Chars.re_d t1 = true ->
          2 <= String.length t1 -> String.length t1 <> 4 ->
          QNHFSM.match_ tokens index = Ret None)
    /\ (forall fsms mode st,
          Parser.cursor st = index ->
          QNHFSM.match_ tokens index = Ret None ->
          (forall f, In f fsms ->
                     f = QNHFSM.match_ \/ returned_by tokens index f = []) ->
          exists st',
            Parser.round fsms tokens mode st = Ret st'
            /\ Parser.cursor st' = index + 1
            /\ Parser.out st' = (Parser.out st ++ [t0])%list).
Proof.
  intros tokens index t0 Ht0 digs.
  assert (Hlen : (length tokens <=? index)%nat = false).
  { apply Nat.leb_gt, nth_error_Some. congruence. }
  assert (Hat : forall p, at_index tokens index p = p t0).
  { intros p. unfold at_index. now rewrite Ht0. }
  assert (Hshort : at_index tokens (index + 1) QNHFSM._QNH_RE = false ->
                   length digs < 4 -> QNHFSM.match_ tokens index = Ret None).
  { intros Hre Hd. unfold QNHFSM.match_. rewrite Hlen, Hat, Hre. fold digs.
    destruct (negb (Str.lower t0 =? "qnh")); simpl; [reflexivity|].
    destruct (Nat.eqb_spec (length digs) 4); [lia|reflexivity]. }
  split; [|split; [|split; [|split; [|split; [|split; [exact Hshort|split]]]]]].
  - intros Hpre. unfold QNHFSM.match_. now rewrite Hlen, Hat, Hpre.
  - intros Hq t1 Ht1 Hre.
    assert (Hplain : Str.all Chars.is_09 t1 = true).
    { unfold QNHFSM._QNH_RE in Hre. now apply andb_true_iff in Hre as [_ Hre]. }
    destruct (digits_spoken_words t1 Hplain) as (ws & _ & Hsp & _).
    exists (Str.join " " ws). split; [exact Hsp|].
    unfold QNHFSM.match_, bind, item, at_index.
    rewrite Hlen, Ht0, Hq, Ht1, Hre, Hsp. reflexivity.
  - intros Hq Hre Hfour Hplain.
    destruct (join_digits _ (collect_digits_forall 4
                               (skipn (index + 1) tokens))) as [_ Hjd].
    fold digs in Hjd.
    pose proof (plain_digits _ Hjd Hplain) as Hp.
    destruct (digits_spoken_words _ Hp) as (ws & _ & Hsp & _).
    exists (Str.join " " ws). split; [exact Hsp|].
    unfold QNHFSM.match_, bind. rewrite Hlen, Hat, Hq, Hre. fold digs.
    rewrite Hfour, Hsp. cbn [negb orb Nat.eqb]. unfold matched.
    replace (index + 1 + 4) with (index + 5) by lia.
    replace (Z.of_nat (index + 5) - Z.of_nat index)%Z with 5%Z by lia.
    reflexivity.
  - intros Hq Hre Hfour Hsuper.
    unfold QNHFSM.match_, bind. rewrite Hlen, Hat, Hq, Hre. fold digs.
    rewrite Hfour, (digits_to_spoken_superscript _ Hsuper). reflexivity.
  - intros r H. unfold QNHFSM.match_, matched, bind in H.
    rewrite Hlen, Hat in H. fold digs in H.
    destruct (Str.lower t0 =? "qnh"); [|discriminate]. split; [reflexivity|].
    simpl in H.
    destruct (at_index tokens (index + 1) QNHFSM._QNH_RE).
    + left. crack H. apply ret_some_inj in H. rewrite <- H. simpl.
      repeat split.
    + right. destruct (Nat.eqb_spec (length digs) 4) as [E|E];
        [|discriminate].
      crack H. apply ret_some_inj in H. rewrite <- H. cbn [Match.step
        Match.confidence Match.entity Entity.code]. rewrite E.
      repeat split. lia.
  - intros t1 Ht1 Hd Hlen2 Hlen4. apply Hshort.
    + unfold at_index, QNHFSM._QNH_RE. rewrite Ht1.
      destruct (Nat.eqb_spec (String.length t1) 4); [lia|reflexivity].
    + unfold digs. destruct (skipn_nth_error _ _ _ Ht1) as [rest ->].
      simpl. rewrite (token_to_digit_long _ Hd Hlen2). simpl. lia.
  - intros fsms mode st Hc Hnone Hothers.
    assert (Ht : nth_error tokens (Parser.cursor st) = Some t0)
      by now rewrite Hc.
    destruct (round_spec fsms tokens mode st t0 Ht) as [lg ->].
    rewrite Hc, (nothing_returned_no_best fsms tokens index).
    + eexists. split; [reflexivity|]. split; reflexivity.
    + intros f Hf. destruct (Hothers f Hf) as [->|Hnil]; [|exact Hnil].
      unfold returned_by. now rewrite Hnone.
Qed.

Lemma qnh_takes_four_digits_witness :
  (nth_error ["qnh"; "one"; "zero"; "one"] 0 = Some "qnh"
   /\ at_index ["qnh"; "one"; "zero"; "one"] (0 + 1) QNHFSM._QNH_RE = false
   /\ length (collect NumberUtils.token_to_digit 4
                (skipn (0 + 1) ["qnh"; "one"; "zero"; "one"])) < 4
   /\ QNHFSM.match_ ["qnh"; "one"; "zero"; "one"] 0 = Ret None)
  /\ (nth_error ["qnh"; "one"; "zero"; "one"; "three"; "five"] 0 = Some "qnh"
      /\ (Str.lower "qnh" =? "qnh") = true
      /\ exists sp,
           QNHFSM.match_ ["qnh"; "one"; "zero"; "one"; "three"; "five"] 0
           = matched Entity.QNH "qnh one zero one three" "QNH 1013"
                     ("qnh " ++ sp) 5 (90 # 100))
  /\ (nth_error ["QNH"; "1013"; "now"] (0 + 1) = Some "1013"
      /\ QNHFSM._QNH_RE "1013" = true
      /\ exists sp,
           QNHFSM.match_ ["QNH"; "1013"; "now"] 0
           = matched Entity.QNH "QNH 1013" "QNH 1013" ("qnh " ++ sp)
                     2 (95 # 100)).
Proof.
  split; [|split].
  - split; [reflexivity|]. split; [reflexivity|]. split; [simpl; lia|].
    destruct (qnh_takes_four_digits ["qnh"; "one"; "zero"; "one"] 0 "qnh"
                eq_refl) as (_ & _ & _ & _ & _ & Hshort & _).
    apply Hshort; [reflexivity|simpl; lia].
  - split; [reflexivity|]. split; [reflexivity|].
    destruct (qnh_takes_four_digits
                ["qnh"; "one"; "zero"; "one"; "three"; "five"] 0 "qnh"
                eq_refl) as (_ & _ & Hfour & _).
    destruct (Hfour eq_refl eq_refl eq_refl eq_refl) as (sp & _ & Hm).
    exists sp. exact Hm.
  - split; [reflexivity|]. split; [reflexivity|].
    destruct (qnh_takes_four_digits ["QNH"; "1013"; "now"] 0 "QNH" eq_refl)
      as (_ & Hcode & _).
    destruct (Hcode eq_refl "1013" eq_refl eq_refl) as (sp & _ & Hm).
    exists sp. exact Hm.
Defined.
